(** * rgbd_mocap: marker tracking, per-crop processing and camera conversion

    A shallow embedding of
    - [tracking/tracking_markers.py] (class [Tracker]),
    - [tracking/test_tracking.py] (function [set_marker_pos]),
    - [processing/process_handler.py] (class [ProcessHandler]),
    - [process_image/process_image.py] (classes [ImageProcessingHandler]
      and [ProcessImage]),
    - [camera/camera_converter.py] (method
      [CameraConverter.get_markers_pos_in_meter]),
    followed by the properties established about them.

    Python objects are mutated in place and exceptions leave the
    mutations done so far visible; methods are therefore embedded in a
    state-and-exception monad [Py S A := S -> S * result A]. *)

From Stdlib Require Import ZArith Lia String Bool.
From stdpp Require Import base list pretty.

Set Default Proof Using "Type".

(** ** Exceptions and the state-and-exception monad *)

Inductive exn : Type :=
| IndexError
| AttributeError
| TypeError
| AssertionError
| ValueError
| ZeroDivisionError.

Inductive result (A : Type) : Type :=
| Ok (a : A)
| Raise (e : exn).
Arguments Ok {A} a.
Arguments Raise {A} e.

Definition Py (S A : Type) : Type := S -> S * result A.

Definition ret {S A : Type} (a : A) : Py S A := fun s => (s, Ok a).

Definition raise {S A : Type} (e : exn) : Py S A := fun s => (s, Raise e).

Definition bind {S A B : Type} (m : Py S A) (k : A -> Py S B) : Py S B :=
  fun s => match m s with
           | (s', Ok a) => k a s'
           | (s', Raise e) => (s', Raise e)
           end.

Definition get {S : Type} : Py S S := fun s => (s, Ok s).

Definition modify {S : Type} (f : S -> S) : Py S unit := fun s => (f s, Ok tt).

Declare Scope py_scope.
Delimit Scope py_scope with py.
Notation "x <- m ;; k" := (bind m (fun x => k))
  (at level 100, m at next level, k at level 200, only parsing) : py_scope.
Notation "m ;; k" := (bind m (fun _ => k))
  (at level 100, k at level 200, only parsing) : py_scope.
Open Scope py_scope.

(** [for x in l: body x] *)
Fixpoint for_each {S A : Type} (l : list A) (body : A -> Py S unit) : Py S unit :=
  match l with
  | [] => ret tt
  | x :: rest => body x ;; for_each rest body
  end.

(** Run a computation on a component of the state (an attribute holding
    an object), writing the component back whatever the outcome. *)
Definition zoom {S T A : Type} (proj : S -> T) (inj : T -> S -> S)
    (m : Py T A) : Py S A :=
  fun s => let '(t', r) := m (proj s) in (inj t' s, r).

(** [enumerate(l)] *)
Definition enumerate {A : Type} (l : list A) : list (nat * A) :=
  zip (seq 0 (length l)) l.

(** [range(a, b)] *)
Definition range (a b : nat) : list nat := seq a (b - a).

(** ** Positions *)

Definition coord : Type := (Z * Z)%type.

Definition coord_add (a b : coord) : coord := (a.1 + b.1, a.2 + b.2)%Z.

(** Element-wise floor division of a coordinate pair by a scalar; Python's
    [//] on integers rounds towards minus infinity, as [Z.div] does. *)
Definition coord_floordiv (a : coord) (n : Z) : coord := (a.1 / n, a.2 / n)%Z.

Definition coord_eqb (a b : coord) : bool := ((a.1 =? b.1) && (a.2 =? b.2))%Z.

(** Modelled from the spec: class [Position] of [position.py] is not among
    the sources.  The spec gives it as a small value type, a 2D coordinate
    plus a visibility flag; the "no estimate" sentinel is the empty tuple
    [()] in [Tracker], embedded as [Empty] below.  Coordinates are integers
    (blob centres are cast to [int] by the blob detector). *)
Record Position : Type := mkPosition {
  position : coord;
  visibility : bool;
}.

(** An entry of [Tracker.positions]: either [()] or a [Position]. *)
Inductive Merged : Type :=
| Empty
| Valid (p : Position).

(** Modelled from the spec: [Position.__eq__].  "Two positions are equal iff
    both are Empty or both have identical (x,y) regardless of visibility." *)
Definition Position_eq (a b : Merged) : bool :=
  match a, b with
  | Empty, Empty => true
  | Valid p, Valid q => coord_eqb (position p) (position q)
  | _, _ => false
  end.

(** [p != ()] *)
Definition not_empty (a : Merged) : bool := negb (Position_eq a Empty).

(** Modelled from the spec: [Position.check_bounds(max_x, max_y)].  "clamp x
    to [0, crop_width-1] and y to [0, crop_height-1] independently". *)
Definition clamp (lo hi v : Z) : Z := Z.min (Z.max v lo) hi.

Definition Position_check_bounds (max_x max_y : Z) (p : Position) : Position :=
  {| position := (clamp 0 max_x (position p).1, clamp 0 max_y (position p).2);
     visibility := visibility p |}.

(** Squared Euclidean distance.  The sources compare distances only with
    [<]; on non-negative numbers that is the comparison of the squares. *)
Definition dist2 (a b : coord) : Z :=
  ((a.1 - b.1) * (a.1 - b.1) + (a.2 - b.2) * (a.2 - b.2))%Z.

(** Modelled from the spec: [find_closest_blob(center, blobs, delta)] of
    [rgbd_mocap.utils] is not among the sources.  "pick the blob minimizing
    Euclidean distance to the anchor; ties broken by blob list order"; the
    blob is a match "if [it] lies within a fixed radius DELTA of that
    anchor". *)
Fixpoint nearest_blob (center : coord) (blobs : list coord) : option coord :=
  match blobs with
  | [] => None
  | b :: rest =>
      match nearest_blob center rest with
      | None => Some b
      | Some b' => if (dist2 center b' <? dist2 center b)%Z then Some b' else Some b
      end
  end.

Definition find_closest_blob (center : coord) (blobs : list coord) (delta : Z)
    : coord * bool :=
  match nearest_blob center blobs with
  | Some b => if (dist2 center b <=? delta * delta)%Z then (b, true) else (center, false)
  | None => (center, false)
  end.

(** ** [Tracker._merge_positions] (static method) *)

(** The loop body of [_merge_positions], threading [final_position] and
    [visibility_count]. *)
Fixpoint _merge_loop (positions : list Position) (final_position : coord)
    (visibility_count : Z) : coord * Z :=
  match positions with
  | [] => (final_position, visibility_count)
  | p :: rest =>
      if visibility p
      then _merge_loop rest (coord_add final_position (position p)) (visibility_count + 1)%Z
      else _merge_loop rest final_position visibility_count
  end.

(** The argument is [None] for a slot of [estimated_positions] that was
    never assigned a list; [not positions] holds for [None] and for [[]]. *)
Definition _merge_positions (positions : option (list Position)) : Merged :=
  match positions with
  | None => Empty
  | Some [] => Empty
  | Some l =>
      let '(final_position, visibility_count) := _merge_loop l (0, 0)%Z 0%Z in
      if (visibility_count =? 0)%Z then Empty
      else Valid {| position := coord_floordiv final_position visibility_count;
                    visibility := (0 <? visibility_count)%Z |}
  end.

(** The merge as the specification words it: the average of the
    coordinates of the visible candidates. *)
Definition visible_candidates (l : list Position) : list coord :=
  position <$> filter (fun p => visibility p = true) l.

Definition coord_sum (l : list coord) : coord := foldr coord_add (0, 0)%Z l.

Definition average (l : list coord) : coord :=
  coord_floordiv (coord_sum l) (Z.of_nat (length l)).

Definition spec_merge (l : list Position) : Merged :=
  match visible_candidates l with
  | [] => Empty
  | v => Valid {| position := average v; visibility := true |}
  end.

(** ** External collaborators

    The Kalman filter, the optical-flow adapter, the images with their
    cropping, filtering and blob detection, and the image loader are used
    through their interfaces only. *)

Definition area : Type := (Z * Z * Z * Z)%type.

(** The flags [load_img] passes to [cv2.imread]. *)
Inductive imread_flag : Type :=
| COLOR_BGR2RGB
| IMREAD_ANYDEPTH.

Class Collaborators : Type := {
  Image : Type;
  (** per-marker Kalman filter: [predict()] returns the prediction and
      advances the filter, [correct(measurement)] updates it *)
  Kalman : Type;
  kalman_predict : Kalman -> Kalman * coord;
  kalman_correct : Kalman -> coord -> Kalman;
  (** [OpticalFlow(color, points)], [get_optical_flow_pos(color)] and
      [__getitem__(index)], which gives the estimation and its status (the
      error, third component in the source, is never read) *)
  Flow : Type;
  Flow_init : Image -> list coord -> Flow;
  Flow_get_optical_flow_pos : Flow -> Image -> Flow;
  Flow_getitem : Flow -> nat -> coord * Z;
  (** the crop's filter pipeline followed by the blob detector *)
  Filters : Type;
  crop_image : area -> Image -> Image;
  detect_blobs : Filters -> Image -> list coord;
  (** [cv2.imread(file, flag)], which is [None] when the file cannot be
      read, and [cv2.flip(image, flipCode)] *)
  cv2_imread : string -> imread_flag -> option Image;
  cv2_flip : Image -> Z -> Image;
}.

(** ** Markers, marker sets and frames *)

Section Markers.
Context `{C : Collaborators}.

(** Modelled from the spec: classes [Marker] and [MarkerSet] are not among
    the sources.  "Marker: {name, position: (x,y), is_static, kalman_state}";
    "MarkerSet: named ordered sequence of Marker" owning an offset. *)
Record Marker : Type := mkMarker {
  name : string;
  pos : coord;
  is_static : bool;
  kalman_state : Kalman;
}.

Definition with_pos (p : coord) (m : Marker) : Marker :=
  {| name := name m; pos := p; is_static := is_static m;
     kalman_state := kalman_state m |}.

Definition with_kalman_state (k : Kalman) (m : Marker) : Marker :=
  {| name := name m; pos := pos m; is_static := is_static m;
     kalman_state := k |}.

(** Modelled from the spec: [Marker.predict_from_kalman()] runs the predict
    step of the marker's own filter and returns the prediction. *)
Definition predict_from_kalman (m : Marker) : Marker * coord :=
  let '(k, prediction) := kalman_predict (kalman_state m) in
  (with_kalman_state k m, prediction).

(** Modelled from the spec: [Marker.correct_from_kalman(pos)] feeds the
    measurement to the correct step of the marker's own filter. *)
Definition correct_from_kalman (measurement : coord) (m : Marker) : Marker :=
  with_kalman_state (kalman_correct (kalman_state m) measurement) m.

Record MarkerSet : Type := mkMarkerSet {
  set_name : string;
  markers : list Marker;
  offset : coord;
}.

Definition with_markers (l : list Marker) (ms : MarkerSet) : MarkerSet :=
  {| set_name := set_name ms; markers := l; offset := offset ms |}.

Definition get_markers_pos_2d (ms : MarkerSet) : list coord :=
  pos <$> markers ms.

(** [marker_set[i]] *)
Definition MarkerSet_getitem (i : nat) : Py MarkerSet Marker :=
  fun ms => match markers ms !! i with
            | Some m => (ms, Ok m)
            | None => (ms, Raise IndexError)
            end.

(** Modelled from the spec: class [Frames] is not among the sources.
    "Frame: {color, depth}, fully replaced each tick"; [width] and [height]
    are the bounds read by [Tracker.check_bounds]. *)
Record Frames : Type := mkFrames {
  color : Image;
  depth : Image;
  width : Z;
  height : Z;
}.

Definition set_images (c d : Image) (f : Frames) : Frames :=
  {| color := c; depth := d; width := width f; height := height f |}.

(** Modelled from the spec: [Position.distance_from_marker(marker)], the
    displacement of a position from the marker's stored position (squared,
    see [dist2]). *)
Definition distance_from_marker (p : Position) (m : Marker) : Z :=
  dist2 (position p) (pos m).
End Markers.

(** ** [class Tracker] *)

Module Tracker.
Section Tracker.
Context `{C : Collaborators}.

(** [Tracker.DELTA], a class attribute ([8] in the source, reassigned by
    the test driver). *)
Variable DELTA : Z.

Record t : Type := mk {
  marker_set : MarkerSet;
  optical_flow : option Flow;
  kalman : bool;
  naive : bool;
  blobs : option (list coord);
  positions : list Merged;
  estimated_positions : list (option (list Position));
}.

Definition with_marker_set (v : MarkerSet) (s : t) : t :=
  mk v (optical_flow s) (kalman s) (naive s) (blobs s) (positions s)
     (estimated_positions s).
Definition with_optical_flow (v : option Flow) (s : t) : t :=
  mk (marker_set s) v (kalman s) (naive s) (blobs s) (positions s)
     (estimated_positions s).
Definition with_blobs (v : option (list coord)) (s : t) : t :=
  mk (marker_set s) (optical_flow s) (kalman s) (naive s) v (positions s)
     (estimated_positions s).
Definition with_positions (v : list Merged) (s : t) : t :=
  mk (marker_set s) (optical_flow s) (kalman s) (naive s) (blobs s) v
     (estimated_positions s).
Definition with_estimated_positions (v : list (option (list Position))) (s : t) : t :=
  mk (marker_set s) (optical_flow s) (kalman s) (naive s) (blobs s)
     (positions s) v.

Definition __init__ (frame : Frames) (ms : MarkerSet)
    (naive optical_flow kalman : bool) : t :=
  {| marker_set := ms;
     optical_flow :=
       if optical_flow then Some (Flow_init (color frame) (get_markers_pos_2d ms))
       else None;
     kalman := kalman;
     naive := naive;
     blobs := None;
     positions := [];
     estimated_positions := replicate (length (markers ms)) None |}.

(** [self.estimated_positions[index] = v] *)
Definition estimated_setitem (index : nat) (v : list Position) : Py t unit :=
  fun self =>
    if decide (index < length (estimated_positions self))%nat
    then (with_estimated_positions
            (<[index := Some v]> (estimated_positions self)) self, Ok tt)
    else (self, Raise IndexError).

(** [self.estimated_positions[index].append(p)] *)
Definition estimated_append (index : nat) (p : Position) : Py t unit :=
  fun self =>
    match estimated_positions self !! index with
    | None => (self, Raise IndexError)
    | Some None => (self, Raise AttributeError)
    | Some (Some l) =>
        (with_estimated_positions
           (<[index := Some (l ++ [p])]> (estimated_positions self)) self, Ok tt)
    end.

Definition _get_blob_near_position (position : coord) (index : nat) : Py t bool :=
  estimated_append index (mkPosition position false) ;;
  self <- get ;;
  match blobs self with
  | None => raise TypeError
  | Some bl =>
      let '(position, visible) := find_closest_blob position bl DELTA in
      (if visible then estimated_append index (mkPosition position visible)
       else ret tt) ;;
      ret visible
  end.

Definition merge_positions : Py t unit :=
  modify (with_positions []) ;;
  self <- get ;;
  for_each (estimated_positions self) (fun positions =>
    modify (fun self =>
      with_positions (Tracker.positions self ++ [_merge_positions positions]) self)).

(** [marker] is the object stored at [markers[index]]; its mutation by
    [predict_from_kalman] is written to that slot of the marker set. *)
Definition marker_setitem (index : nat) (m : Marker) : Py t unit :=
  modify (fun self =>
    with_marker_set
      (with_markers (<[index := m]> (markers (marker_set self))) (marker_set self))
      self).

Definition _track_marker (marker : nat * Marker) : Py t (option coord) :=
  let '(index, marker) := marker in
  if is_static marker then ret (Some (pos marker))
  else
    estimated_setitem index [] ;;
    self <- get ;;
    (if naive self
     then _ <- _get_blob_near_position (pos marker) index ;; ret tt
     else ret tt) ;;
    match optical_flow self with
    | Some flow =>
        let '(estimation, st) := Flow_getitem flow index in
        if (st =? 1)%Z
        then _ <- _get_blob_near_position estimation index ;; ret tt
        else ret tt
    | None => ret tt
    end ;;
    (if kalman self
     then
       let '(marker, prediction) := predict_from_kalman marker in
       marker_setitem index marker ;;
       _ <- _get_blob_near_position prediction index ;; ret tt
     else ret tt) ;;
    ret None.

(** [self.positions[i]] *)
Definition positions_getitem (i : nat) : Py t Merged :=
  fun self => match positions self !! i with
              | Some p => (self, Ok p)
              | None => (self, Raise IndexError)
              end.

(** [self.positions[i].position = v] *)
Definition positions_set_position (i : nat) (v : coord) : Py t unit :=
  fun self => match positions self !! i with
              | None => (self, Raise IndexError)
              | Some Empty => (self, Raise AttributeError)
              | Some (Valid p) =>
                  (with_positions
                     (<[i := Valid (mkPosition v (visibility p))]> (positions self))
                     self, Ok tt)
              end.

(** [self.positions[i].distance_from_marker(self.marker_set[i])] *)
Definition displacement (i : nat) : Py t Z :=
  p <- positions_getitem i ;;
  match p with
  | Empty => raise AttributeError
  | Valid p =>
      m <- zoom marker_set with_marker_set (MarkerSet_getitem i) ;;
      ret (distance_from_marker p m)
  end.

Definition _correct_overlapping (i j : nat) : Py t unit :=
  dist_i <- displacement i ;;
  dist_j <- displacement j ;;
  if (dist_i <? dist_j)%Z
  then
    m <- zoom marker_set with_marker_set (MarkerSet_getitem j) ;;
    positions_set_position j (pos m)
  else
    m <- zoom marker_set with_marker_set (MarkerSet_getitem i) ;;
    positions_set_position i (pos m).

Definition check_tracking : Py t unit :=
  self <- get ;;
  let nb_pos := length (positions self) in
  for_each (range 0 nb_pos) (fun i =>
    for_each (range (i + 1) nb_pos) (fun j =>
      pi <- positions_getitem i ;;
      pj <- positions_getitem j ;;
      if Position_eq pi pj && not_empty pi
      then _correct_overlapping i j
      else ret tt)).

Definition check_bounds (frame : Frames) : Py t unit :=
  let max_x := (width frame - 1)%Z in
  let max_y := (height frame - 1)%Z in
  self <- get ;;
  for_each (range 0 (length (positions self))) (fun i =>
    p <- positions_getitem i ;;
    match p with
    | Empty => ret tt
    | Valid p =>
        modify (fun self =>
          with_positions
            (<[i := Valid (Position_check_bounds max_x max_y p)]> (positions self))
            self)
    end).

(** The last loop of [track], which feeds every non-empty position to the
    Kalman filter of its marker. *)
Definition correct_markers : Py t unit :=
  self <- get ;;
  for_each (enumerate (markers (marker_set self))) (fun '(i, marker) =>
    p <- positions_getitem i ;;
    match p with
    | Empty => ret tt
    | Valid p => marker_setitem i (correct_from_kalman (position p) marker)
    end).

Definition track (frame : Frames) (blobs : list coord)
    : Py t (list Merged * list (option (list Position))) :=
  modify (with_blobs (Some blobs)) ;;
  self <- get ;;
  match optical_flow self with
  | Some flow =>
      modify (with_optical_flow
                (Some (Flow_get_optical_flow_pos flow (color frame))))
  | None => ret tt
  end ;;
  self <- get ;;
  for_each (enumerate (markers (marker_set self))) (fun marker =>
    _ <- _track_marker marker ;; ret tt) ;;
  merge_positions ;;
  check_tracking ;;
  check_bounds frame ;;
  correct_markers ;;
  self <- get ;;
  ret (positions self, estimated_positions self).
End Tracker.
End Tracker.

(** ** [tracking/test_tracking.py] *)

Section TestTracking.
Context `{C : Collaborators}.

(** [marker_set[i].pos[:2] = v] *)
Definition MarkerSet_set_pos (i : nat) (v : coord) : Py MarkerSet unit :=
  m <- MarkerSet_getitem i ;;
  modify (fun marker_set =>
    with_markers (<[i := with_pos v m]> (markers marker_set)) marker_set).

Definition set_marker_pos (positions : list Merged) : Py MarkerSet unit :=
  marker_set <- get ;;
  if decide (length (markers marker_set) = length positions)
  then
    for_each (range 0 (length positions)) (fun i =>
      match positions !! i with
      | None => raise IndexError
      | Some Empty => ret tt
      | Some (Valid p) => MarkerSet_set_pos i (position p)
      end)
  else raise AssertionError.

(** [print_position] iterates over the candidates of one marker to draw
    them; only its outcome is kept: iterating [None] raises. *)
Definition print_position {S : Type} (positions : option (list Position))
    : Py S unit :=
  match positions with
  | None => raise TypeError
  | Some _ => ret tt
  end.

Definition print_estimated_positions {S : Type}
    (estimated_pos : list (option (list Position))) : Py S unit :=
  for_each estimated_pos print_position.
End TestTracking.

(** ** Crops *)

Module Crop.
Section Crop.
Context `{C : Collaborators}.
Variable DELTA : Z.

(** Modelled from the spec: class [Crop] of [crop/crop.py] is not among the
    sources.  "Crop: {region: (x,y,w,h), marker_set, filter config}"; it
    "binds a rectangular region of interest, a MarkerSet, and a blob-filter
    pipeline; produces blobs and a filtered image for the Tracker".  The
    marker set of the crop is the very object held by its tracker. *)
Record t : Type := mk {
  region : area;
  filters : Filters;
  tracker : Tracker.t;
}.

Definition with_tracker (v : Tracker.t) (crop : t) : t :=
  mk (region crop) (filters crop) v.

Definition marker_set (crop : t) : MarkerSet :=
  Tracker.marker_set (tracker crop).

Definition with_marker_set (v : MarkerSet) (crop : t) : t :=
  with_tracker (Tracker.with_marker_set v (tracker crop)) crop.

(** The view of the shared frame restricted to the crop's region. *)
Definition crop_frames (r : area) (frames : Frames) : Frames :=
  let '(_, _, w, h) := r in
  {| color := crop_image r (color frames);
     depth := crop_image r (depth frames);
     width := w;
     height := h |}.

Definition __init__ (r : area) (frames : Frames) (ms : MarkerSet)
    (f : Filters) (naive optical_flow kalman : bool) : t :=
  {| region := r;
     filters := f;
     tracker := Tracker.__init__ (crop_frames r frames) ms naive optical_flow kalman |}.

(** Modelled from the spec: [Crop.track_markers()] runs "its Crop's blob
    extraction against the shared frame region", then "its Tracker". *)
Definition track_markers (frames : Frames)
    : Py t (list coord * list Merged * list (option (list Position))) :=
  crop <- get ;;
  let frame := crop_frames (region crop) frames in
  let blobs := detect_blobs (filters crop) (color frame) in
  tracked <- zoom tracker with_tracker (Tracker.track DELTA frame blobs) ;;
  let '(positions, estimate_positions) := tracked in
  ret (blobs, positions, estimate_positions).
End Crop.
End Crop.

(** ** [class ProcessHandler] of [processing/process_handler.py] *)

Module ProcessHandler.
Section ProcessHandler.
Context `{C : Collaborators}.
Variable DELTA : Z.

Record t : Type := mk {
  crops : list Crop.t;
  crops_name : list string;
}.

Definition with_crops (v : list Crop.t) (self : t) : t :=
  mk v (crops_name self).

(** Run a method of the crop object found at [self.crops[i]]. *)
Definition on_crop {A : Type} (i : nat) (crop : Crop.t) (m : Py Crop.t A)
    : Py t A :=
  fun self =>
    let '(crop', r) := m crop in
    (with_crops (<[i := crop']> (crops self)) self, r).

(** [self.crops_name[i]], the title of the window shown by [show_image]
    (display only). *)
Definition crops_name_getitem (i : nat) : Py t string :=
  fun self => match crops_name self !! i with
              | Some n => (self, Ok n)
              | None => (self, Raise IndexError)
              end.

Definition _process_function (frames : Frames) : Py t unit :=
  self <- get ;;
  for_each (enumerate (crops self)) (fun '(i, crop) =>
    on_crop i crop (
      tracked <- Crop.track_markers DELTA frames ;;
      let '(blobs, positions, estimate_positions) := tracked in
      zoom Crop.marker_set Crop.with_marker_set (set_marker_pos positions)) ;;
    _ <- crops_name_getitem i ;;
    ret tt).

Definition send_process (frames : Frames) (order : Z) : Py t unit :=
  _process_function frames.

Definition send_and_receive_process (frames : Frames) (order : Z) : Py t unit :=
  send_process frames order.
End ProcessHandler.
End ProcessHandler.

(** ** The configuration read by the handlers

    One entry of [options['crops']] and the [tracking_option] dictionary,
    taken with the keys the constructors read. *)

Module CropOption.
Section CropOption.
Context `{C : Collaborators}.

Record t : Type := mk {
  name : string;
  area : area;
  filters : Filters;
}.
End CropOption.
End CropOption.

Module TrackingOption.
Record t : Type := mk {
  naive : bool;
  kalman : bool;
  optical_flow : bool;
}.
End TrackingOption.


(** ** [process_image/process_image.py] *)

Module ImageProcessingHandler.
Section ImageProcessingHandler.
Context `{C : Collaborators}.
Variable DELTA : Z.

Record t : Type := mk {
  crops : list Crop.t;
  crops_name : list string;
}.

Definition with_crops (v : list Crop.t) (self : t) : t :=
  mk v (crops_name self).

(** [ImageProcessingHandler(markers_sets, frames, options, tracking_option)],
    [options] being the list [options['crops']].  The object under
    construction is the state of the loop; when the loop raises, no object
    is built. *)
Definition __init__ (markers_sets : list MarkerSet) (frames : Frames)
    (options : list CropOption.t) (tracking_option : TrackingOption.t)
    : result t :=
  let '(self, outcome) :=
    for_each (range 0 (length markers_sets)) (fun i =>
      match markers_sets !! i, options !! i with
      | Some marker_set, Some option =>
          modify (fun self =>
            with_crops
              (crops self ++
               [Crop.__init__ (CropOption.area option) frames marker_set
                  (CropOption.filters option)
                  (TrackingOption.naive tracking_option)
                  (TrackingOption.optical_flow tracking_option)
                  (TrackingOption.kalman tracking_option)])
              self)
      | _, _ => raise IndexError
      end) (mk [] (CropOption.name <$> options)) in
  match outcome with
  | Ok _ => Ok self
  | Raise e => Raise e
  end.

Definition on_crop {A : Type} (i : nat) (crop : Crop.t) (m : Py Crop.t A)
    : Py t A :=
  fun self =>
    let '(crop', r) := m crop in
    (with_crops (<[i := crop']> (crops self)) self, r).

Definition crops_name_getitem (i : nat) : Py t string :=
  fun self => match crops_name self !! i with
              | Some n => (self, Ok n)
              | None => (self, Raise IndexError)
              end.

Definition _process_function (frames : Frames) : Py t unit :=
  self <- get ;;
  for_each (enumerate (crops self)) (fun '(i, crop) =>
    on_crop i crop (
      tracked <- Crop.track_markers DELTA frames ;;
      let '(blobs, positions, estimate_positions) := tracked in
      zoom Crop.marker_set Crop.with_marker_set (set_marker_pos positions) ;;
      print_estimated_positions estimate_positions) ;;
    _ <- crops_name_getitem i ;;
    ret tt).

Definition send_process (frames : Frames) (order : Z) : Py t unit :=
  _process_function frames.

Definition receive_process : Py t unit := ret tt.

Definition send_and_receive_process (frames : Frames) (order : Z) : Py t unit :=
  send_process frames order ;;
  receive_process.

Definition end_process : Py t unit := ret tt.
End ImageProcessingHandler.
End ImageProcessingHandler.

Module ProcessImage.
Section ProcessImage.
Context `{C : Collaborators}.
Variable DELTA : Z.

(** Outcome of [cv2.waitKey(1) == ord('q')] after the image of a given
    index has been shown. *)
Variable quit_pressed : Z -> bool.

(** The instance built with [shared=False]: the handler is an
    [ImageProcessingHandler]; its crops hold the marker sets and read the
    one [Frames] object owned by the [ProcessImage]. *)
Record t : Type := mk {
  path : string;
  start_index : Z;
  end_index : Z;
  index : Z;
  frames : Frames;
  process_handler : ImageProcessingHandler.t;
}.

Definition with_index (v : Z) (self : t) : t :=
  mk (path self) (start_index self) (end_index self) v (frames self)
     (process_handler self).
Definition with_frames (v : Frames) (self : t) : t :=
  mk (path self) (start_index self) (end_index self) (index self) v
     (process_handler self).
Definition with_process_handler (v : ImageProcessingHandler.t) (self : t) : t :=
  mk (path self) (start_index self) (end_index self) (index self) (frames self) v.

Definition marker_sets (self : t) : list MarkerSet :=
  Crop.marker_set <$> ImageProcessingHandler.crops (process_handler self).

(** [load_img(path, index)], a function of the module; an image that could
    not be read is [None] and is handed on as [None]. *)
Definition load_img (path : string) (index : Z) : option Image * option Image :=
  let color_file := (path +:+ "color_" +:+ pretty index +:+ ".png")%string in
  let depth_file := (path +:+ "depth_" +:+ pretty index +:+ ".png")%string in
  let color_image :=
    (fun img => cv2_flip img (-1)) <$> cv2_imread color_file COLOR_BGR2RGB in
  let depth_image :=
    (fun img => cv2_flip img (-1)) <$> cv2_imread depth_file IMREAD_ANYDEPTH in
  (color_image, depth_image).

Definition _load_img : Py t (option Image * option Image) :=
  self <- get ;;
  ret (load_img (path self) (index self)).

Definition _update_img (color depth : option Image) : Py t bool :=
  match color, depth with
  | Some c, Some d =>
      modify (fun self => with_frames (set_images c d (frames self)) self) ;;
      ret true
  | _, _ => ret false
  end.

Definition _process_after_loading : Py t bool :=
  loaded <- _load_img ;;
  let '(color, depth) := loaded in
  updated <- _update_img color depth ;;
  if negb updated then ret false
  else
    self <- get ;;
    zoom process_handler with_process_handler
      (ImageProcessingHandler.send_and_receive_process DELTA (frames self) 1) ;;
    ret true.

Definition _process_while_loading : Py t bool :=
  self <- get ;;
  zoom process_handler with_process_handler
    (ImageProcessingHandler.send_process DELTA (frames self) 1) ;;
  loaded <- _load_img ;;
  let '(color, depth) := loaded in
  zoom process_handler with_process_handler
    ImageProcessingHandler.receive_process ;;
  _update_img color depth.

(** One pass through the body of the [while] loop of [process]; the
    result is [false] when the loop is left by [break]. *)
Definition process_body : Py t bool :=
  modify (fun self => with_index (index self + 1)%Z self) ;;
  loaded <- _process_while_loading ;;
  if negb loaded then ret true
  else
    self <- get ;;
    ret (negb (quit_pressed (index self))).

(** The [while] loop, unrolled at most [fuel] times; the result tells
    whether the loop was left. *)
Fixpoint process_loop (fuel : nat) : Py t bool :=
  match fuel with
  | O => ret false
  | S fuel =>
      self <- get ;;
      if (index self =? end_index self)%Z then ret true
      else
        again <- process_body ;;
        if again then process_loop fuel else ret true
  end.

(** [process]; the timing averages it returns are not modelled, but the
    division by the number of images is. *)
Definition process (fuel : nat) : Py t (option unit) :=
  left <- process_loop fuel ;;
  if left then
    zoom process_handler with_process_handler ImageProcessingHandler.end_process ;;
    self <- get ;;
    let nb_img := (index self - start_index self)%Z in
    if (nb_img =? 0)%Z then raise ZeroDivisionError else ret (Some tt)
  else ret None.
End ProcessImage.
End ProcessImage.

(** ** [class CameraIntrinsics] of [camera/camera_converter.py] *)

Module CameraIntrinsics.
Section CameraIntrinsics.
(** The numbers of the configuration and of the camera, with the entries
    [0] and [1] of the matrix and what [np.array(..., dtype=float)] makes of
    [None]; the distortion models of [rs.distortion]. *)
Variable Num : Type.
Variables zero one nan : Num.
Variable Distortion : Type.
Variable inverse_brown_conrady : Distortion.

(** An [rs.intrinsics] object, as [set_intrinsics] reads it. *)
Record rs_intrinsics : Type := mk_rs {
  rs_width : nat;
  rs_height : nat;
  rs_ppx : Num;
  rs_ppy : Num;
  rs_fx : Num;
  rs_fy : Num;
  rs_coeffs : list Num;
  rs_model : Distortion;
}.

Record t : Type := mk {
  width : option nat;
  height : option nat;
  fx : option Num;
  fy : option Num;
  ppx : option Num;
  ppy : option Num;
  intrinsics_mat : option (list (list Num));
  model : option Distortion;
  dist_coefficients : option (list Num);
}.

Definition with_width (v : option nat) (self : t) : t :=
  mk v (height self) (fx self) (fy self) (ppx self) (ppy self)
     (intrinsics_mat self) (model self) (dist_coefficients self).
Definition with_height (v : option nat) (self : t) : t :=
  mk (width self) v (fx self) (fy self) (ppx self) (ppy self)
     (intrinsics_mat self) (model self) (dist_coefficients self).
Definition with_fx (v : option Num) (self : t) : t :=
  mk (width self) (height self) v (fy self) (ppx self) (ppy self)
     (intrinsics_mat self) (model self) (dist_coefficients self).
Definition with_fy (v : option Num) (self : t) : t :=
  mk (width self) (height self) (fx self) v (ppx self) (ppy self)
     (intrinsics_mat self) (model self) (dist_coefficients self).
Definition with_ppx (v : option Num) (self : t) : t :=
  mk (width self) (height self) (fx self) (fy self) v (ppy self)
     (intrinsics_mat self) (model self) (dist_coefficients self).
Definition with_ppy (v : option Num) (self : t) : t :=
  mk (width self) (height self) (fx self) (fy self) (ppx self) v
     (intrinsics_mat self) (model self) (dist_coefficients self).
Definition with_intrinsics_mat (v : option (list (list Num))) (self : t) : t :=
  mk (width self) (height self) (fx self) (fy self) (ppx self) (ppy self)
     v (model self) (dist_coefficients self).
Definition with_model (v : option Distortion) (self : t) : t :=
  mk (width self) (height self) (fx self) (fy self) (ppx self) (ppy self)
     (intrinsics_mat self) v (dist_coefficients self).
Definition with_dist_coefficients (v : option (list Num)) (self : t) : t :=
  mk (width self) (height self) (fx self) (fy self) (ppx self) (ppy self)
     (intrinsics_mat self) (model self) v.

Definition __init__ : t := mk None None None None None None None None None.

(** [l[i]] for a constant index [i] *)
Definition getitem {S A : Type} (l : list A) (i : nat) : Py S A :=
  match l !! i with
  | Some x => ret x
  | None => raise IndexError
  end.

Definition _set_intrinsics_mat : Py t unit :=
  modify (fun self =>
    with_intrinsics_mat
      (Some [[default nan (fx self); zero; default nan (ppx self)];
             [zero; default nan (fy self); default nan (ppx self)];
             [zero; zero; one]])
      self).

(** [depth_frame] is given by its [shape]. *)
Definition set_intrinsics_from_file (fx_fy ppx_ppy dist_coefficients : list Num)
    (depth_frame : list nat) : Py t unit :=
  v <- getitem depth_frame 1 ;;
  modify (with_height (Some v)) ;;
  v <- getitem depth_frame 0 ;;
  modify (with_width (Some v)) ;;
  v <- getitem fx_fy 0 ;;
  modify (with_fx (Some v)) ;;
  v <- getitem fx_fy 1 ;;
  modify (with_fy (Some v)) ;;
  v <- getitem ppx_ppy 0 ;;
  modify (with_ppx (Some v)) ;;
  v <- getitem ppx_ppy 1 ;;
  modify (with_ppy (Some v)) ;;
  modify (with_dist_coefficients (Some dist_coefficients)) ;;
  modify (with_model (Some inverse_brown_conrady)) ;;
  _set_intrinsics_mat.

Definition set_intrinsics (intrinsics : rs_intrinsics) : Py t unit :=
  modify (with_width (Some (rs_width intrinsics))) ;;
  modify (with_height (Some (rs_height intrinsics))) ;;
  modify (with_ppx (Some (rs_ppx intrinsics))) ;;
  modify (with_ppy (Some (rs_ppy intrinsics))) ;;
  modify (with_fx (Some (rs_fx intrinsics))) ;;
  modify (with_fy (Some (rs_fy intrinsics))) ;;
  modify (with_dist_coefficients (Some (rs_coeffs intrinsics))) ;;
  modify (with_model (Some (rs_model intrinsics))) ;;
  _set_intrinsics_mat.
End CameraIntrinsics.
End CameraIntrinsics.


(** ** [CameraConverter.get_markers_pos_in_meter] *)

Module CameraConverter.

(** The callables that can be passed as [method]; [==] on them is
    identity. *)
Inductive callable : Type :=
| RgbdImages_get_global_markers_pos
| RgbdImages_get_merged_global_markers_pos
| other_callable (id : nat).

Definition callable_eqb (a b : callable) : bool :=
  match a, b with
  | RgbdImages_get_global_markers_pos, RgbdImages_get_global_markers_pos => true
  | RgbdImages_get_merged_global_markers_pos,
    RgbdImages_get_merged_global_markers_pos => true
  | other_callable n, other_callable m => Nat.eqb n m
  | _, _ => false
  end.

Section CameraConverter.
(** Arrays of marker coordinates, marker names and occlusion flags. *)
Variables Array Names Occlusions : Type.

(** [method()], for the callable given. *)
Variable call : forall S : Type,
  callable -> Py S (Array * option Names * option Occlusions * Z).

(** [self._compute_markers(self.depth.get_intrinsics(self.model), _,
    rs.rs2_deproject_pixel_to_point)] *)
Variable deproject : forall S : Type, Array -> Py S Array.

Definition get_markers_pos_in_meter {S : Type}
    (marker_pos_in_pixel : option Array) (method : option callable)
    : Py S (Array * option Names * option Occlusions * Z) :=
  (match marker_pos_in_pixel, method with
   | None, None => raise ValueError
   | _, _ => ret tt
   end) ;;
  (match method with
   | Some m =>
       if callable_eqb RgbdImages_get_global_markers_pos m
          || callable_eqb RgbdImages_get_merged_global_markers_pos m
       then raise ValueError else ret tt
   | None => ret tt
   end) ;;
  got <-
    match marker_pos_in_pixel, method with
    | None, Some m => call S m
    | Some p, None => ret (p, None, None, 0%Z)
    | Some p, Some m =>
        r <- call S m ;;
        let '(_, markers_names, occlusions, reliability) := r in
        ret (p, markers_names, occlusions, reliability)
    | None, None => raise TypeError
    end ;;
  let '(marker_pos_in_pixel, markers_names, occlusions, reliability) := got in
  markers_in_meters <- deproject S marker_pos_in_pixel ;;
  ret (markers_in_meters, markers_names, occlusions, reliability).
End CameraConverter.

Section Intrinsics.
Variable Num : Type.
Variables zero one nan : Num.
Variable Distortion : Type.
Variable inverse_brown_conrady : Distortion.

(** [conf_data], taken with the keys [_set_intrinsics_from_file] reads. *)
Record conf_data : Type := mk_conf {
  depth_fx_fy : list Num;
  depth_ppx_ppy : list Num;
  color_fx_fy : list Num;
  color_ppx_ppy : list Num;
  dist_coeffs_color : list Num;
}.

(** The method bound to [self.set_intrinsics]. *)
Inductive setter : Type :=
| from_file
| from_pipeline.

Record t : Type := mk {
  depth : CameraIntrinsics.t Num Distortion;
  color : CameraIntrinsics.t Num Distortion;
  model : option Distortion;
  set_intrinsics : setter;
  depth_to_color : option unit;
}.

Definition with_depth (v : CameraIntrinsics.t Num Distortion) (self : t) : t :=
  mk v (color self) (model self) (set_intrinsics self) (depth_to_color self).
Definition with_color (v : CameraIntrinsics.t Num Distortion) (self : t) : t :=
  mk (depth self) v (model self) (set_intrinsics self) (depth_to_color self).

Definition __init__ (use_camera : bool) (model : option Distortion) : t :=
  {| depth := CameraIntrinsics.__init__ Num Distortion;
     color := CameraIntrinsics.__init__ Num Distortion;
     model := model;
     set_intrinsics := if use_camera then from_pipeline else from_file;
     depth_to_color := None |}.

Definition _set_intrinsics_from_file (conf : conf_data) (depth_frame : list nat)
    : Py t unit :=
  zoom depth with_depth
    (CameraIntrinsics.set_intrinsics_from_file Num zero one nan Distortion
       inverse_brown_conrady
       (depth_fx_fy conf) (depth_ppx_ppy conf) (dist_coeffs_color conf)
       depth_frame) ;;
  zoom color with_color
    (CameraIntrinsics.set_intrinsics_from_file Num zero one nan Distortion
       inverse_brown_conrady
       (color_fx_fy conf) (color_ppx_ppy conf) (dist_coeffs_color conf)
       depth_frame).

(** [_intrinsics] is what the depth stream of the pipeline reports. *)
Definition _set_intrinsics_from_pipeline
    (_intrinsics : CameraIntrinsics.rs_intrinsics Num Distortion) : Py t unit :=
  zoom depth with_depth
    (CameraIntrinsics.set_intrinsics Num zero one nan Distortion _intrinsics) ;;
  zoom color with_color
    (CameraIntrinsics.set_intrinsics Num zero one nan Distortion _intrinsics).
End Intrinsics.
End CameraConverter.

(** ** A recording instance of the collaborators

    Used to run the model on concrete inputs: the Kalman filter records the
    steps applied to it, an image is represented by the blob centres the
    detector finds in it, the optical flow reports every point where it was
    seeded, and the file [directory/color_2.png] cannot be read. *)

Inductive KalmanStep : Type :=
| Predicted
| Corrected (measurement : coord).

Definition last_measurement (k : list KalmanStep) : coord :=
  foldl (fun acc s => match s with Corrected p => p | Predicted => acc end)
        (0, 0)%Z k.

#[local] Instance recording : Collaborators := {|
  Image := list coord;
  Kalman := list KalmanStep;
  kalman_predict k := (k ++ [Predicted], last_measurement k);
  kalman_correct k p := k ++ [Corrected p];
  Flow := list coord;
  Flow_init _ points := points;
  Flow_get_optical_flow_pos flow _ := flow;
  Flow_getitem flow i := (default (0, 0)%Z (flow !! i), 1%Z);
  Filters := unit;
  crop_image _ img := img;
  detect_blobs _ img := img;
  cv2_imread file _ :=
    if String.eqb file "directory/color_2.png" then None else Some [(12, 11)%Z];
  cv2_flip img _ := img;
|}.

Definition marker_at (n : string) (p : coord) (static : bool) : @Marker recording :=
  {| name := n; pos := p; is_static := static; kalman_state := [] |}.

Definition one_marker_set (p : coord) (static : bool) : @MarkerSet recording :=
  {| set_name := "crop"; markers := [marker_at "a" p static]; offset := (0, 0)%Z |}.

Definition frame_of (blobs : list coord) : @Frames recording :=
  {| color := blobs; depth := []; width := 100; height := 100 |}.

(** One non-static marker at (10, 10), naive estimator only. *)
Definition naive_tracker : @Tracker.t recording :=
  Tracker.__init__ (frame_of []) (one_marker_set (10, 10)%Z false) true false false.

(** One static marker at (10, 10), naive estimator only. *)
Definition static_tracker : @Tracker.t recording :=
  Tracker.__init__ (frame_of []) (one_marker_set (10, 10)%Z true) true false false.

(** Two non-static markers at (48, 50) and (52, 50), naive estimator only:
    a blob at (50, 50) is at the same distance from both. *)
Definition two_marker_tracker : @Tracker.t recording :=
  Tracker.__init__ (frame_of [])
    {| set_name := "crop";
       markers := [marker_at "A" (48, 50)%Z false; marker_at "B" (52, 50)%Z false];
       offset := (0, 0)%Z |}
    true false false.

(** Three non-static markers at (47, 50), (50, 51) and (50, 45), naive
    estimator only: a blob at (50, 50) is the nearest blob of all three, at
    squared distances 9, 1 and 25. *)
Definition three_marker_tracker : @Tracker.t recording :=
  Tracker.__init__ (frame_of [])
    {| set_name := "crop";
       markers := [marker_at "A" (47, 50)%Z false; marker_at "B" (50, 51)%Z false;
                   marker_at "C" (50, 45)%Z false];
       offset := (0, 0)%Z |}
    true false false.

(** A [ProcessImage] about to load index [2], for which the loader has no
    image; the frame it holds shows a blob at (12, 11), and its only crop
    tracks one non-static marker stored at (10, 10), naive estimator
    only. *)
Definition stalled : @ProcessImage.t recording :=
  {| ProcessImage.path := "directory/";
     ProcessImage.start_index := 0;
     ProcessImage.end_index := 5;
     ProcessImage.index := 1;
     ProcessImage.frames := frame_of [(12, 11)%Z];
     ProcessImage.process_handler :=
       {| ImageProcessingHandler.crops :=
            [Crop.__init__ (0, 0, 100, 100)%Z (frame_of [(12, 11)%Z])
               (one_marker_set (10, 10)%Z false) tt true false false];
          ImageProcessingHandler.crops_name := ["crop"%string] |} |}.

(** [naive_tracker] as it enters the correction loop when no blob was
    found. *)
Definition unmatched : @Tracker.t recording :=
  {| Tracker.marker_set := one_marker_set (10, 10)%Z false;
     Tracker.optical_flow := None;
     Tracker.kalman := false;
     Tracker.naive := true;
     Tracker.blobs := Some [];
     Tracker.positions := [Empty];
     Tracker.estimated_positions := [Some [mkPosition (10, 10)%Z false]] |}.

(** The example of the specification: merged positions both at (50, 50),
    stored positions (48, 49) and (10, 10). *)
Definition contested : @Tracker.t recording :=
  {| Tracker.marker_set :=
       {| set_name := "crop";
          markers := [marker_at "A" (48, 49)%Z false; marker_at "B" (10, 10)%Z false];
          offset := (0, 0)%Z |};
     Tracker.optical_flow := None;
     Tracker.kalman := false;
     Tracker.naive := true;
     Tracker.blobs := Some [(50, 50)%Z];
     Tracker.positions :=
       [Valid (mkPosition (50, 50)%Z true); Valid (mkPosition (50, 50)%Z true)];
     Tracker.estimated_positions := [Some []; Some []] |}.

(** [naive_tracker] with merged positions that differ: (50, 50) and
    (60, 60). *)
Definition apart : @Tracker.t recording :=
  {| Tracker.marker_set :=
       {| set_name := "crop";
          markers := [marker_at "A" (48, 49)%Z false; marker_at "B" (10, 10)%Z false];
          offset := (0, 0)%Z |};
     Tracker.optical_flow := None;
     Tracker.kalman := false;
     Tracker.naive := true;
     Tracker.blobs := Some [(50, 50)%Z; (60, 60)%Z];
     Tracker.positions :=
       [Valid (mkPosition (50, 50)%Z true); Valid (mkPosition (60, 60)%Z true)];
     Tracker.estimated_positions := [Some []; Some []] |}.

(** One non-static marker at (10, 10) and no estimator enabled. *)
Definition blind_tracker : @Tracker.t recording :=
  Tracker.__init__ (frame_of []) (one_marker_set (10, 10)%Z false) false false false.

(** The collaborators of [recording] with an optical flow that has lost
    every point: the status it reports is 0. *)
Definition lost_flow : Collaborators := {|
  Image := list coord;
  Kalman := list KalmanStep;
  kalman_predict k := (k ++ [Predicted], last_measurement k);
  kalman_correct k p := k ++ [Corrected p];
  Flow := list coord;
  Flow_init _ points := points;
  Flow_get_optical_flow_pos flow _ := flow;
  Flow_getitem flow i := (default (0, 0)%Z (flow !! i), 0%Z);
  Filters := unit;
  crop_image _ img := img;
  detect_blobs _ img := img;
  cv2_imread file _ := Some [(12, 11)%Z];
  cv2_flip img _ := img;
|}.

(** One non-static marker at (10, 10), tracked by the naive and the
    optical-flow estimators, the flow being lost. *)
Definition lost_flow_tracker : @Tracker.t lost_flow :=
  @Tracker.__init__ lost_flow
    (@mkFrames lost_flow [] [] 100%Z 100%Z)
    (@mkMarkerSet lost_flow "crop"
       [@mkMarker lost_flow "a" (10, 10)%Z false []] (0, 0)%Z)
    true true false.

(** [static_tracker] after one tick and the write-back of its result. *)
Definition static_tracker_later : @Tracker.t recording :=
  let ticked := (Tracker.track 8 (frame_of [(12, 11)%Z]) [(12, 11)%Z] static_tracker).1 in
  Tracker.with_marker_set
    (set_marker_pos (Tracker.positions ticked) (Tracker.marker_set ticked)).1
    ticked.

(** [stalled] with its index past [end_index]. *)
Definition overrun : @ProcessImage.t recording := ProcessImage.with_index 6 stalled.

(** A [ProcessImage] as built for a configuration whose [start_index] and
    [end_index] are both 5. *)
Definition empty_run : @ProcessImage.t recording :=
  {| ProcessImage.path := "directory/";
     ProcessImage.start_index := 5;
     ProcessImage.end_index := 5;
     ProcessImage.index := 5;
     ProcessImage.frames := frame_of [(12, 11)%Z];
     ProcessImage.process_handler := ProcessImage.process_handler stalled |}.

(** An image handler with two crops, the first one holding a static
    marker. *)
Definition static_first : @ImageProcessingHandler.t recording :=
  {| ImageProcessingHandler.crops :=
       [Crop.__init__ (0, 0, 100, 100)%Z (frame_of [(12, 11)%Z])
          (one_marker_set (10, 10)%Z true) tt true false false;
        Crop.__init__ (0, 0, 100, 100)%Z (frame_of [(12, 11)%Z])
          (one_marker_set (10, 10)%Z false) tt true false false];
     ImageProcessingHandler.crops_name := ["first"%string; "second"%string] |}.

(** A configuration of the camera, and one whose [color_fx_fy] lacks its
    second number; they hold integers, [None] stands for the number that is
    not one. *)
Definition sample_conf : CameraConverter.conf_data (option Z) :=
  {| CameraConverter.depth_fx_fy := [Some 420; Some 421]%Z;
     CameraConverter.depth_ppx_ppy := [Some 320; Some 240]%Z;
     CameraConverter.color_fx_fy := [Some 610; Some 611]%Z;
     CameraConverter.color_ppx_ppy := [Some 322; Some 242]%Z;
     CameraConverter.dist_coeffs_color := [Some 1; Some 2; Some 3; Some 4; Some 5]%Z |}.

Definition short_conf : CameraConverter.conf_data (option Z) :=
  {| CameraConverter.depth_fx_fy := [Some 420; Some 421]%Z;
     CameraConverter.depth_ppx_ppy := [Some 320; Some 240]%Z;
     CameraConverter.color_fx_fy := [Some 610]%Z;
     CameraConverter.color_ppx_ppy := [Some 322; Some 242]%Z;
     CameraConverter.dist_coeffs_color := [Some 1; Some 2; Some 3; Some 4; Some 5]%Z |}.

(** The converter built by [CameraConverter()], its distortion models named
    by strings. *)
Definition fresh_converter : CameraConverter.t (option Z) string :=
  CameraConverter.__init__ (option Z) string false None.


(** Two coinciding pairs that do not meet: merged positions (50, 50),
    (50, 50), (80, 80) and (80, 80), stored positions (48, 49), (10, 10),
    (79, 80) and (20, 20). *)
Definition two_pairs : @Tracker.t recording :=
  {| Tracker.marker_set :=
       {| set_name := "crop";
          markers := [marker_at "A" (48, 49)%Z false; marker_at "B" (10, 10)%Z false;
                      marker_at "C" (79, 80)%Z false; marker_at "D" (20, 20)%Z false];
          offset := (0, 0)%Z |};
     Tracker.optical_flow := None;
     Tracker.kalman := false;
     Tracker.naive := true;
     Tracker.blobs := Some [(50, 50)%Z; (80, 80)%Z];
     Tracker.positions :=
       [Valid (mkPosition (50, 50)%Z true); Valid (mkPosition (50, 50)%Z true);
        Valid (mkPosition (80, 80)%Z true); Valid (mkPosition (80, 80)%Z true)];
     Tracker.estimated_positions := [Some []; Some []; Some []; Some []] |}.

(** The handler of [processing/process_handler.py] over the crops of
    [stalled], and over a crop that holds a static marker. *)
Definition plain_handler : @ProcessHandler.t recording :=
  {| ProcessHandler.crops :=
       [Crop.__init__ (0, 0, 100, 100)%Z (frame_of [(12, 11)%Z])
          (one_marker_set (10, 10)%Z false) tt true false false;
        Crop.__init__ (0, 0, 100, 100)%Z (frame_of [(12, 11)%Z])
          (one_marker_set (14, 14)%Z true) tt true false false];
     ProcessHandler.crops_name := ["first"%string; "second"%string] |}.

(** ** Loop-free descriptions used in the statements *)

(** [m] run from [s] returns normally, in a state and with a value that
    satisfy [Q]. *)
Definition returns {S A : Type} (m : Py S A) (s : S) (Q : S -> A -> Prop) : Prop :=
  exists s' a, m s = (s', Ok a) /\ Q s' a.

Section Descriptions.
Context `{C : Collaborators}.

(** What [set_marker_pos] writes into one marker. *)
Definition write_back_marker (m : Marker) (p : Merged) : Marker :=
  match p with
  | Empty => m
  | Valid q => with_pos (position q) m
  end.

Definition write_back (positions : list Merged) (ms : MarkerSet) : MarkerSet :=
  with_markers (zip_with write_back_marker (markers ms) positions) ms.

(** The diagnostics entries contributed by one estimator anchored at
    [anchor]: the reference entry, then the matched blob if there is
    one. *)
Definition near (DELTA : Z) (anchor : coord) (bl : list coord) : list Position :=
  mkPosition anchor false ::
  (if (find_closest_blob anchor bl DELTA).2
   then [mkPosition (find_closest_blob anchor bl DELTA).1 true]
   else []).

(** The diagnostics list of a non-static marker after [_track_marker]. *)
Definition candidates (DELTA : Z) (naive : bool) (flow : option Flow)
    (kalman : bool) (bl : list coord) (index : nat) (marker : Marker)
    : list Position :=
  (if naive then near DELTA (pos marker) bl else []) ++
  (match flow with
   | Some f =>
       if ((Flow_getitem f index).2 =? 1)%Z
       then near DELTA (Flow_getitem f index).1 bl
       else []
   | None => []
   end) ++
  (if kalman then near DELTA (predict_from_kalman marker).2 bl else []).

(** A marker after the estimation pass: only the predict step of an
    enabled Kalman estimator has touched a non-static marker. *)
Definition predicted (kalman : bool) (marker : Marker) : Marker :=
  if is_static marker then marker
  else if kalman then (predict_from_kalman marker).1
  else marker.

(** A marker after the correction loop that ends [track]. *)
Definition corrected (p : Merged) (marker : Marker) : Marker :=
  match p with
  | Empty => marker
  | Valid q => correct_from_kalman (position q) marker
  end.

(** An entry of [positions] after [check_bounds]. *)
Definition bounded (frame : Frames) (p : Merged) : Merged :=
  match p with
  | Empty => Empty
  | Valid q =>
      Valid (Position_check_bounds (width frame - 1) (height frame - 1) q)
  end.

(** The optical-flow adapter after [get_optical_flow_pos]. *)
Definition flow_updated (frame : Frames) (flow : option Flow) : option Flow :=
  match flow with
  | Some f => Some (Flow_get_optical_flow_pos f (color frame))
  | None => None
  end.

(** The test of [check_tracking] on a pair of entries. *)
Definition overlapping (a b : Merged) : bool :=
  Position_eq a b && not_empty a.

(** The body of the inner loop of [check_tracking]. *)
Definition check_pair (i j : nat) : Py Tracker.t unit :=
  pi <- Tracker.positions_getitem i ;;
  pj <- Tracker.positions_getitem j ;;
  if Position_eq pi pj && not_empty pi
  then Tracker._correct_overlapping i j
  else ret tt.

(** An entry whose coordinates are put back to the marker's stored
    position. *)
Definition reverted (m : Marker) (p : Position) : Merged :=
  Valid (mkPosition (pos m) (visibility p)).

(** The positions after [_correct_overlapping(i, j)]. *)
Definition resolved (ms : MarkerSet) (ps : list Merged) (i j : nat)
    : list Merged :=
  match ps !! i, ps !! j, markers ms !! i, markers ms !! j with
  | Some (Valid pi), Some (Valid pj), Some mi, Some mj =>
      if (distance_from_marker pi mi <? distance_from_marker pj mj)%Z
      then <[j := reverted mj pj]> ps
      else <[i := reverted mi pi]> ps
  | _, _, _, _ => ps
  end.

(** No pair of entries other than [(i, j)] passes the test of
    [check_tracking]. *)
Definition sole_overlap (ps : list Merged) (i j : nat) : bool :=
  forallb (fun a =>
    forallb (fun b =>
      bool_decide (a = i /\ b = j) ||
      match ps !! a, ps !! b with
      | Some pa, Some pb => negb (overlapping pa pb)
      | _, _ => true
      end)
    (range (a + 1) (length ps)))
  (range 0 (length ps)).

(** Entries are [Empty] at the same indices. *)
Definition same_shape (ps ps' : list Merged) : Prop :=
  length ps' = length ps /\
  forall i, ps' !! i = Some Empty <-> ps !! i = Some Empty.

(** The [ProcessImage] once [process] has advanced the index. *)
Definition advanced (self : ProcessImage.t) : ProcessImage.t :=
  ProcessImage.with_index (ProcessImage.index self + 1)%Z self.

(** The trackers a program can hold: built by the constructor, then driven
    by [track] and by [set_marker_pos] on the marker set, whatever their
    outcome. *)
Inductive reachable (DELTA : Z) : Tracker.t -> Prop :=
| reachable_init frame ms naive optical_flow kalman :
    reachable DELTA (Tracker.__init__ frame ms naive optical_flow kalman)
| reachable_track self frame blobs self' outcome :
    reachable DELTA self ->
    Tracker.track DELTA frame blobs self = (self', outcome) ->
    reachable DELTA self'
| reachable_set_marker_pos self positions ms' outcome :
    reachable DELTA self ->
    set_marker_pos positions (Tracker.marker_set self) = (ms', outcome) ->
    reachable DELTA (Tracker.with_marker_set ms' self).

(** The constructor's invariant: one diagnostics slot per marker. *)
Definition aligned (self : Tracker.t) : Prop :=
  length (Tracker.estimated_positions self)
  = length (markers (Tracker.marker_set self)).
End Descriptions.

(** ** Further descriptions *)

Section MoreDescriptions.
Context `{C : Collaborators}.

(** No pair of entries passes the test of [check_tracking]. *)
Definition no_overlap (ps : list Merged) : bool :=
  forallb (fun a =>
    forallb (fun b =>
      match ps !! a, ps !! b with
      | Some pa, Some pb => negb (overlapping pa pb)
      | _, _ => true
      end)
    (range (a + 1) (length ps)))
  (range 0 (length ps)).

(** An entry of [positions] after [check_tracking], against the entry
    before it and the marker of the same index: left as it was, or put back
    to the stored position of the marker with its visibility kept. *)
Definition kept_or_reverted (m : option Marker) (before after : option Merged)
    : Prop :=
  after = before \/
  exists p m', before = Some (Valid p) /\ m = Some m' /\
               after = Some (reverted m' p).

(** A position that lies in the frame. *)
Definition inside (frame : Frames) (p : Position) : Prop :=
  (0 <= (position p).1 <= width frame - 1)%Z /\
  (0 <= (position p).2 <= height frame - 1)%Z.

(** What a tick leaves as the stored position of a marker: the returned
    position, or the stored position when nothing was returned. *)
Definition stored_after (m : Marker) (returned : option Merged) : coord :=
  match returned with
  | Some (Valid p) => position p
  | _ => pos m
  end.
End MoreDescriptions.

Section PairDescriptions.
Context `{C : Collaborators}.

(** The coordinates of an entry of [positions]. *)
Definition coords_of (e : option Merged) : list coord :=
  match e with
  | Some (Valid p) => [position p]
  | _ => []
  end.

(** The coordinates entry [k] can have while [check_tracking] runs: those
    of its merged position and those of the stored position of its marker,
    the only ones it is ever put back to. *)
Definition possible_coords (ms : MarkerSet) (ps : list Merged) (k : nat)
    : list coord :=
  match ps !! k with
  | Some (Valid p) =>
      position p :: match markers ms !! k with
                    | Some m => [pos m]
                    | None => []
                    end
  | _ => []
  end.

(** The coordinates of the entries [i] and [j], before and after
    [_correct_overlapping(i, j)]. *)
Definition pair_coords (ms : MarkerSet) (ps : list Merged) (i j : nat)
    : list coord :=
  coords_of (ps !! i) ++ coords_of (ps !! j) ++
  coords_of (resolved ms ps i j !! i) ++ coords_of (resolved ms ps i j !! j).

(** No third entry can coincide with an entry of the pair [(i, j)]:
    neither its merged position nor the stored position of its marker is
    at the coordinates the entries [i] and [j] have before or after the pair
    is resolved. *)
Definition isolated_pair (ms : MarkerSet) (ps : list Merged) (i j : nat) : bool :=
  forallb (fun k =>
    bool_decide (k = i) || bool_decide (k = j) ||
    forallb (fun c =>
      forallb (fun d => negb (coord_eqb c d)) (pair_coords ms ps i j))
      (possible_coords ms ps k))
  (range 0 (length ps)).

(** Whether the pair [(i, j)] has been examined when [check_tracking] is
    about to examine the pair [(a, b)]. *)
Definition examined (i j a b : nat) : bool :=
  (i <? a)%nat || ((a =? i)%nat && (j <? b)%nat).
End PairDescriptions.


Section StaticDescriptions.
Context `{C : Collaborators}.

(** The diagnostics slot of every static marker is still the [None] the
    constructor put there. *)
Definition static_slots_unset (self : Tracker.t) : Prop :=
  forall i m, markers (Tracker.marker_set self) !! i = Some m ->
    is_static m = true ->
    Tracker.estimated_positions self !! i = Some None.
End StaticDescriptions.



Section HandlerDescriptions.
Context `{C : Collaborators}.
Variable DELTA : Z.

(** One crop after one pass of a handler: its tracker has run [track] on
    the blobs of its region of the frame, and the returned positions have
    been written back into its marker set. *)
Definition crop_pass (frames : Frames) (crop : Crop.t) : Crop.t :=
  let frame := Crop.crop_frames (Crop.region crop) frames in
  let blobs := detect_blobs (Crop.filters crop) (color frame) in
  let ticked := (Tracker.track DELTA frame blobs (Crop.tracker crop)).1 in
  Crop.with_tracker
    (Tracker.with_marker_set
       (write_back (Tracker.positions ticked) (Tracker.marker_set ticked))
       ticked)
    crop.

(** A crop the image handler can draw: one diagnostics slot per marker and
    no static marker. *)
Definition drawable (crop : Crop.t) : Prop :=
  aligned (Crop.tracker crop) /\
  Forall (fun m => is_static m = false) (markers (Crop.marker_set crop)).

(** The crop the constructors build from a marker set and its option. *)
Definition crop_of (frames : Frames) (tracking_option : TrackingOption.t)
    (marker_set : MarkerSet) (option : CropOption.t) : Crop.t :=
  Crop.__init__ (CropOption.area option) frames marker_set
    (CropOption.filters option)
    (TrackingOption.naive tracking_option)
    (TrackingOption.optical_flow tracking_option)
    (TrackingOption.kalman tracking_option).
End HandlerDescriptions.


(** * Properties *)

(** ** The monad *)

Section PyFacts.
Context {S : Type}.

Lemma bind_ret_tt (m : Py S unit) (s : S) : (m ;; ret tt) s = m s.
Proof.
  unfold bind, ret. destruct (m s) as [s' [[]|e]]; reflexivity.
Qed.

Lemma bind_ok {A B} (m : Py S A) (k : A -> Py S B) (s s' : S) (a : A) :
  m s = (s', Ok a) -> bind m k s = k a s'.
Proof. intros H. unfold bind. rewrite H. reflexivity. Qed.

Lemma bind_raise {A B} (m : Py S A) (k : A -> Py S B) (s s' : S) (e : exn) :
  m s = (s', Raise e) -> bind m k s = (s', Raise e).
Proof. intros H. unfold bind. rewrite H. reflexivity. Qed.

Lemma returns_ret {A} (a : A) (s : S) (Q : S -> A -> Prop) :
  Q s a -> returns (ret a) s Q.
Proof. intros H. exists s, a. split; [reflexivity | exact H]. Qed.

Lemma returns_bind {A B} (m : Py S A) (k : A -> Py S B) (s : S)
    (Q : S -> B -> Prop) :
  returns m s (fun s' a => returns (k a) s' Q) -> returns (bind m k) s Q.
Proof.
  intros (s' & a & Hm & s'' & b & Hk & HQ).
  exists s'', b. split; [| exact HQ].
  unfold bind. rewrite Hm. exact Hk.
Qed.

Lemma returns_mono {A} (m : Py S A) (s : S) (P Q : S -> A -> Prop) :
  returns m s P -> (forall s' a, P s' a -> Q s' a) -> returns m s Q.
Proof. intros (s' & a & Hm & HP) HPQ. exists s', a. auto. Qed.

Lemma returns_modify (f : S -> S) (s : S) (Q : S -> unit -> Prop) :
  Q (f s) tt -> returns (modify f) s Q.
Proof. intros H. exists (f s), tt. split; [reflexivity | exact H]. Qed.

Lemma returns_eq {A} (m : Py S A) (s s' : S) (a : A) (Q : S -> A -> Prop) :
  m s = (s', Ok a) -> Q s' a -> returns m s Q.
Proof. intros Hm HQ. exists s', a. auto. Qed.

(** Loop rule: the invariant is indexed by the number of iterations
    already done. *)
Lemma returns_for_each {A} (l : list A) (body : A -> Py S unit)
    (I : nat -> S -> Prop) (s : S) :
  I 0%nat s ->
  (forall n x s, l !! n = Some x -> I n s ->
                 returns (body x) s (fun s' _ => I (Datatypes.S n) s')) ->
  returns (for_each l body) s (fun s' _ => I (length l) s').
Proof.
  revert I s. induction l as [|x l IH]; intros I s H0 Hstep.
  - apply returns_ret. exact H0.
  - simpl. apply returns_bind.
    eapply returns_mono; [exact (Hstep 0%nat x s eq_refl H0) |].
    intros s' u H1.
    apply (IH (fun n => I (Datatypes.S n))); [exact H1 |].
    intros n y s1 Hy. exact (Hstep (Datatypes.S n) y s1 Hy).
Qed.

Lemma for_each_app {A} (l1 l2 : list A) (body : A -> Py S unit) (s : S) :
  for_each (l1 ++ l2) body s = (for_each l1 body ;; for_each l2 body) s.
Proof.
  revert s. induction l1 as [|x l1 IH]; intros s.
  - reflexivity.
  - simpl. unfold bind. destruct (body x s) as [s' [[]|e]].
    + rewrite IH. reflexivity.
    + reflexivity.
Qed.

(** A loop whose every pass leaves the state as it is. *)
Lemma for_each_skip {A} (l : list A) (body : A -> Py S unit) (s : S) :
  (forall x, x ∈ l -> body x s = (s, Ok tt)) ->
  for_each l body s = (s, Ok tt).
Proof.
  induction l as [|x l IH]; intros H.
  - reflexivity.
  - simpl. unfold bind. rewrite (H x) by apply list_elem_of_here.
    apply IH. intros y Hy. apply H. apply list_elem_of_further. exact Hy.
Qed.
End PyFacts.

Lemma enumerate_lookup_inv {A} (l : list A) (n : nat) (p : nat * A) :
  enumerate l !! n = Some p -> p.1 = n /\ l !! n = Some p.2.
Proof.
  unfold enumerate. intros H. apply lookup_zip_with_Some in H.
  destruct H as (i & x & -> & Hi & Hx). apply lookup_seq in Hi.
  destruct Hi as [-> _]. simpl. auto.
Qed.

Lemma length_enumerate {A} (l : list A) : length (enumerate l) = length l.
Proof.
  unfold enumerate. rewrite length_zip_with, length_seq. lia.
Qed.

Lemma lookup_range (a b n i : nat) :
  range a b !! n = Some i <-> i = (a + n)%nat /\ (a + n < b)%nat.
Proof. unfold range. rewrite lookup_seq. lia. Qed.

Lemma length_range (a b : nat) : length (range a b) = (b - a)%nat.
Proof. unfold range. apply length_seq. Qed.

(** ** Merging the candidates of a marker *)

Lemma coord_add_assoc (a b c : coord) :
  coord_add (coord_add a b) c = coord_add a (coord_add b c).
Proof. unfold coord_add. simpl. f_equal; lia. Qed.

Lemma coord_add_0_r (a : coord) : coord_add a (0, 0)%Z = a.
Proof. destruct a as [x y]. unfold coord_add. simpl. f_equal; lia. Qed.

Lemma _merge_loop_spec (l : list Position) (acc : coord) (n : Z) :
  _merge_loop l acc n =
    (coord_add acc (coord_sum (visible_candidates l)),
     (n + Z.of_nat (length (visible_candidates l)))%Z).
Proof.
  revert acc n. induction l as [|p l IH]; intros acc n.
  - simpl. rewrite coord_add_0_r. f_equal. lia.
  - simpl. unfold visible_candidates. rewrite filter_cons.
    destruct (visibility p) eqn:Hv.
    + rewrite decide_True by reflexivity. rewrite IH.
      rewrite fmap_cons. simpl. rewrite coord_add_assoc.
      f_equal. unfold visible_candidates. lia.
    + rewrite decide_False by discriminate. apply IH.
Qed.

Lemma coord_add_0_l (a : coord) : coord_add (0, 0)%Z a = a.
Proof. destruct a as [x y]. reflexivity. Qed.

Lemma _merge_positions_spec (l : list Position) :
  _merge_positions (Some l) = spec_merge l.
Proof.
  unfold spec_merge. destruct l as [|p l]; [reflexivity |].
  unfold _merge_positions. rewrite _merge_loop_spec, coord_add_0_l.
  rewrite Z.add_0_l.
  destruct (visible_candidates (p :: l)) as [|c v] eqn:Hvis; [reflexivity |].
  change (length (c :: v)) with (Datatypes.S (length v)).
  destruct (Z.eqb_spec (Z.of_nat (Datatypes.S (length v))) 0) as [H0|_]; [lia |].
  destruct (Z.ltb_spec 0 (Z.of_nat (Datatypes.S (length v)))) as [_|H0]; [| lia].
  reflexivity.
Qed.

(** C4.  For every candidate list, [_merge_positions] returns the
    coordinate-wise (integer, floor) average of the coordinates of exactly
    the candidates whose visibility is true, with visibility true, and
    [Empty] when no candidate is visible ([spec_merge]); merging a single
    visible candidate returns that candidate's coordinates with visibility
    true. *)
Theorem merge_is_average_of_visible :
  (forall l : list Position, _merge_positions (Some l) = spec_merge l) /\
  (forall c : coord,
     _merge_positions (Some [mkPosition c true]) = Valid (mkPosition c true)) /\
  (forall (c : coord) (before after : list coord),
     _merge_positions
       (Some (((fun a => mkPosition a false) <$> before)
              ++ mkPosition c true :: ((fun a => mkPosition a false) <$> after)))
     = Valid (mkPosition c true)).
Proof.
  split; [exact _merge_positions_spec |]. split.
  - intros [x y]. rewrite _merge_positions_spec.
    unfold spec_merge, visible_candidates. simpl.
    unfold average, coord_floordiv. simpl. rewrite !Z.div_1_r, !Z.add_0_r.
    reflexivity.
  - intros [x y] before after. rewrite _merge_positions_spec.
    unfold spec_merge, visible_candidates.
    rewrite filter_app, filter_cons. simpl.
    assert (Hnone : forall l : list coord,
      filter (fun p => visibility p = true) ((fun a => mkPosition a false) <$> l) = []).
    { induction l as [|a l IH]; [reflexivity |].
      rewrite fmap_cons, filter_cons. simpl. exact IH. }
    rewrite !Hnone. simpl.
    unfold average, coord_floordiv. simpl. rewrite !Z.div_1_r, !Z.add_0_r.
    reflexivity.
Qed.

(** ** Writing the tracked positions back into the marker set *)

Section SetMarkerPos.
Context `{C : Collaborators}.

Lemma set_marker_pos_agree (positions : list Merged) (ms : MarkerSet) :
  length (markers ms) = length positions ->
  set_marker_pos positions ms = (write_back positions ms, Ok tt).
Proof.
  intros Hlen. unfold set_marker_pos, bind at 1, get.
  rewrite decide_True by exact Hlen.
  pose (I := fun (n : nat) (s : MarkerSet) =>
    exists l, s = with_markers l ms /\ length l = length (markers ms) /\
      forall i, l !! i =
        if decide (i < n)%nat
        then zip_with write_back_marker (markers ms) positions !! i
        else markers ms !! i).
  assert (H0 : I 0%nat ms).
  { exists (markers ms). split; [destruct ms; reflexivity |].
    split; [reflexivity |]. intros i. rewrite decide_False by lia. reflexivity. }
  match goal with
  | |- for_each ?l ?body ms = _ =>
      pose proof (returns_for_each l body I ms H0) as Hloop
  end.
  destruct Hloop as (s' & [] & Heq & l & -> & Hl & Hlook).
  - intros n i s Hi (l & -> & Hl & Hlook).
    apply lookup_range in Hi. destruct Hi as [-> Hn]. simpl in Hn |- *.
    destruct (lookup_lt_is_Some_2 positions n Hn) as [p Hp]. rewrite Hp.
    assert (Hnm : (n < length (markers ms))%nat) by lia.
    destruct (lookup_lt_is_Some_2 _ n Hnm) as [m Hm].
    assert (Hln : l !! n = Some m).
    { rewrite Hlook, decide_False by lia. exact Hm. }
    assert (Hzip : zip_with write_back_marker (markers ms) positions !! n
                   = Some (write_back_marker m p)).
    { apply lookup_zip_with_Some. eauto. }
    destruct p as [|q].
    + apply returns_ret. exists l. split; [reflexivity |]. split; [exact Hl |].
      intros i. specialize (Hlook i).
      destruct (decide (i < Datatypes.S n)%nat) as [Hlt|Hge].
      * destruct (decide (i = n)) as [->|Hne].
        -- rewrite Hzip, Hln. reflexivity.
        -- rewrite Hlook, decide_True by lia. reflexivity.
      * rewrite Hlook, decide_False by lia. reflexivity.
    + unfold MarkerSet_set_pos. apply returns_bind.
      eapply returns_eq.
      { unfold MarkerSet_getitem. simpl. rewrite Hln. reflexivity. }
      apply returns_modify. simpl.
      exists (<[n := with_pos (position q) m]> l).
      split; [reflexivity |]. split; [rewrite length_insert; exact Hl |].
      intros i. specialize (Hlook i).
      destruct (decide (i = n)) as [->|Hne].
      * rewrite list_lookup_insert_eq by lia.
        rewrite decide_True by lia. rewrite Hzip. reflexivity.
      * rewrite list_lookup_insert_ne by congruence. rewrite Hlook.
        destruct (decide (i < n)%nat), (decide (i < Datatypes.S n)%nat);
          try reflexivity; lia.
  - rewrite Heq. f_equal. unfold write_back. f_equal.
    apply list_eq. intros i. rewrite Hlook, length_range.
    destruct (decide (i < length positions - 0)%nat) as [Hlt|Hge];
      [reflexivity |].
    rewrite (lookup_ge_None_2 (markers ms)) by lia.
    symmetry. apply lookup_ge_None_2. rewrite length_zip_with. lia.
Qed.

(** C8.  [set_marker_pos] raises [AssertionError] with the marker set
    exactly as it was when the number of positions differs from the number
    of markers; when they agree it returns normally and has written the
    position of exactly the markers whose entry is not [Empty], every other
    marker and every other attribute being left as it was
    ([write_back]). *)
Theorem set_marker_pos_fails_fast (positions : list Merged) (ms : MarkerSet) :
  set_marker_pos positions ms =
    if decide (length (markers ms) = length positions)
    then (write_back positions ms, Ok tt)
    else (ms, Raise AssertionError).
Proof.
  destruct (decide (length (markers ms) = length positions)) as [Heq|Hne].
  - apply set_marker_pos_agree. exact Heq.
  - unfold set_marker_pos, bind, get. rewrite decide_False by exact Hne.
    reflexivity.
Qed.
End SetMarkerPos.

(** ** Conversion to metres *)

Section Camera.
Variables Array Names Occlusions : Type.
Variable call : forall S : Type,
  CameraConverter.callable -> Py S (Array * option Names * option Occlusions * Z).
Variable deproject : forall S : Type, Array -> Py S Array.

(** C10.  [get_markers_pos_in_meter] raises [ValueError] when both
    arguments are [None], and also, whatever [marker_pos_in_pixel] is, when
    [method] is [RgbdImages.get_global_markers_pos] or
    [RgbdImages.get_merged_global_markers_pos], the two methods its
    documentation gives as the valid ones; the state is untouched. *)
Theorem documented_methods_are_rejected (S : Type) (s : S) :
  CameraConverter.get_markers_pos_in_meter Array Names Occlusions call deproject
    None None s = (s, Raise ValueError) /\
  (forall marker_pos_in_pixel,
     CameraConverter.get_markers_pos_in_meter Array Names Occlusions call deproject
       marker_pos_in_pixel
       (Some CameraConverter.RgbdImages_get_global_markers_pos) s
     = (s, Raise ValueError)) /\
  (forall marker_pos_in_pixel,
     CameraConverter.get_markers_pos_in_meter Array Names Occlusions call deproject
       marker_pos_in_pixel
       (Some CameraConverter.RgbdImages_get_merged_global_markers_pos) s
     = (s, Raise ValueError)).
Proof.
  split; [reflexivity |].
  split; intros [p|]; reflexivity.
Qed.
End Camera.

(** ** The tracker, pass by pass *)

Section TrackerPasses.
Context `{C : Collaborators}.
Variable DELTA : Z.

Ltac tracker_fields :=
  cbn [Tracker.marker_set Tracker.optical_flow Tracker.kalman Tracker.naive
       Tracker.blobs Tracker.positions Tracker.estimated_positions].

Lemma near_snoc (anchor : coord) (bl : list coord) (l : list Position) :
  l ++ near DELTA anchor bl =
    (l ++ [mkPosition anchor false]) ++
    (if (find_closest_blob anchor bl DELTA).2
     then [mkPosition (find_closest_blob anchor bl DELTA).1 true] else []).
Proof. unfold near. rewrite <- app_assoc. reflexivity. Qed.

Lemma _get_blob_near_position_eq ms fl k n bl ps es anchor index l :
  es !! index = Some (Some l) ->
  Tracker._get_blob_near_position DELTA anchor index
    (Tracker.mk ms fl k n (Some bl) ps es)
  = (Tracker.mk ms fl k n (Some bl) ps
       (<[index := Some (l ++ near DELTA anchor bl)]> es),
     Ok (find_closest_blob anchor bl DELTA).2).
Proof.
  intros Hl. unfold Tracker._get_blob_near_position, bind at 1.
  unfold Tracker.estimated_append at 1. simpl. rewrite Hl.
  unfold bind at 1, get. simpl. rewrite near_snoc.
  destruct (find_closest_blob anchor bl DELTA) as [p visible]. simpl.
  assert (Hlt : (index < length es)%nat) by (eapply lookup_lt_Some; exact Hl).
  destruct visible.
  - unfold bind, Tracker.estimated_append, ret. simpl.
    rewrite list_lookup_insert_eq by exact Hlt.
    rewrite list_insert_insert_eq. reflexivity.
  - unfold bind, ret. simpl. rewrite app_nil_r. reflexivity.
Qed.

Lemma _track_marker_static ms fl k n bl ps es index marker :
  is_static marker = true ->
  Tracker._track_marker DELTA (index, marker) (Tracker.mk ms fl k n bl ps es)
  = (Tracker.mk ms fl k n bl ps es, Ok (Some (pos marker))).
Proof. intros Hs. unfold Tracker._track_marker. rewrite Hs. reflexivity. Qed.

Lemma _track_marker_eq ms fl k n bl ps es index marker :
  is_static marker = false ->
  (index < length es)%nat ->
  Tracker._track_marker DELTA (index, marker)
    (Tracker.mk ms fl k n (Some bl) ps es)
  = (Tracker.mk
       (if k then with_markers (<[index := (predict_from_kalman marker).1]> (markers ms)) ms
        else ms)
       fl k n (Some bl) ps
       (<[index := Some (candidates DELTA n fl k bl index marker)]> es),
     Ok None).
Proof.
  intros Hs Hlt. unfold Tracker._track_marker. rewrite Hs.
  unfold bind at 1. unfold Tracker.estimated_setitem at 1. simpl.
  rewrite decide_True by exact Hlt.
  unfold bind at 1, get at 1.
  unfold Tracker.with_estimated_positions. tracker_fields.
  unfold candidates.
  set (es0 := <[index := Some []]> es).
  assert (H0 : es0 !! index = Some (Some (@nil Position))).
  { unfold es0. apply list_lookup_insert_eq. exact Hlt. }
  (* naive *)
  unfold bind at 1.
  assert (Hn : exists l1,
    (if n then bind (Tracker._get_blob_near_position DELTA (pos marker) index)
                    (fun _ => ret tt) else ret tt)
      (Tracker.mk ms fl k n (Some bl) ps es0)
    = (Tracker.mk ms fl k n (Some bl) ps (<[index := Some l1]> es), Ok tt)
    /\ l1 = (if n then near DELTA (pos marker) bl else [])).
  { destruct n.
    - eexists. split; [| reflexivity]. unfold bind.
      rewrite (_get_blob_near_position_eq _ _ _ _ _ _ _ _ _ _ H0).
      unfold es0. rewrite list_insert_insert_eq. reflexivity.
    - eexists. split; reflexivity. }
  destruct Hn as (l1 & -> & Hl1). rewrite <- Hl1. clear Hl1 H0 es0.
  assert (H1 : <[index := Some l1]> es !! index = Some (Some l1))
    by (apply list_lookup_insert_eq; exact Hlt).
  (* optical flow *)
  unfold bind at 1.
  assert (Hf : exists l2,
    match fl with
    | Some flow =>
        let '(estimation, st) := Flow_getitem flow index in
        if (st =? 1)%Z
        then bind (Tracker._get_blob_near_position DELTA estimation index)
                  (fun _ => ret tt)
        else ret tt
    | None => ret tt
    end (Tracker.mk ms fl k n (Some bl) ps (<[index := Some l1]> es))
    = (Tracker.mk ms fl k n (Some bl) ps (<[index := Some (l1 ++ l2)]> es), Ok tt)
    /\ l2 = match fl with
            | Some f => if ((Flow_getitem f index).2 =? 1)%Z
                        then near DELTA (Flow_getitem f index).1 bl else []
            | None => []
            end).
  { destruct fl as [flow|].
    - destruct (Flow_getitem flow index) as [estimation st]. simpl.
      destruct (st =? 1)%Z.
      + eexists. split; [| reflexivity]. unfold bind.
        rewrite (_get_blob_near_position_eq _ _ _ _ _ _ _ _ _ _ H1).
        rewrite list_insert_insert_eq. reflexivity.
      + exists []. split; [| reflexivity]. rewrite app_nil_r. reflexivity.
    - exists []. split; [| reflexivity]. rewrite app_nil_r. reflexivity. }
  destruct Hf as (l2 & -> & Hl2). rewrite <- Hl2. clear Hl2 H1.
  assert (H2 : <[index := Some (l1 ++ l2)]> es !! index = Some (Some (l1 ++ l2)))
    by (apply list_lookup_insert_eq; exact Hlt).
  (* Kalman *)
  unfold bind at 1. destruct k.
  - destruct (predict_from_kalman marker) as [marker' prediction]. simpl.
    unfold bind at 1. unfold Tracker.marker_setitem, modify at 1. simpl.
    unfold bind at 1.
    unfold Tracker.with_marker_set at 1. simpl.
    rewrite (_get_blob_near_position_eq _ _ _ _ _ _ _ _ _ _ H2).
    rewrite list_insert_insert_eq. unfold ret. rewrite <- app_assoc.
    reflexivity.
  - unfold ret. rewrite app_nil_r. reflexivity.
Qed.

Lemma estimation_pass ms fl k n bl ps es :
  length es = length (markers ms) ->
  returns
    (for_each (enumerate (markers ms))
       (fun marker => _ <- Tracker._track_marker DELTA marker ;; ret tt))
    (Tracker.mk ms fl k n (Some bl) ps es)
    (fun s' _ => exists lm es',
       s' = Tracker.mk (with_markers lm ms) fl k n (Some bl) ps es' /\
       length lm = length (markers ms) /\
       length es' = length es /\
       (forall i, lm !! i = predicted k <$> markers ms !! i) /\
       (forall i m, markers ms !! i = Some m ->
          es' !! i = if is_static m then es !! i
                     else Some (Some (candidates DELTA n fl k bl i m)))).
Proof.
  intros Hlen.
  pose (I := fun (j : nat) (s : Tracker.t) => exists lm es',
    s = Tracker.mk (with_markers lm ms) fl k n (Some bl) ps es' /\
    length lm = length (markers ms) /\
    length es' = length es /\
    (forall i, lm !! i =
       if decide (i < j)%nat then predicted k <$> markers ms !! i
       else markers ms !! i) /\
    (forall i m, markers ms !! i = Some m ->
       es' !! i = if decide (i < j)%nat
                  then (if is_static m then es !! i
                        else Some (Some (candidates DELTA n fl k bl i m)))
                  else es !! i)).
  eapply returns_mono.
  - apply (returns_for_each _ _ I).
    + exists (markers ms), es. split; [destruct ms; reflexivity |].
      split; [reflexivity |]. split; [reflexivity |].
      split; intros i; [| intros m Hm]; rewrite decide_False by lia; reflexivity.
    + intros j [index marker] s Hj (lm & es' & -> & Hlm & Hes & Hmk & Hest).
      apply enumerate_lookup_inv in Hj. simpl in Hj. destruct Hj as [-> Hj].
      assert (Hjlt : (j < length (markers ms))%nat)
        by (eapply lookup_lt_Some; exact Hj).
      apply returns_bind.
      destruct (is_static marker) eqn:Hs.
      * eapply returns_eq; [apply _track_marker_static; exact Hs |].
        apply returns_ret. exists lm, es'.
        split; [reflexivity |]. split; [exact Hlm |]. split; [exact Hes |].
        split.
        -- intros i. rewrite Hmk.
           destruct (decide (i = j)) as [->|Hne].
           ++ rewrite decide_False, decide_True by lia. rewrite Hj. simpl.
              unfold predicted. rewrite Hs. reflexivity.
           ++ destruct (decide (i < j)%nat), (decide (i < Datatypes.S j)%nat);
                try reflexivity; lia.
        -- intros i m Hm. rewrite (Hest i m Hm).
           destruct (decide (i = j)) as [->|Hne].
           ++ rewrite decide_False, decide_True by lia.
              assert (m = marker) as -> by congruence. rewrite Hs. reflexivity.
           ++ destruct (decide (i < j)%nat), (decide (i < Datatypes.S j)%nat);
                try reflexivity; lia.
      * eapply returns_eq; [apply _track_marker_eq; [exact Hs | lia] |].
        apply returns_ret.
        exists (if k then <[j := (predict_from_kalman marker).1]> lm else lm),
               (<[j := Some (candidates DELTA n fl k bl j marker)]> es').
        split; [destruct k; reflexivity |].
        split; [destruct k; [rewrite length_insert |]; exact Hlm |].
        split; [rewrite length_insert; exact Hes |].
        split.
        -- intros i. destruct (decide (i = j)) as [->|Hne].
           ++ rewrite decide_True by lia. rewrite Hj. simpl.
              unfold predicted. rewrite Hs. destruct k.
              ** rewrite list_lookup_insert_eq by lia. reflexivity.
              ** rewrite Hmk, decide_False by lia. exact Hj.
           ++ assert (Hi : (if k then <[j := (predict_from_kalman marker).1]> lm
                            else lm) !! i = lm !! i).
              { destruct k; [| reflexivity].
                apply list_lookup_insert_ne. congruence. }
              rewrite Hi, Hmk.
              destruct (decide (i < j)%nat), (decide (i < Datatypes.S j)%nat);
                try reflexivity; lia.
        -- intros i m Hm. destruct (decide (i = j)) as [->|Hne].
           ++ rewrite list_lookup_insert_eq by lia.
              rewrite decide_True by lia.
              assert (m = marker) as -> by congruence. rewrite Hs. reflexivity.
           ++ rewrite list_lookup_insert_ne by congruence.
              rewrite (Hest i m Hm).
              destruct (decide (i < j)%nat), (decide (i < Datatypes.S j)%nat);
                try reflexivity; lia.
  - intros s' _ (lm & es' & -> & Hlm & Hes & Hmk & Hest).
    rewrite length_enumerate in Hmk, Hest.
    exists lm, es'. split; [reflexivity |]. split; [exact Hlm |].
    split; [exact Hes |]. split.
    + intros i. rewrite Hmk. destruct (decide (i < length (markers ms))%nat) as [|Hge];
        [reflexivity |].
      rewrite (lookup_ge_None_2 (markers ms)) by lia. reflexivity.
    + intros i m Hm. rewrite (Hest i m Hm).
      rewrite decide_True; [reflexivity |]. eapply lookup_lt_Some. exact Hm.
Qed.

Lemma check_tracking_unfold (self : Tracker.t) :
  Tracker.check_tracking self
  = for_each (range 0 (length (Tracker.positions self))) (fun i =>
      for_each (range (i + 1) (length (Tracker.positions self))) (check_pair i))
      self.
Proof. reflexivity. Qed.

Lemma positions_getitem_eq ms fl k n bl ps es i p :
  ps !! i = Some p ->
  Tracker.positions_getitem i (Tracker.mk ms fl k n bl ps es)
  = (Tracker.mk ms fl k n bl ps es, Ok p).
Proof.
  intros Hi. unfold Tracker.positions_getitem. tracker_fields.
  rewrite Hi. reflexivity.
Qed.

Lemma marker_set_getitem_eq ms fl k n bl ps es i m :
  markers ms !! i = Some m ->
  zoom Tracker.marker_set Tracker.with_marker_set (MarkerSet_getitem i)
    (Tracker.mk ms fl k n bl ps es)
  = (Tracker.mk ms fl k n bl ps es, Ok m).
Proof.
  intros Hi. unfold zoom, MarkerSet_getitem. tracker_fields.
  rewrite Hi. reflexivity.
Qed.

Lemma positions_set_position_eq ms fl k n bl ps es i p v :
  ps !! i = Some (Valid p) ->
  Tracker.positions_set_position i v (Tracker.mk ms fl k n bl ps es)
  = (Tracker.mk ms fl k n bl (<[i := Valid (mkPosition v (visibility p))]> ps) es,
     Ok tt).
Proof.
  intros Hi. unfold Tracker.positions_set_position. tracker_fields.
  rewrite Hi. reflexivity.
Qed.

Lemma displacement_eq ms fl k n bl ps es i p m :
  ps !! i = Some (Valid p) -> markers ms !! i = Some m ->
  Tracker.displacement i (Tracker.mk ms fl k n bl ps es)
  = (Tracker.mk ms fl k n bl ps es, Ok (distance_from_marker p m)).
Proof.
  intros Hi Hm. unfold Tracker.displacement.
  erewrite bind_ok by (apply positions_getitem_eq; exact Hi).
  cbv beta iota.
  erewrite bind_ok by (apply marker_set_getitem_eq; exact Hm).
  reflexivity.
Qed.

Lemma check_pair_skip ms fl k n bl ps es i j pi pj :
  ps !! i = Some pi -> ps !! j = Some pj -> overlapping pi pj = false ->
  check_pair i j (Tracker.mk ms fl k n bl ps es)
  = (Tracker.mk ms fl k n bl ps es, Ok tt).
Proof.
  intros Hi Hj Hov. unfold check_pair.
  erewrite bind_ok by (apply positions_getitem_eq; exact Hi).
  erewrite bind_ok by (apply positions_getitem_eq; exact Hj).
  unfold overlapping in Hov. rewrite Hov. reflexivity.
Qed.

Lemma _correct_overlapping_eq ms fl k n bl ps es i j pi pj mi mj :
  ps !! i = Some (Valid pi) -> ps !! j = Some (Valid pj) ->
  markers ms !! i = Some mi -> markers ms !! j = Some mj ->
  Tracker._correct_overlapping i j (Tracker.mk ms fl k n bl ps es)
  = (Tracker.mk ms fl k n bl (resolved ms ps i j) es, Ok tt).
Proof.
  intros Hi Hj Hmi Hmj. unfold resolved. rewrite Hi, Hj, Hmi, Hmj.
  unfold Tracker._correct_overlapping.
  erewrite bind_ok by (eapply displacement_eq; eassumption).
  erewrite bind_ok by (eapply displacement_eq; eassumption).
  destruct (distance_from_marker pi mi <? distance_from_marker pj mj)%Z.
  - erewrite bind_ok by (apply marker_set_getitem_eq; exact Hmj).
    apply positions_set_position_eq. exact Hj.
  - erewrite bind_ok by (apply marker_set_getitem_eq; exact Hmi).
    apply positions_set_position_eq. exact Hi.
Qed.

Lemma check_pair_overlap ms fl k n bl ps es i j pi pj mi mj :
  ps !! i = Some (Valid pi) -> ps !! j = Some (Valid pj) ->
  position pi = position pj ->
  markers ms !! i = Some mi -> markers ms !! j = Some mj ->
  check_pair i j (Tracker.mk ms fl k n bl ps es)
  = (Tracker.mk ms fl k n bl (resolved ms ps i j) es, Ok tt).
Proof.
  intros Hi Hj Heq Hmi Hmj. unfold check_pair.
  erewrite bind_ok by (apply positions_getitem_eq; exact Hi).
  erewrite bind_ok by (apply positions_getitem_eq; exact Hj).
  assert (Hov : Position_eq (Valid pi) (Valid pj) && not_empty (Valid pi) = true).
  { simpl. rewrite Heq. unfold coord_eqb. rewrite !Z.eqb_refl. reflexivity. }
  rewrite Hov. eapply _correct_overlapping_eq; eassumption.
Qed.

Lemma overlapping_valid (a b : Merged) :
  overlapping a b = true -> exists p q, a = Valid p /\ b = Valid q.
Proof.
  destruct a as [|p], b as [|q]; try discriminate. eauto.
Qed.

Lemma same_shape_refl ps : same_shape ps ps.
Proof. split; [reflexivity | intros i; reflexivity]. Qed.

Lemma same_shape_insert ps ps' i p q :
  same_shape ps ps' -> ps' !! i = Some (Valid p) ->
  same_shape ps (<[i := Valid q]> ps').
Proof.
  intros [Hlen Hsh] Hi. split; [rewrite length_insert; exact Hlen |].
  intros a. destruct (decide (a = i)) as [->|Hne].
  - rewrite list_lookup_insert_eq by (eapply lookup_lt_Some; exact Hi).
    rewrite <- Hsh, Hi. split; discriminate.
  - rewrite list_lookup_insert_ne by congruence. apply Hsh.
Qed.

Lemma same_shape_resolved ms ps ps' i j :
  same_shape ps ps' -> same_shape ps (resolved ms ps' i j).
Proof.
  intros Hsh. unfold resolved.
  destruct (ps' !! i) as [[|pi]|] eqn:Hi; try exact Hsh.
  destruct (ps' !! j) as [[|pj]|] eqn:Hj; try exact Hsh.
  destruct (markers ms !! i) as [mi|]; try exact Hsh.
  destruct (markers ms !! j) as [mj|]; try exact Hsh.
  destruct (_ <? _)%Z; eapply same_shape_insert; eassumption.
Qed.

Lemma check_pair_shape ms fl k n bl ps0 ps es i j :
  (i < length ps)%nat -> (j < length ps)%nat ->
  (length ps <= length (markers ms))%nat ->
  same_shape ps0 ps ->
  returns (check_pair i j) (Tracker.mk ms fl k n bl ps es)
    (fun s' _ => exists ps',
       s' = Tracker.mk ms fl k n bl ps' es /\ same_shape ps0 ps').
Proof.
  intros Hi Hj Hlen Hsh.
  destruct (lookup_lt_is_Some_2 ps i Hi) as [pi Hpi].
  destruct (lookup_lt_is_Some_2 ps j Hj) as [pj Hpj].
  destruct (overlapping pi pj) eqn:Hov.
  - destruct (overlapping_valid _ _ Hov) as (p & q & -> & ->).
    destruct (lookup_lt_is_Some_2 (markers ms) i ltac:(lia)) as [mi Hmi].
    destruct (lookup_lt_is_Some_2 (markers ms) j ltac:(lia)) as [mj Hmj].
    eapply returns_eq.
    + eapply check_pair_overlap; try eassumption.
      unfold overlapping in Hov. apply andb_true_iff in Hov.
      destruct Hov as [Hov _]. simpl in Hov. unfold coord_eqb in Hov.
      apply andb_true_iff in Hov. destruct Hov as [Hx Hy].
      apply Z.eqb_eq in Hx, Hy.
      destruct (position p), (position q). simpl in *. congruence.
    + eexists. split; [reflexivity |]. apply same_shape_resolved. exact Hsh.
  - eapply returns_eq; [eapply check_pair_skip; eassumption |].
    exists ps. auto.
Qed.

Lemma check_tracking_shape ms fl k n bl ps es :
  (length ps <= length (markers ms))%nat ->
  returns Tracker.check_tracking (Tracker.mk ms fl k n bl ps es)
    (fun s' _ => exists ps',
       s' = Tracker.mk ms fl k n bl ps' es /\ same_shape ps ps').
Proof.
  intros Hlen.
  pose (J := fun s : Tracker.t => exists ps',
    s = Tracker.mk ms fl k n bl ps' es /\ same_shape ps ps').
  unfold returns. rewrite check_tracking_unfold. tracker_fields.
  apply (returns_for_each _ _ (fun _ => J)).
  - exists ps. split; [reflexivity | apply same_shape_refl].
  - intros a i s Ha HJ.
    apply lookup_range in Ha. destruct Ha as [-> Ha].
    apply (returns_for_each _ _ (fun _ => J)); [exact HJ |].
    intros b j s1 Hb (ps1 & -> & Hsh).
    apply lookup_range in Hb. destruct Hb as [-> Hb].
    destruct Hsh as [Hl1 Hsh1].
    apply check_pair_shape; try lia. split; assumption.
Qed.

Lemma check_bounds_eq frame ms fl k n bl ps es :
  Tracker.check_bounds frame (Tracker.mk ms fl k n bl ps es)
  = (Tracker.mk ms fl k n bl (bounded frame <$> ps) es, Ok tt).
Proof.
  unfold Tracker.check_bounds. erewrite bind_ok by reflexivity.
  tracker_fields.
  pose (I := fun (j : nat) (s : Tracker.t) => exists ps',
    s = Tracker.mk ms fl k n bl ps' es /\ length ps' = length ps /\
    forall i, ps' !! i = if decide (i < j)%nat then bounded frame <$> ps !! i
                         else ps !! i).
  assert (H0 : I 0%nat (Tracker.mk ms fl k n bl ps es)).
  { exists ps. split; [reflexivity |]. split; [reflexivity |].
    intros i. rewrite decide_False by lia. reflexivity. }
  match goal with
  | |- for_each ?l ?body ?s = _ =>
      pose proof (returns_for_each l body I s H0) as Hloop
  end.
  destruct Hloop as (s' & [] & Heq & ps' & -> & Hlen & Hlook).
  - intros j i s Hi (ps' & -> & Hlen & Hlook).
    apply lookup_range in Hi. destruct Hi as [-> Hj]. simpl in Hj |- *.
    assert (Hjlt : (j < length ps)%nat) by lia.
    destruct (lookup_lt_is_Some_2 ps j Hjlt) as [p Hp].
    assert (Hp' : ps' !! j = Some p).
    { rewrite Hlook, decide_False by lia. exact Hp. }
    apply returns_bind. eapply returns_eq;
      [apply positions_getitem_eq; exact Hp' |].
    destruct p as [|q].
    + apply returns_ret. exists ps'. split; [reflexivity |].
      split; [exact Hlen |]. intros i. rewrite Hlook.
      destruct (decide (i = j)) as [->|Hne].
      * rewrite decide_False, decide_True by lia. rewrite Hp. reflexivity.
      * destruct (decide (i < j)%nat), (decide (i < Datatypes.S j)%nat);
          try reflexivity; lia.
    + apply returns_modify. unfold Tracker.with_positions. tracker_fields.
      eexists. split; [reflexivity |].
      split; [rewrite length_insert; exact Hlen |]. intros i.
      destruct (decide (i = j)) as [->|Hne].
      * rewrite list_lookup_insert_eq by lia. rewrite decide_True by lia.
        rewrite Hp. reflexivity.
      * rewrite list_lookup_insert_ne by congruence. rewrite Hlook.
        destruct (decide (i < j)%nat), (decide (i < Datatypes.S j)%nat);
          try reflexivity; lia.
  - rewrite Heq. f_equal. f_equal. apply list_eq. intros i.
    rewrite Hlook, length_range, list_lookup_fmap.
    destruct (decide (i < length ps - 0)%nat) as [|Hge]; [reflexivity |].
    rewrite (lookup_ge_None_2 ps) by lia. reflexivity.
Qed.

Lemma correction_pass ms fl k n bl ps es :
  length ps = length (markers ms) ->
  Tracker.correct_markers (Tracker.mk ms fl k n bl ps es)
  = (Tracker.mk
       (with_markers (zip_with (fun m p => corrected p m) (markers ms) ps) ms)
       fl k n bl ps es, Ok tt).
Proof.
  intros Hlen. unfold Tracker.correct_markers.
  erewrite bind_ok by reflexivity. tracker_fields.
  pose (I := fun (j : nat) (s : Tracker.t) => exists lm,
    s = Tracker.mk (with_markers lm ms) fl k n bl ps es /\
    length lm = length (markers ms) /\
    forall i, lm !! i =
      if decide (i < j)%nat
      then zip_with (fun m p => corrected p m) (markers ms) ps !! i
      else markers ms !! i).
  assert (H0 : I 0%nat (Tracker.mk ms fl k n bl ps es)).
  { exists (markers ms). split; [destruct ms; reflexivity |].
    split; [reflexivity |].
    intros i. rewrite decide_False by lia. reflexivity. }
  match goal with
  | |- for_each ?l ?body ?s = _ =>
      pose proof (returns_for_each l body I s H0) as Hloop
  end.
  destruct Hloop as (s' & [] & Heq & lm & -> & Hlm & Hlook).
  - intros j [index marker] s Hj (lm & -> & Hlm & Hlook).
    apply enumerate_lookup_inv in Hj. simpl in Hj. destruct Hj as [-> Hj].
    assert (Hjlt : (j < length (markers ms))%nat)
      by (eapply lookup_lt_Some; exact Hj).
    destruct (lookup_lt_is_Some_2 ps j ltac:(lia)) as [p Hp].
    assert (Hzip : zip_with (fun m p => corrected p m) (markers ms) ps !! j
                   = Some (corrected p marker)).
    { apply lookup_zip_with_Some. eauto. }
    apply returns_bind. eapply returns_eq;
      [apply positions_getitem_eq; exact Hp |].
    destruct p as [|q].
    + apply returns_ret. exists lm. split; [reflexivity |].
      split; [exact Hlm |]. intros i. rewrite Hlook.
      destruct (decide (i = j)) as [->|Hne].
      * rewrite decide_False, decide_True by lia. rewrite Hzip, Hj.
        reflexivity.
      * destruct (decide (i < j)%nat), (decide (i < Datatypes.S j)%nat);
          try reflexivity; lia.
    + unfold Tracker.marker_setitem. apply returns_modify.
      unfold Tracker.with_marker_set. tracker_fields.
      exists (<[j := correct_from_kalman (position q) marker]> lm).
      split; [reflexivity |]. split; [rewrite length_insert; exact Hlm |].
      intros i. destruct (decide (i = j)) as [->|Hne].
      * rewrite list_lookup_insert_eq by lia. rewrite decide_True by lia.
        rewrite Hzip. reflexivity.
      * rewrite list_lookup_insert_ne by congruence. rewrite Hlook.
        destruct (decide (i < j)%nat), (decide (i < Datatypes.S j)%nat);
          try reflexivity; lia.
  - rewrite Heq. f_equal. f_equal. f_equal. apply list_eq. intros i.
    rewrite Hlook, length_enumerate.
    destruct (decide (i < length (markers ms))%nat) as [|Hge]; [reflexivity |].
    rewrite (lookup_ge_None_2 (markers ms)) by lia. symmetry.
    apply lookup_ge_None_2. rewrite length_zip_with. lia.
Qed.

Lemma same_shape_bounded frame ps ps' :
  same_shape ps ps' -> same_shape ps (bounded frame <$> ps').
Proof.
  intros [Hlen Hsh]. split; [rewrite length_fmap; exact Hlen |].
  intros i. rewrite <- Hsh, list_lookup_fmap.
  destruct (ps' !! i) as [[|q]|]; simpl; split; congruence.
Qed.

Lemma merge_positions_eq (self : Tracker.t) :
  Tracker.merge_positions self
  = (Tracker.with_positions
       (_merge_positions <$> Tracker.estimated_positions self) self, Ok tt).
Proof.
  unfold Tracker.merge_positions, bind at 1, modify at 1.
  unfold bind at 1, get at 1.
  assert (Hloop : forall (l : list (option (list Position))) (s : Tracker.t),
    for_each l (fun positions =>
      modify (fun self =>
        Tracker.with_positions
          (Tracker.positions self ++ [_merge_positions positions]) self)) s
    = (Tracker.with_positions
         (Tracker.positions s ++ (_merge_positions <$> l)) s, Ok tt)).
  { induction l as [|e l IH]; intros s.
    - simpl. unfold ret. rewrite app_nil_r. destruct s; reflexivity.
    - simpl. unfold bind, modify at 1. rewrite IH. destruct s. simpl.
      unfold Tracker.with_positions. simpl. rewrite <- app_assoc. reflexivity. }
  destruct self. unfold Tracker.with_positions at 1 2. tracker_fields.
  rewrite Hloop. reflexivity.
Qed.

(** [track] always returns on an aligned tracker; the state it leaves
    and the lists it returns, pass by pass. *)
Lemma track_eq ms fl k n bl0 ps0 es frame bl :
  length es = length (markers ms) ->
  exists es' ps',
    Tracker.track DELTA frame bl (Tracker.mk ms fl k n bl0 ps0 es)
    = (Tracker.mk
         (with_markers
            (zip_with (fun m p => corrected p m)
                      (predicted k <$> markers ms) ps') ms)
         (flow_updated frame fl) k n (Some bl) ps' es',
       Ok (ps', es')) /\
    length es' = length es /\
    (forall i m, markers ms !! i = Some m ->
       es' !! i = if is_static m then es !! i
                  else Some (Some (candidates DELTA n (flow_updated frame fl)
                                     k bl i m))) /\
    same_shape (_merge_positions <$> es') ps'.
Proof.
  intros Hlen. unfold Tracker.track.
  erewrite bind_ok by reflexivity.
  erewrite bind_ok by reflexivity.
  unfold Tracker.with_blobs. tracker_fields.
  assert (Hflow :
    match fl with
    | Some flow =>
        modify (Tracker.with_optical_flow
                  (Some (Flow_get_optical_flow_pos flow (color frame))))
    | None => ret tt
    end (Tracker.mk ms fl k n (Some bl) ps0 es)
    = (Tracker.mk ms (flow_updated frame fl) k n (Some bl) ps0 es, Ok tt)).
  { destruct fl; reflexivity. }
  erewrite bind_ok by exact Hflow. clear Hflow.
  erewrite bind_ok by reflexivity. tracker_fields.
  destruct (estimation_pass ms (flow_updated frame fl) k n bl ps0 es Hlen)
    as (s1 & [] & Hest & lm & es' & -> & Hlm & Hes' & Hmk & Hcand).
  erewrite bind_ok by exact Hest. clear Hest.
  erewrite bind_ok by apply merge_positions_eq.
  unfold Tracker.with_positions. tracker_fields.
  assert (Hlm_eq : lm = predicted k <$> markers ms).
  { apply list_eq. intros i. rewrite Hmk, list_lookup_fmap. reflexivity. }
  destruct (check_tracking_shape (with_markers lm ms) (flow_updated frame fl)
              k n (Some bl) (_merge_positions <$> es') es')
    as (s2 & [] & Hchk & ps1 & -> & Hsh).
  { simpl. rewrite length_fmap. lia. }
  erewrite bind_ok by exact Hchk. clear Hchk.
  erewrite bind_ok by apply check_bounds_eq.
  pose proof (same_shape_bounded frame _ _ Hsh) as Hsh'.
  erewrite bind_ok.
  2:{ apply correction_pass. destruct Hsh' as [Hl _]. rewrite Hl.
      rewrite length_fmap. simpl. lia. }
  erewrite bind_ok by reflexivity. tracker_fields.
  exists es', (bounded frame <$> ps1).
  split; [subst lm; reflexivity |]. auto.
Qed.
End TrackerPasses.

(** ** One tick of the tracker *)

Section TrackerTick.
Context `{C : Collaborators}.
Variable DELTA : Z.

Lemma init_aligned frame ms naive optical_flow kalman :
  aligned (Tracker.__init__ frame ms naive optical_flow kalman).
Proof. unfold aligned. simpl. apply length_replicate. Qed.

Lemma predicted_pos k m : pos (predicted k m) = pos m.
Proof.
  unfold predicted, predict_from_kalman.
  destruct (is_static m); [reflexivity |]. destruct k; [| reflexivity].
  destruct (kalman_predict (kalman_state m)). reflexivity.
Qed.

Lemma predicted_disabled m : predicted false m = m.
Proof. unfold predicted. destruct (is_static m); reflexivity. Qed.

Lemma predicted_static k m : is_static m = true -> predicted k m = m.
Proof. intros H. unfold predicted. rewrite H. reflexivity. Qed.

(** C3.  On a tracker that has one diagnostics slot per marker, as the
    constructor builds it and as every later call leaves it
    ([reachable_aligned]), [track] returns normally; the [positions] and
    [estimated] it returns both have exactly as many entries as the marker
    set has markers, and entry [i] belongs to marker [i]: the diagnostics of
    a non-static marker are the candidates found around that marker, and a
    position is [Empty] exactly where the merge of the diagnostics at the
    same index is.  The marker set keeps its size and the tracker has again
    one slot per marker for the next tick. *)
Theorem track_lengths (self : Tracker.t) (frame : Frames) (blobs : list coord) :
  aligned self ->
  returns (Tracker.track DELTA frame blobs) self (fun self' out =>
    length out.1 = length (markers (Tracker.marker_set self)) /\
    length out.2 = length (markers (Tracker.marker_set self)) /\
    (forall i m, markers (Tracker.marker_set self) !! i = Some m ->
       is_static m = false ->
       out.2 !! i =
         Some (Some (candidates DELTA (Tracker.naive self)
                       (flow_updated frame (Tracker.optical_flow self))
                       (Tracker.kalman self) blobs i m))) /\
    same_shape (_merge_positions <$> out.2) out.1 /\
    length (markers (Tracker.marker_set self'))
      = length (markers (Tracker.marker_set self)) /\
    out = (Tracker.positions self', Tracker.estimated_positions self') /\
    aligned self').
Proof.
  destruct self as [ms fl k n bl0 ps0 es]. unfold aligned. simpl.
  intros Hlen.
  destruct (track_eq DELTA ms fl k n bl0 ps0 es frame blobs Hlen)
    as (es' & ps' & Heq & Hes' & Hcand & Hshape).
  pose proof Hshape as [Hps' _]. rewrite length_fmap in Hps'.
  eapply returns_eq; [exact Heq |]. simpl.
  rewrite length_zip_with, length_fmap.
  split; [lia |]. split; [lia |]. split.
  { intros i m Hm Hs. rewrite (Hcand i m Hm), Hs. reflexivity. }
  split; [exact Hshape |]. repeat split; lia.
Qed.

Lemma length_write_back positions (ms : MarkerSet) :
  length (markers ms) = length positions ->
  length (markers (write_back positions ms)) = length (markers ms).
Proof.
  intros H. unfold write_back. simpl. rewrite length_zip_with. lia.
Qed.

(** Every tracker a program can hold is aligned. *)
Lemma reachable_aligned (self : Tracker.t) : reachable DELTA self -> aligned self.
Proof.
  induction 1 as [frame ms n o k | self frame blobs self' outcome _ IH Htrack
                 | self positions ms' outcome _ IH Hset].
  - apply init_aligned.
  - destruct self as [ms fl k n bl0 ps0 es]. unfold aligned in IH. simpl in IH.
    destruct (track_eq DELTA ms fl k n bl0 ps0 es frame blobs IH)
      as (es' & ps' & Heq & Hes' & _ & [Hps' _]).
    rewrite Heq in Htrack. injection Htrack as <- _.
    unfold aligned. simpl. rewrite length_fmap in Hps'.
    rewrite length_zip_with, length_fmap. lia.
  - unfold aligned in *. destruct self as [ms fl k n bl0 ps0 es]. simpl in *.
    destruct (decide (length (markers ms) = length positions)) as [Heq|Hne].
    + rewrite (set_marker_pos_agree positions ms Heq) in Hset.
      injection Hset as <- _. rewrite length_write_back by exact Heq. exact IH.
    + unfold set_marker_pos, bind, get in Hset.
      rewrite decide_False in Hset by exact Hne.
      injection Hset as <- _. exact IH.
Qed.

Lemma all_invisible_merge (l : list Position) :
  Forall (fun p => visibility p = false) l -> _merge_positions (Some l) = Empty.
Proof.
  intros Hall. rewrite _merge_positions_spec. unfold spec_merge.
  assert (Hnil : visible_candidates l = []).
  { unfold visible_candidates. induction Hall as [|p l Hp _ IH]; [reflexivity |].
    rewrite filter_cons, decide_False by congruence. exact IH. }
  rewrite Hnil. reflexivity.
Qed.

Lemma near_no_blobs anchor : near DELTA anchor [] = [mkPosition anchor false].
Proof. reflexivity. Qed.

Lemma candidates_no_blobs n fl k index m :
  Forall (fun p => visibility p = false) (candidates DELTA n fl k [] index m).
Proof.
  unfold candidates. rewrite !Forall_app. repeat split.
  - destruct n; [| constructor]. rewrite near_no_blobs. repeat constructor.
  - destruct fl as [f|]; [| constructor].
    destruct (_ =? _)%Z; [| constructor].
    rewrite near_no_blobs. repeat constructor.
  - destruct k; [| constructor]. rewrite near_no_blobs. repeat constructor.
Qed.

(** C6.  The correction loop of [track] leaves as it was every marker
    whose position is [Empty]: the correct step is not run and the filter
    state is unchanged.  Hence, after [track] on an aligned tracker, a marker
    returned [Empty] is as the estimation pass left it, that is untouched
    when the marker is static or the Kalman estimator is disabled, and
    otherwise only advanced by the predict step the estimator ran; and
    [set_marker_pos], called with the returned positions, returns normally
    and leaves that marker, hence its stored position, unchanged.  With an
    empty blob list every non-static marker is returned [Empty]. *)
Theorem empty_position_skips_correction (self mid : Tracker.t) (frame : Frames)
    (blobs : list coord) :
  aligned self ->
  length (Tracker.positions mid) = length (markers (Tracker.marker_set mid)) ->
  returns Tracker.correct_markers mid (fun mid' _ =>
    forall i, Tracker.positions mid !! i = Some Empty ->
      markers (Tracker.marker_set mid') !! i
        = markers (Tracker.marker_set mid) !! i) /\
  returns (Tracker.track DELTA frame blobs) self (fun self' out =>
    forall i m, markers (Tracker.marker_set self) !! i = Some m ->
      (out.1 !! i = Some Empty ->
         markers (Tracker.marker_set self') !! i
           = Some (predicted (Tracker.kalman self) m) /\
         (Tracker.kalman self = false \/ is_static m = true ->
          markers (Tracker.marker_set self') !! i = Some m) /\
         returns (set_marker_pos out.1) (Tracker.marker_set self')
           (fun ms' _ =>
              markers ms' !! i = markers (Tracker.marker_set self') !! i /\
              pos <$> markers ms' !! i = Some (pos m))) /\
      (blobs = [] -> is_static m = false -> out.1 !! i = Some Empty)).
Proof.
  intros Haligned Hmid. split.
  { destruct mid as [ms fl k n bl ps es]. simpl in Hmid |- *.
    eapply returns_eq; [apply correction_pass; exact Hmid |]. simpl.
    intros i Hempty. rewrite lookup_zip_with, Hempty.
    destruct (markers ms !! i); reflexivity. }
  revert Haligned.
  destruct self as [ms fl k n bl0 ps0 es]. unfold aligned. simpl.
  intros Hlen.
  destruct (track_eq DELTA ms fl k n bl0 ps0 es frame blobs Hlen)
    as (es' & ps' & Heq & Hes' & Hcand & [Hps' Hshape]).
  rewrite length_fmap in Hps'.
  eapply returns_eq; [exact Heq |]. simpl.
  intros i m Hm. split.
  - intros Hempty.
    assert (Hafter :
      zip_with (fun m p => corrected p m) (predicted k <$> markers ms) ps' !! i
      = Some (predicted k m)).
    { apply lookup_zip_with_Some. exists (predicted k m), Empty.
      split; [reflexivity |]. split; [| exact Hempty].
      rewrite list_lookup_fmap, Hm. reflexivity. }
    split; [exact Hafter |]. split.
    + intros [-> | Hs]; rewrite Hafter; f_equal.
      * apply predicted_disabled.
      * apply predicted_static. exact Hs.
    + eapply returns_eq.
      * apply set_marker_pos_agree.
        simpl. rewrite length_zip_with, length_fmap. lia.
      * unfold write_back. simpl.
        assert (Hwb :
          zip_with write_back_marker
            (zip_with (fun m p => corrected p m) (predicted k <$> markers ms) ps')
            ps' !! i = Some (predicted k m)).
        { apply lookup_zip_with_Some. exists (predicted k m), Empty.
          split; [reflexivity |]. split; [exact Hafter | exact Hempty]. }
        rewrite Hwb, Hafter. split; [reflexivity |]. simpl.
        rewrite predicted_pos. reflexivity.
  - intros -> Hs. apply Hshape.
    rewrite list_lookup_fmap, (Hcand i m Hm), Hs. simpl. f_equal.
    apply all_invisible_merge. apply candidates_no_blobs.
Qed.

(** On a tracker just constructed, a static marker is returned [Empty],
    not at its stored position, and its diagnostics slot is [None]. *)
Lemma static_marker_is_returned_empty frame0 ms naive optical_flow kalman
    frame blobs i m :
  markers ms !! i = Some m -> is_static m = true ->
  returns (Tracker.track DELTA frame blobs)
    (Tracker.__init__ frame0 ms naive optical_flow kalman)
    (fun _ out => out.1 !! i = Some Empty /\ out.2 !! i = Some None).
Proof.
  intros Hm Hs. unfold Tracker.__init__.
  destruct (track_eq DELTA ms
              (if optical_flow
               then Some (Flow_init (color frame0) (get_markers_pos_2d ms))
               else None)
              kalman naive None [] (replicate (length (markers ms)) None)
              frame blobs (length_replicate _ _))
    as (es' & ps' & Heq & Hes' & Hcand & [Hps' Hshape]).
  eapply returns_eq; [exact Heq |]. simpl.
  assert (Hslot : es' !! i = Some None).
  { rewrite (Hcand i m Hm), Hs. apply lookup_replicate_2.
    eapply lookup_lt_Some. exact Hm. }
  split; [| exact Hslot].
  apply Hshape. rewrite list_lookup_fmap, Hslot. reflexivity.
Qed.
End TrackerTick.

Section NaiveScenario.
Context `{C : Collaborators}.

Lemma clamp_inside (hi v : Z) : (0 <= v <= hi)%Z -> clamp 0 hi v = v.
Proof. unfold clamp. lia. Qed.

(** C5, as the code has it.  One non-static marker stored at (10, 10),
    naive estimator only, [DELTA = 8], blob list [[(12, 11)]], in a crop
    that contains (12, 11): [track] returns the position (12, 11) with
    visibility true for the marker, and the correction loop feeds (12, 11)
    to the correct step of the marker's filter, the [kalman] flag being
    false: the flag only disables the Kalman estimator. *)
Theorem naive_scenario (self : Tracker.t) (m : Marker) (frame : Frames) :
  markers (Tracker.marker_set self) = [m] ->
  pos m = (10, 10)%Z ->
  is_static m = false ->
  Tracker.naive self = true ->
  Tracker.optical_flow self = None ->
  Tracker.kalman self = false ->
  aligned self ->
  (12 < width frame)%Z ->
  (11 < height frame)%Z ->
  returns (Tracker.track 8 frame [(12, 11)%Z]) self (fun self' out =>
    out.1 = [Valid (mkPosition (12, 11)%Z true)] /\
    markers (Tracker.marker_set self') = [correct_from_kalman (12, 11)%Z m]).
Proof.
  destruct self as [[nm mks off] fl k n bl0 ps0 es]. unfold aligned. simpl.
  intros -> Hpos Hs -> -> -> Hlen Hw Hh.
  destruct m as [mn mp mst mk]. simpl in Hpos, Hs. subst mp mst.
  destruct es as [|e [|e' es]]; try discriminate. clear Hlen.
  eapply returns_eq.
  { unfold Tracker.track. cbn. reflexivity. }
  cbn. unfold Position_check_bounds, coord_floordiv, coord_add. cbn.
  change ((0 + 12) `div` (0 + 1))%Z with 12%Z.
  change ((0 + 11) `div` (0 + 1))%Z with 11%Z.
  rewrite !clamp_inside by lia. split; reflexivity.
Qed.
End NaiveScenario.

(** ** Overlap resolution *)

Section Overlap.
Context `{C : Collaborators}.

Lemma range_split (a b c : nat) :
  (a <= b < c)%nat -> range a c = range a b ++ b :: range (b + 1) c.
Proof.
  intros H. unfold range.
  replace (c - a)%nat with ((b - a) + Datatypes.S (c - (b + 1)))%nat by lia.
  rewrite seq_app. simpl.
  replace (a + (b - a))%nat with b by lia.
  replace (Datatypes.S b) with (b + 1)%nat by lia. reflexivity.
Qed.

Lemma elem_of_range (a b x : nat) : x ∈ range a b <-> (a <= x < b)%nat.
Proof. unfold range. rewrite elem_of_seq. lia. Qed.

Lemma length_resolved ms ps i j : length (resolved ms ps i j) = length ps.
Proof.
  unfold resolved.
  destruct (ps !! i) as [[|pi]|]; try reflexivity.
  destruct (ps !! j) as [[|pj]|]; try reflexivity.
  destruct (markers ms !! i); try reflexivity.
  destruct (markers ms !! j); try reflexivity.
  destruct (_ <? _)%Z; apply length_insert.
Qed.

Lemma sole_overlap_spec ps i j a b :
  sole_overlap ps i j = true ->
  (a < b < length ps)%nat -> ~ (a = i /\ b = j) ->
  exists pa pb, ps !! a = Some pa /\ ps !! b = Some pb /\
                overlapping pa pb = false.
Proof.
  intros Hsole Hab Hne. unfold sole_overlap in Hsole.
  rewrite forallb_forall in Hsole.
  assert (Ha : In a (range 0 (length ps))).
  { apply list_elem_of_In, elem_of_range. lia. }
  specialize (Hsole a Ha). rewrite forallb_forall in Hsole.
  assert (Hb : In b (range (a + 1) (length ps))).
  { apply list_elem_of_In, elem_of_range. lia. }
  specialize (Hsole b Hb).
  rewrite bool_decide_eq_false_2 in Hsole by exact Hne. simpl in Hsole.
  destruct (lookup_lt_is_Some_2 ps a ltac:(lia)) as [pa Hpa].
  destruct (lookup_lt_is_Some_2 ps b ltac:(lia)) as [pb Hpb].
  rewrite Hpa, Hpb in Hsole. exists pa, pb.
  split; [exact Hpa |]. split; [exact Hpb |].
  apply negb_true_iff. exact Hsole.
Qed.

Lemma check_pair_sole ms fl k n bl ps es i j a b :
  sole_overlap ps i j = true ->
  (a < b < length ps)%nat -> ~ (a = i /\ b = j) ->
  check_pair a b (Tracker.mk ms fl k n bl ps es)
  = (Tracker.mk ms fl k n bl ps es, Ok tt).
Proof.
  intros Hsole Hab Hne.
  destruct (sole_overlap_spec ps i j a b Hsole Hab Hne)
    as (pa & pb & Hpa & Hpb & Hov).
  eapply check_pair_skip; eassumption.
Qed.

(** The inner loop over [range lo hi] finds nothing to correct when the
    pair [(i, j)] is not among the pairs it visits. *)
Lemma inner_loop_sole ms fl k n bl ps es i j a lo hi :
  sole_overlap ps i j = true ->
  (a < lo)%nat -> (hi <= length ps)%nat ->
  (a = i -> ~ (lo <= j < hi)%nat) ->
  for_each (range lo hi) (check_pair a) (Tracker.mk ms fl k n bl ps es)
  = (Tracker.mk ms fl k n bl ps es, Ok tt).
Proof.
  intros Hsole Hlo Hhi Hout. apply for_each_skip. intros b Hb.
  apply elem_of_range in Hb.
  apply (check_pair_sole ms fl k n bl ps es i j); [exact Hsole | lia |].
  intros [-> ->]. apply Hout; [reflexivity | lia].
Qed.

Lemma outer_loop_sole ms fl k n bl ps es i j lo hi len :
  sole_overlap ps i j = true ->
  len = length ps ->
  ~ (lo <= i < hi)%nat ->
  for_each (range lo hi) (fun a => for_each (range (a + 1) len) (check_pair a))
    (Tracker.mk ms fl k n bl ps es)
  = (Tracker.mk ms fl k n bl ps es, Ok tt).
Proof.
  intros Hsole -> Hout. apply for_each_skip. intros a Ha.
  apply elem_of_range in Ha.
  apply (inner_loop_sole ms fl k n bl ps es i j); [exact Hsole | lia | lia |].
  intros ->. lia.
Qed.

Lemma check_tracking_sole ms fl k n bl ps es i j pi pj mi mj :
  (i < j)%nat ->
  ps !! i = Some (Valid pi) -> ps !! j = Some (Valid pj) ->
  position pi = position pj ->
  markers ms !! i = Some mi -> markers ms !! j = Some mj ->
  sole_overlap ps i j = true ->
  sole_overlap (resolved ms ps i j) i j = true ->
  Tracker.check_tracking (Tracker.mk ms fl k n bl ps es)
  = (Tracker.mk ms fl k n bl (resolved ms ps i j) es, Ok tt).
Proof.
  intros Hij Hi Hj Heq Hmi Hmj Hsole Hsole'.
  assert (Hjlt : (j < length ps)%nat) by (eapply lookup_lt_Some; exact Hj).
  rewrite check_tracking_unfold. cbn [Tracker.positions].
  rewrite (range_split 0 i (length ps)) by lia.
  rewrite for_each_app.
  erewrite bind_ok.
  2:{ apply (outer_loop_sole ms fl k n bl ps es i j);
        [exact Hsole | reflexivity | lia]. }
  cbn [for_each].
  erewrite bind_ok.
  2:{ rewrite (range_split (i + 1) j (length ps)) by lia.
      rewrite for_each_app.
      erewrite bind_ok.
      2:{ apply (inner_loop_sole ms fl k n bl ps es i j);
            [exact Hsole | lia | lia | lia]. }
      cbn [for_each].
      erewrite bind_ok.
      2:{ eapply check_pair_overlap; eassumption. }
      apply (inner_loop_sole ms fl k n bl _ es i j);
        [exact Hsole' | lia | rewrite length_resolved; lia | lia]. }
  apply (outer_loop_sole ms fl k n bl _ es i j);
    [exact Hsole' | rewrite length_resolved; reflexivity | lia].
Qed.

End Overlap.

(** ** A tick whose image cannot be loaded *)

Section LoadFailure.
Context `{C : Collaborators}.
Variable DELTA : Z.
Variable quit_pressed : Z -> bool.

(** C7, as the code has it.  When the loader has no image for the index
    the loop has just advanced to: on the [_process_after_loading] path
    nothing is dispatched and the whole state, frame and markers, is left
    as it was; on the [_process_while_loading] path, the one [process]
    takes, the tracking pass on the frame already held has been
    dispatched before the load was attempted, so the handler is the one
    that pass leaves, while the frame is left as it was and the index has
    advanced by one; and the loop of [process] goes on from that state,
    with the next index. *)
Theorem load_failure_skips_update (self : ProcessImage.t) :
  (ProcessImage.load_img (ProcessImage.path self) (ProcessImage.index self + 1)).1
    = None \/
  (ProcessImage.load_img (ProcessImage.path self) (ProcessImage.index self + 1)).2
    = None ->
  ProcessImage._process_after_loading DELTA (advanced self)
    = (advanced self, Ok false) /\
  ProcessImage.process_body DELTA quit_pressed self
    = (let '(handler, outcome) :=
         ImageProcessingHandler.send_process DELTA (ProcessImage.frames self) 1
           (ProcessImage.process_handler self) in
       (ProcessImage.mk (ProcessImage.path self) (ProcessImage.start_index self)
          (ProcessImage.end_index self) (ProcessImage.index self + 1)%Z
          (ProcessImage.frames self) handler,
        match outcome with
        | Ok _ => Ok true
        | Raise e => Raise e
        end)) /\
  (forall fuel,
     (ProcessImage.index self =? ProcessImage.end_index self)%Z = false ->
     (ImageProcessingHandler.send_process DELTA (ProcessImage.frames self) 1
        (ProcessImage.process_handler self)).2 = Ok tt ->
     ProcessImage.process_loop DELTA quit_pressed (S fuel) self
     = ProcessImage.process_loop DELTA quit_pressed fuel
         (ProcessImage.mk (ProcessImage.path self) (ProcessImage.start_index self)
            (ProcessImage.end_index self) (ProcessImage.index self + 1)%Z
            (ProcessImage.frames self)
            (ImageProcessingHandler.send_process DELTA (ProcessImage.frames self) 1
               (ProcessImage.process_handler self)).1)).
Proof.
  intros Hfail. destruct self as [p si ei ix fr h].
  cbn [ProcessImage.path ProcessImage.start_index ProcessImage.end_index
       ProcessImage.index ProcessImage.frames ProcessImage.process_handler]
    in Hfail |- *.
  assert (Hupdate : forall s : ProcessImage.t,
    ProcessImage._update_img (ProcessImage.load_img p (ix + 1)).1
      (ProcessImage.load_img p (ix + 1)).2 s = (s, Ok false)).
  { intros s. destruct (ProcessImage.load_img p (ix + 1)) as [[c|] [d|]];
      cbn [fst snd] in Hfail |- *; destruct Hfail as [Hc|Hd];
      try discriminate; reflexivity. }
  assert (Hbody :
    ProcessImage.process_body DELTA quit_pressed (ProcessImage.mk p si ei ix fr h)
    = (let '(handler, outcome) :=
         ImageProcessingHandler.send_process DELTA fr 1 h in
       (ProcessImage.mk p si ei (ix + 1)%Z fr handler,
        match outcome with
        | Ok _ => Ok true
        | Raise e => Raise e
        end))).
  { unfold ProcessImage.process_body.
    erewrite bind_ok by reflexivity.
    unfold ProcessImage.with_index.
    cbn [ProcessImage.path ProcessImage.start_index ProcessImage.end_index
         ProcessImage.index ProcessImage.frames ProcessImage.process_handler].
    unfold ProcessImage._process_while_loading.
    destruct (ImageProcessingHandler.send_process DELTA fr 1 h)
      as [h' [[]|e]] eqn:Hsend.
    - erewrite bind_ok.
      2:{ erewrite bind_ok by reflexivity.
          erewrite bind_ok.
          2:{ unfold zoom.
              cbn [ProcessImage.frames ProcessImage.process_handler].
              rewrite Hsend. reflexivity. }
          erewrite bind_ok by reflexivity.
          unfold ProcessImage.with_process_handler.
          cbn [ProcessImage.path ProcessImage.start_index ProcessImage.end_index
               ProcessImage.index ProcessImage.frames
               ProcessImage.process_handler].
          destruct (ProcessImage.load_img p (ix + 1)) as [c d].
          cbn [fst snd] in Hupdate.
          erewrite bind_ok by reflexivity. apply Hupdate. }
      reflexivity.
    - erewrite bind_raise; [reflexivity |].
      erewrite bind_ok by reflexivity.
      erewrite bind_raise; [reflexivity |].
      unfold zoom. cbn [ProcessImage.frames ProcessImage.process_handler].
      rewrite Hsend. reflexivity. }
  split; [| split; [exact Hbody |]].
  - unfold advanced, ProcessImage.with_index.
    cbn [ProcessImage.path ProcessImage.start_index ProcessImage.end_index
         ProcessImage.index ProcessImage.frames ProcessImage.process_handler].
    unfold ProcessImage._process_after_loading, ProcessImage._load_img.
    unfold bind at 1 2, get at 1, ret at 1.
    cbn [ProcessImage.path ProcessImage.index].
    destruct (ProcessImage.load_img p (ix + 1)) as [c d].
    cbn [fst snd] in Hupdate.
    unfold bind. rewrite Hupdate. reflexivity.
  - intros fuel Hend Hsend. cbn [ProcessImage.process_loop].
    erewrite bind_ok by reflexivity.
    cbn [ProcessImage.index ProcessImage.end_index]. rewrite Hend.
    unfold bind. rewrite Hbody.
    destruct (ImageProcessingHandler.send_process DELTA fr 1 h) as [h' r].
    cbn [fst snd] in Hsend |- *. rewrite Hsend. reflexivity.
Qed.
End LoadFailure.

(** ** The model run on concrete inputs *)

Section Runs.
Open Scope Z_scope.

(** C1.  One static marker stored at (10, 10) and a blob list
    [[(12, 11)]]: [track] returns [Empty] for the marker, not (10, 10),
    and [None], not an empty list, as its diagnostics. *)
Theorem static_marker_returned_empty :
  (is_static <$> markers (Tracker.marker_set static_tracker)) = [true] /\
  (pos <$> markers (Tracker.marker_set static_tracker)) = [(10, 10)] /\
  (Tracker.track 8 (frame_of [(12, 11)]) [(12, 11)] static_tracker).2
    = Ok ([Empty], [None]).
Proof. repeat apply conj; vm_compute; reflexivity. Qed.

Lemma track_lengths_witness :
  aligned naive_tracker /\
  returns (Tracker.track 8 (frame_of [(12, 11)]) [(12, 11)]) naive_tracker
    (fun self' out =>
       length out.1 = length (markers (Tracker.marker_set naive_tracker)) /\
       length out.2 = length (markers (Tracker.marker_set naive_tracker)) /\
       (forall i m, markers (Tracker.marker_set naive_tracker) !! i = Some m ->
          is_static m = false ->
          out.2 !! i =
            Some (Some (candidates 8 (Tracker.naive naive_tracker)
                          (flow_updated (frame_of [(12, 11)])
                             (Tracker.optical_flow naive_tracker))
                          (Tracker.kalman naive_tracker) [(12, 11)] i m))) /\
       same_shape (_merge_positions <$> out.2) out.1 /\
       length (markers (Tracker.marker_set self'))
         = length (markers (Tracker.marker_set naive_tracker)) /\
       out = (Tracker.positions self', Tracker.estimated_positions self') /\
       aligned self').
Proof.
  split; [reflexivity |].
  apply (track_lengths 8 naive_tracker (frame_of [(12, 11)]) [(12, 11)]).
  reflexivity.
Defined.

Lemma empty_position_skips_correction_witness :
  aligned naive_tracker /\
  length (Tracker.positions unmatched)
    = length (markers (Tracker.marker_set unmatched)) /\
  returns Tracker.correct_markers unmatched (fun mid' _ =>
    forall i, Tracker.positions unmatched !! i = Some Empty ->
      markers (Tracker.marker_set mid') !! i
        = markers (Tracker.marker_set unmatched) !! i) /\
  returns (Tracker.track 8 (frame_of []) []) naive_tracker (fun self' out =>
    forall i m, markers (Tracker.marker_set naive_tracker) !! i = Some m ->
      (out.1 !! i = Some Empty ->
         markers (Tracker.marker_set self') !! i
           = Some (predicted (Tracker.kalman naive_tracker) m) /\
         (Tracker.kalman naive_tracker = false \/ is_static m = true ->
          markers (Tracker.marker_set self') !! i = Some m) /\
         returns (set_marker_pos out.1) (Tracker.marker_set self')
           (fun ms' _ =>
              markers ms' !! i = markers (Tracker.marker_set self') !! i /\
              pos <$> markers ms' !! i = Some (pos m))) /\
      (@nil coord = [] -> is_static m = false -> out.1 !! i = Some Empty)).
Proof.
  split; [reflexivity |]. split; [reflexivity |].
  apply (empty_position_skips_correction 8 naive_tracker unmatched
           (frame_of []) []);
    reflexivity.
Defined.

Lemma naive_scenario_witness :
  markers (Tracker.marker_set naive_tracker) = [marker_at "a" (10, 10) false] /\
  (12 < width (frame_of [(12, 11)])) /\
  (11 < height (frame_of [(12, 11)])) /\
  returns (Tracker.track 8 (frame_of [(12, 11)]) [(12, 11)]) naive_tracker
    (fun self' out =>
       out.1 = [Valid (mkPosition (12, 11) true)] /\
       markers (Tracker.marker_set self')
         = [correct_from_kalman (12, 11) (marker_at "a" (10, 10) false)]).
Proof.
  split; [reflexivity |]. split; [reflexivity |]. split; [reflexivity |].
  apply (naive_scenario naive_tracker (marker_at "a" (10, 10) false)
           (frame_of [(12, 11)]));
    reflexivity.
Defined.

(** C5 as claimed fails: the [kalman] flag is false and the filter of the
    marker has nevertheless received the correct step. *)
Lemma correction_runs_with_kalman_disabled :
  Tracker.kalman naive_tracker = false /\
  (kalman_state <$> markers (Tracker.marker_set naive_tracker)) = [[]] /\
  (kalman_state <$>
     markers (Tracker.marker_set
        (Tracker.track 8 (frame_of [(12, 11)]) [(12, 11)] naive_tracker).1))
    = [[Corrected (12, 11)]].
Proof. repeat apply conj; vm_compute; reflexivity. Qed.

(** C2 as claimed fails on a tie: both markers are merged at (50, 50), at
    the same distance from their stored positions (48, 50) and (52, 50);
    the lower index is put back to (48, 50) and the higher index keeps
    (50, 50).  It also fails for a pair that is not alone: with three
    markers merged at (50, 50), the first loses to the second before it is
    compared with the third, so of the pair made of the first and the third
    neither keeps (50, 50), although the first is the nearer of the two. *)
Lemma tie_keeps_the_higher_index :
  (dist2 (50, 50) (48, 50) = dist2 (50, 50) (52, 50) /\
   (Tracker.track 8 (frame_of [(50, 50)]) [(50, 50)] two_marker_tracker).2
     = Ok ([Valid (mkPosition (48, 50) true); Valid (mkPosition (50, 50) true)],
           [Some [mkPosition (48, 50) false; mkPosition (50, 50) true];
            Some [mkPosition (52, 50) false; mkPosition (50, 50) true]]) /\
   (_merge_positions <$>
      [Some [mkPosition (48, 50) false; mkPosition (50, 50) true];
       Some [mkPosition (52, 50) false; mkPosition (50, 50) true]])
     = [Valid (mkPosition (50, 50) true); Valid (mkPosition (50, 50) true)]) /\
  (dist2 (50, 50) (47, 50) < dist2 (50, 50) (50, 45) /\
   (Tracker.track 8 (frame_of [(50, 50)]) [(50, 50)] three_marker_tracker).2
     = Ok ([Valid (mkPosition (47, 50) true); Valid (mkPosition (50, 50) true);
            Valid (mkPosition (50, 45) true)],
           [Some [mkPosition (47, 50) false; mkPosition (50, 50) true];
            Some [mkPosition (50, 51) false; mkPosition (50, 50) true];
            Some [mkPosition (50, 45) false; mkPosition (50, 50) true]]) /\
   (_merge_positions <$>
      [Some [mkPosition (47, 50) false; mkPosition (50, 50) true];
       Some [mkPosition (50, 51) false; mkPosition (50, 50) true];
       Some [mkPosition (50, 45) false; mkPosition (50, 50) true]])
     = [Valid (mkPosition (50, 50) true); Valid (mkPosition (50, 50) true);
        Valid (mkPosition (50, 50) true)]).
Proof. repeat apply conj; vm_compute; reflexivity. Qed.

Lemma load_failure_skips_update_witness :
  (ProcessImage.load_img (ProcessImage.path stalled)
     (ProcessImage.index stalled + 1)).1 = None /\
  ProcessImage._process_after_loading 8 (advanced stalled)
    = (advanced stalled, Ok false) /\
  ProcessImage.process_body 8 (fun _ => false) stalled
    = (let '(handler, outcome) :=
         ImageProcessingHandler.send_process 8 (ProcessImage.frames stalled) 1
           (ProcessImage.process_handler stalled) in
       (ProcessImage.mk (ProcessImage.path stalled)
          (ProcessImage.start_index stalled) (ProcessImage.end_index stalled)
          (ProcessImage.index stalled + 1) (ProcessImage.frames stalled) handler,
        match outcome with
        | Ok _ => Ok true
        | Raise e => Raise e
        end)) /\
  ProcessImage.process_loop 8 (fun _ => false) 1 stalled
    = ProcessImage.process_loop 8 (fun _ => false) 0
        (ProcessImage.mk (ProcessImage.path stalled)
           (ProcessImage.start_index stalled) (ProcessImage.end_index stalled)
           (ProcessImage.index stalled + 1) (ProcessImage.frames stalled)
           (ImageProcessingHandler.send_process 8 (ProcessImage.frames stalled) 1
              (ProcessImage.process_handler stalled)).1).
Proof.
  assert (Hload : (ProcessImage.load_img (ProcessImage.path stalled)
                     (ProcessImage.index stalled + 1)).1 = None)
    by (vm_compute; reflexivity).
  destruct (load_failure_skips_update 8 (fun _ => false) stalled (or_introl Hload))
    as (Hafter & Hbody & Hloop).
  split; [exact Hload |]. split; [exact Hafter |]. split; [exact Hbody |].
  apply (Hloop 0%nat); vm_compute; reflexivity.
Defined.

(** C7 as claimed fails on the path [process] takes: the loader has no
    image for index 2, and the marker, stored at (10, 10) before the pass
    of the loop, is stored at (12, 11) after it: the tracking pass was
    dispatched on the frame already held. *)
Lemma failed_load_still_tracks :
  (ProcessImage.load_img (ProcessImage.path stalled)
     (ProcessImage.index stalled + 1)).1 = None /\
  (get_markers_pos_2d <$> ProcessImage.marker_sets stalled) = [[(10, 10)]] /\
  (ProcessImage.process_body 8 (fun _ => false) stalled).2 = Ok true /\
  (get_markers_pos_2d <$>
     ProcessImage.marker_sets
       (ProcessImage.process_body 8 (fun _ => false) stalled).1) = [[(12, 11)]] /\
  ProcessImage.frames (ProcessImage.process_body 8 (fun _ => false) stalled).1
    = ProcessImage.frames stalled.
Proof. repeat apply conj; vm_compute; reflexivity. Qed.
End Runs.

(** * Further properties of the code *)

(** ** More on merging *)

Lemma coord_add_comm (a b : coord) : coord_add a b = coord_add b a.
Proof. unfold coord_add. f_equal; lia. Qed.

Lemma coord_sum_permutation (l l' : list coord) :
  l ≡ₚ l' -> coord_sum l = coord_sum l'.
Proof.
  induction 1 as [| x l l' _ IH | x y l | l l' l'' _ IH1 _ IH2].
  - reflexivity.
  - simpl. rewrite IH. reflexivity.
  - simpl. rewrite <- !coord_add_assoc. f_equal. apply coord_add_comm.
  - congruence.
Qed.

(** X1.  The merge depends only on the visible candidates and not on their
    order: two candidate lists whose visible coordinates are the same up to
    a permutation merge to the same result, whatever invisible candidates
    each holds and wherever they stand. *)
Theorem merge_ignores_order_and_invisible (l l' : list Position) :
  visible_candidates l ≡ₚ visible_candidates l' ->
  _merge_positions (Some l) = _merge_positions (Some l').
Proof.
  intros Hperm. rewrite !_merge_positions_spec. unfold spec_merge.
  pose proof (Permutation_length Hperm) as Hlen.
  destruct (visible_candidates l) as [|c v] eqn:Hv;
    destruct (visible_candidates l') as [|c' v'] eqn:Hv';
    try discriminate; [reflexivity |].
  unfold average. rewrite (coord_sum_permutation _ _ Hperm), Hlen. reflexivity.
Qed.

Lemma sum_within (l : list coord) (xlo xhi ylo yhi : Z) :
  Forall (fun c => (xlo <= c.1 <= xhi)%Z /\ (ylo <= c.2 <= yhi)%Z) l ->
  (Z.of_nat (length l) * xlo <= (coord_sum l).1 <= Z.of_nat (length l) * xhi)%Z /\
  (Z.of_nat (length l) * ylo <= (coord_sum l).2 <= Z.of_nat (length l) * yhi)%Z.
Proof.
  induction 1 as [|c l [Hx Hy] _ IH].
  - simpl. lia.
  - change (coord_sum (c :: l)) with (coord_add c (coord_sum l)).
    unfold coord_add. cbn [fst snd length]. lia.
Qed.

(** X2.  A merged position never leaves the box that holds the visible
    candidates: each coordinate of the floor average lies between the
    smallest and the largest coordinate of the visible candidates. *)
Theorem merge_within_visible_box (l : list Position) (p : Position)
    (xlo xhi ylo yhi : Z) :
  _merge_positions (Some l) = Valid p ->
  Forall (fun c => (xlo <= c.1 <= xhi)%Z /\ (ylo <= c.2 <= yhi)%Z)
         (visible_candidates l) ->
  (xlo <= (position p).1 <= xhi)%Z /\ (ylo <= (position p).2 <= yhi)%Z.
Proof.
  rewrite _merge_positions_spec. unfold spec_merge. intros Hmerge Hbox.
  destruct (visible_candidates l) as [|c v] eqn:Hv; [discriminate |].
  injection Hmerge as <-. cbn [position].
  destruct (sum_within _ _ _ _ _ Hbox) as [Hx Hy].
  set (n := Z.of_nat (length (c :: v))) in *.
  assert (Hn : (0 < n)%Z) by (unfold n; simpl; lia).
  unfold average, coord_floordiv. cbn [fst snd]. fold n.
  repeat split.
  - apply Z.div_le_lower_bound; lia.
  - apply Z.div_le_upper_bound; lia.
  - apply Z.div_le_lower_bound; lia.
  - apply Z.div_le_upper_bound; lia.
Qed.

Lemma merge_ignores_order_and_invisible_witness :
  _merge_positions
    (Some [mkPosition (1, 2)%Z true; mkPosition (9, 9)%Z false;
           mkPosition (4, 7)%Z true])
  = _merge_positions
      (Some [mkPosition (4, 7)%Z true; mkPosition (1, 2)%Z true]).
Proof.
  apply merge_ignores_order_and_invisible. apply perm_swap.
Defined.

Lemma merge_within_visible_box_witness :
  (1 <= 2 <= 4)%Z /\ (2 <= 4 <= 7)%Z.
Proof.
  apply (merge_within_visible_box
           [mkPosition (1, 2)%Z true; mkPosition (9, 9)%Z false;
            mkPosition (4, 7)%Z true]
           (mkPosition (2, 4)%Z true) 1 4 2 7).
  - reflexivity.
  - repeat constructor; simpl; lia.
Defined.


(** ** More on the write-back of positions *)

Section WriteBack.
Context `{C : Collaborators}.

Lemma write_back_marker_twice (m : Marker) (p : Merged) :
  write_back_marker (write_back_marker m p) p = write_back_marker m p.
Proof. destruct p; reflexivity. Qed.

Lemma write_back_twice (positions : list Merged) (ms : MarkerSet) :
  write_back positions (write_back positions ms) = write_back positions ms.
Proof.
  unfold write_back, with_markers. simpl. f_equal.
  apply list_eq. intros i. rewrite !lookup_zip_with.
  destruct (markers ms !! i) as [m|]; [| reflexivity]. simpl.
  destruct (positions !! i) as [p|]; [| reflexivity]. simpl.
  rewrite write_back_marker_twice. reflexivity.
Qed.

(** X3.  [set_marker_pos] writes stored positions and nothing else, and
    writing the same positions again changes nothing: whatever the
    positions and the outcome, the marker set keeps its name, its offset
    and its number of markers, every marker keeps its name, its static flag
    and its filter state, and calling [set_marker_pos] twice with the same
    positions leaves the same marker set, with the same outcome, as calling
    it once. *)
Theorem set_marker_pos_only_moves (positions : list Merged) (ms : MarkerSet) :
  (set_marker_pos positions ;; set_marker_pos positions) ms
    = set_marker_pos positions ms /\
  set_name (set_marker_pos positions ms).1 = set_name ms /\
  offset (set_marker_pos positions ms).1 = offset ms /\
  length (markers (set_marker_pos positions ms).1) = length (markers ms) /\
  (name <$> markers (set_marker_pos positions ms).1) = (name <$> markers ms) /\
  (is_static <$> markers (set_marker_pos positions ms).1)
    = (is_static <$> markers ms) /\
  (kalman_state <$> markers (set_marker_pos positions ms).1)
    = (kalman_state <$> markers ms).
Proof.
  destruct (decide (length (markers ms) = length positions)) as [Heq|Hne].
  - rewrite (set_marker_pos_agree positions ms Heq). cbn [fst].
    assert (Hfield : forall (A : Type) (f : Marker -> A),
      (forall m p, f (write_back_marker m p) = f m) ->
      f <$> markers (write_back positions ms) = f <$> markers ms).
    { intros A f Hf. unfold write_back. simpl. apply list_eq. intros i.
      rewrite !list_lookup_fmap, lookup_zip_with.
      destruct (markers ms !! i) as [m|] eqn:Hm; [| reflexivity]. simpl.
      destruct (lookup_lt_is_Some_2 positions i) as [p Hp].
      { rewrite <- Heq. eapply lookup_lt_Some. exact Hm. }
      rewrite Hp. simpl. rewrite Hf. reflexivity. }
    split.
    { erewrite bind_ok by (apply set_marker_pos_agree; exact Heq).
      rewrite set_marker_pos_agree.
      - rewrite write_back_twice. reflexivity.
      - unfold write_back. simpl. rewrite length_zip_with. lia. }
    split; [reflexivity |]. split; [reflexivity |].
    split; [unfold write_back; simpl; rewrite length_zip_with; lia |].
    split; [apply Hfield; intros m [|q]; reflexivity |].
    split; apply Hfield; intros m [|q]; reflexivity.
  - assert (Hrun : set_marker_pos positions ms = (ms, Raise AssertionError)).
    { unfold set_marker_pos, bind, get. rewrite decide_False by exact Hne.
      reflexivity. }
    rewrite Hrun. cbn [fst]. split; [| repeat split].
    erewrite bind_raise by exact Hrun. reflexivity.
Qed.
End WriteBack.


(** ** More on overlap resolution *)

Section MoreOverlap.
Context `{C : Collaborators}.

Lemma no_overlap_spec ps a b :
  no_overlap ps = true -> (a < b < length ps)%nat ->
  exists pa pb, ps !! a = Some pa /\ ps !! b = Some pb /\
                overlapping pa pb = false.
Proof.
  intros Hno Hab. unfold no_overlap in Hno.
  rewrite forallb_forall in Hno.
  assert (Ha : In a (range 0 (length ps))).
  { apply list_elem_of_In, elem_of_range. lia. }
  specialize (Hno a Ha). rewrite forallb_forall in Hno.
  assert (Hb : In b (range (a + 1) (length ps))).
  { apply list_elem_of_In, elem_of_range. lia. }
  specialize (Hno b Hb).
  destruct (lookup_lt_is_Some_2 ps a ltac:(lia)) as [pa Hpa].
  destruct (lookup_lt_is_Some_2 ps b ltac:(lia)) as [pb Hpb].
  rewrite Hpa, Hpb in Hno. exists pa, pb.
  split; [exact Hpa |]. split; [exact Hpb |].
  apply negb_true_iff. exact Hno.
Qed.

(** X4.  When no two entries of [positions] are coordinate-equal and
    non-empty, [check_tracking] returns normally and leaves the tracker
    exactly as it was, whatever the marker set holds. *)
Theorem check_tracking_without_overlap (self : Tracker.t) :
  no_overlap (Tracker.positions self) = true ->
  Tracker.check_tracking self = (self, Ok tt).
Proof.
  destruct self as [ms fl k n bl ps es]. cbn [Tracker.positions]. intros Hno.
  rewrite check_tracking_unfold. cbn [Tracker.positions].
  apply for_each_skip. intros a Ha. apply elem_of_range in Ha.
  apply for_each_skip. intros b Hb. apply elem_of_range in Hb.
  destruct (no_overlap_spec ps a b Hno ltac:(lia)) as (pa & pb & Hpa & Hpb & Hov).
  eapply check_pair_skip; eassumption.
Qed.

Lemma kept_or_reverted_refl (m : option Marker) (e : option Merged) :
  kept_or_reverted m e e.
Proof. left. reflexivity. Qed.

Lemma kept_or_reverted_step (ms : MarkerSet) (ps ps1 : list Merged) j pj mj :
  (forall i, kept_or_reverted (markers ms !! i) (ps !! i) (ps1 !! i)) ->
  ps1 !! j = Some (Valid pj) -> markers ms !! j = Some mj ->
  forall i, kept_or_reverted (markers ms !! i) (ps !! i)
              (<[j := reverted mj pj]> ps1 !! i).
Proof.
  intros Hinv Hj Hmj i. destruct (decide (i = j)) as [->|Hne].
  - rewrite list_lookup_insert_eq by (eapply lookup_lt_Some; exact Hj).
    right. destruct (Hinv j) as [Hsame | (p & m' & Hp & Hm' & Hafter)].
    + exists pj, mj. rewrite <- Hsame, Hj. auto.
    + exists p, m'. split; [exact Hp |]. split; [exact Hm' |].
      rewrite Hafter in Hj. injection Hj as <-.
      rewrite Hmj in Hm'. injection Hm' as <-. reflexivity.
  - rewrite list_lookup_insert_ne by congruence. apply Hinv.
Qed.

Lemma check_tracking_reverts ms fl k n bl ps es :
  (length ps <= length (markers ms))%nat ->
  returns Tracker.check_tracking (Tracker.mk ms fl k n bl ps es)
    (fun s' _ => exists ps',
       s' = Tracker.mk ms fl k n bl ps' es /\ length ps' = length ps /\
       forall i, kept_or_reverted (markers ms !! i) (ps !! i) (ps' !! i)).
Proof.
  intros Hlen.
  pose (J := fun s : Tracker.t => exists ps',
    s = Tracker.mk ms fl k n bl ps' es /\ length ps' = length ps /\
    forall i, kept_or_reverted (markers ms !! i) (ps !! i) (ps' !! i)).
  unfold returns. rewrite check_tracking_unfold. cbn [Tracker.positions].
  apply (returns_for_each _ _ (fun _ => J)).
  - exists ps. split; [reflexivity |]. split; [reflexivity |].
    intros i. apply kept_or_reverted_refl.
  - intros a i s Ha HJ.
    apply lookup_range in Ha. destruct Ha as [-> Ha].
    apply (returns_for_each _ _ (fun _ => J)); [exact HJ |].
    intros b j s1 Hb (ps1 & -> & Hl1 & Hinv).
    apply lookup_range in Hb. destruct Hb as [-> Hb].
    set (i := (0 + a)%nat) in *. set (j := (i + 1 + b)%nat) in *.
    destruct (lookup_lt_is_Some_2 ps1 i ltac:(lia)) as [pi Hpi].
    destruct (lookup_lt_is_Some_2 ps1 j ltac:(lia)) as [pj Hpj].
    destruct (overlapping pi pj) eqn:Hov.
    + destruct (overlapping_valid _ _ Hov) as (p & q & -> & ->).
      destruct (lookup_lt_is_Some_2 (markers ms) i ltac:(lia)) as [mi Hmi].
      destruct (lookup_lt_is_Some_2 (markers ms) j ltac:(lia)) as [mj Hmj].
      eapply returns_eq.
      * eapply check_pair_overlap; try eassumption.
        unfold overlapping in Hov. apply andb_true_iff in Hov.
        destruct Hov as [Hov _]. simpl in Hov. unfold coord_eqb in Hov.
        apply andb_true_iff in Hov. destruct Hov as [Hx Hy].
        apply Z.eqb_eq in Hx, Hy.
        destruct (position p), (position q). simpl in *. congruence.
      * eexists. split; [reflexivity |].
        split; [rewrite length_resolved; exact Hl1 |].
        unfold resolved. rewrite Hpi, Hpj, Hmi, Hmj.
        destruct (_ <? _)%Z; eapply kept_or_reverted_step; eassumption.
    + eapply returns_eq; [eapply check_pair_skip; eassumption |].
      exists ps1. auto.
Qed.

(** X5.  When the marker set has at least as many markers as there are
    positions, [check_tracking] returns normally, touches nothing but
    [positions], keeps their number, and never invents a position: every
    entry is afterwards what it was, or a non-empty entry whose coordinates
    are the stored position of the marker of the same index and whose
    visibility is unchanged; an empty entry stays empty. *)
Theorem check_tracking_keeps_or_reverts (self : Tracker.t) :
  (length (Tracker.positions self)
   <= length (markers (Tracker.marker_set self)))%nat ->
  returns Tracker.check_tracking self (fun self' _ =>
    self' = Tracker.with_positions (Tracker.positions self') self /\
    length (Tracker.positions self') = length (Tracker.positions self) /\
    (forall i,
       kept_or_reverted (markers (Tracker.marker_set self) !! i)
         (Tracker.positions self !! i) (Tracker.positions self' !! i)) /\
    (forall i, Tracker.positions self !! i = Some Empty ->
               Tracker.positions self' !! i = Some Empty)).
Proof.
  destruct self as [ms fl k n bl ps es].
  cbn [Tracker.positions Tracker.marker_set]. intros Hlen.
  eapply returns_mono; [apply check_tracking_reverts; exact Hlen |].
  intros s' _ (ps' & -> & Hl & Hinv). cbn [Tracker.positions].
  split; [reflexivity |]. split; [exact Hl |]. split; [exact Hinv |].
  intros i Hi. destruct (Hinv i) as [Hsame | (p & m' & Hp & _)].
  - rewrite Hsame. exact Hi.
  - rewrite Hi in Hp. discriminate.
Qed.
End MoreOverlap.


(** ** A coinciding pair among other entries *)

Section IsolatedPair.
Context `{C : Collaborators}.

Lemma coord_eqb_eq (a b : coord) : coord_eqb a b = true <-> a = b.
Proof.
  destruct a as [x y], b as [x' y']. unfold coord_eqb. simpl.
  rewrite andb_true_iff, !Z.eqb_eq. split.
  - intros [-> ->]. reflexivity.
  - intros [= -> ->]. auto.
Qed.

Lemma overlapping_coords (a b : Merged) :
  overlapping a b = true ->
  exists p q, a = Valid p /\ b = Valid q /\ position p = position q.
Proof.
  intros Hov. destruct (overlapping_valid _ _ Hov) as (p & q & -> & ->).
  exists p, q. split; [reflexivity |]. split; [reflexivity |].
  unfold overlapping in Hov. apply andb_true_iff in Hov.
  destruct Hov as [Hov _]. apply coord_eqb_eq. exact Hov.
Qed.

Lemma isolated_pair_spec ms ps i j k c d :
  isolated_pair ms ps i j = true ->
  (k < length ps)%nat -> k <> i -> k <> j ->
  c ∈ possible_coords ms ps k -> d ∈ pair_coords ms ps i j -> c <> d.
Proof.
  intros Hiso Hk Hki Hkj Hc Hd Hcd. unfold isolated_pair in Hiso.
  rewrite forallb_forall in Hiso.
  assert (Hin : In k (range 0 (length ps))).
  { apply list_elem_of_In, elem_of_range. lia. }
  specialize (Hiso k Hin).
  rewrite !bool_decide_eq_false_2 in Hiso by assumption. simpl in Hiso.
  rewrite forallb_forall in Hiso.
  specialize (Hiso c (proj1 (list_elem_of_In _ _) Hc)).
  rewrite forallb_forall in Hiso.
  specialize (Hiso d (proj1 (list_elem_of_In _ _) Hd)).
  apply negb_true_iff in Hiso.
  apply (proj2 (coord_eqb_eq c d)) in Hcd. congruence.
Qed.

(** The coordinates of an entry that was kept or reverted are among the
    possible ones. *)
Lemma kept_or_reverted_possible ms ps k e q :
  kept_or_reverted (markers ms !! k) (ps !! k) e -> e = Some (Valid q) ->
  position q ∈ possible_coords ms ps k.
Proof.
  intros [Hsame | (p & m' & Hp & Hm' & Hafter)] He; unfold possible_coords.
  - rewrite <- Hsame, He. apply list_elem_of_here.
  - rewrite Hp, Hm'. rewrite Hafter in He. injection He as <-.
    simpl. apply list_elem_of_further, list_elem_of_here.
Qed.

Lemma pair_coords_elem ms ps i j e q :
  e = ps !! i \/ e = ps !! j \/
  e = resolved ms ps i j !! i \/ e = resolved ms ps i j !! j ->
  e = Some (Valid q) -> position q ∈ pair_coords ms ps i j.
Proof.
  intros He Hq. unfold pair_coords. rewrite !elem_of_app.
  destruct He as [He | [He | [He | He]]]; rewrite <- He, Hq; simpl;
    rewrite list_elem_of_singleton; auto.
Qed.

(** An entry of the pair and a third entry never pass the test of
    [check_tracking]. *)
Lemma isolated_no_overlap ms ps i j k ex ek vx vk :
  isolated_pair ms ps i j = true ->
  (k < length ps)%nat -> k <> i -> k <> j ->
  ex = ps !! i \/ ex = ps !! j \/
  ex = resolved ms ps i j !! i \/ ex = resolved ms ps i j !! j ->
  kept_or_reverted (markers ms !! k) (ps !! k) ek ->
  ex = Some vx -> ek = Some vk ->
  overlapping vx vk = false /\ overlapping vk vx = false.
Proof.
  intros Hiso Hk Hki Hkj Hex Hek Hvx Hvk.
  split; apply not_true_is_false; intros Hov;
    apply overlapping_coords in Hov as (p & q & -> & -> & Hpq).
  - apply (isolated_pair_spec ms ps i j k (position q) (position p) Hiso Hk Hki Hkj).
    + eapply kept_or_reverted_possible; eassumption.
    + eapply pair_coords_elem; eassumption.
    + congruence.
  - apply (isolated_pair_spec ms ps i j k (position p) (position q) Hiso Hk Hki Hkj).
    + eapply kept_or_reverted_possible; eassumption.
    + eapply pair_coords_elem; eassumption.
    + congruence.
Qed.

Lemma examined_next i j a b :
  ~ (a = i /\ b = j) -> examined i j a (b + 1) = examined i j a b.
Proof.
  intros Hne. unfold examined.
  destruct (Nat.ltb_spec i a), (Nat.eqb_spec a i), (Nat.ltb_spec j (b + 1)),
    (Nat.ltb_spec j b); simpl; try reflexivity; lia.
Qed.

Lemma examined_start i j a : (i < j)%nat -> examined i j a (a + 1) = (i <? a)%nat.
Proof.
  intros Hij. unfold examined.
  destruct (Nat.ltb_spec i a), (Nat.eqb_spec a i), (Nat.ltb_spec j (a + 1));
    simpl; try reflexivity; lia.
Qed.

Lemma examined_end i j a len :
  (i < j < len)%nat -> examined i j a len = (i <? a + 1)%nat.
Proof.
  intros Hij. unfold examined.
  destruct (Nat.ltb_spec i a), (Nat.eqb_spec a i), (Nat.ltb_spec j len),
    (Nat.ltb_spec i (a + 1)); simpl; try reflexivity; lia.
Qed.

Lemma resolved_pair_entries ms ps ps1 i j pi pj mi mj :
  i <> j ->
  ps !! i = Some (Valid pi) -> ps !! j = Some (Valid pj) ->
  ps1 !! i = ps !! i -> ps1 !! j = ps !! j ->
  markers ms !! i = Some mi -> markers ms !! j = Some mj ->
  resolved ms ps1 i j !! i = resolved ms ps i j !! i /\
  resolved ms ps1 i j !! j = resolved ms ps i j !! j.
Proof.
  intros Hne Hi Hj H1i H1j Hmi Hmj.
  assert (Hil : (i < length ps)%nat) by (eapply lookup_lt_Some; exact Hi).
  assert (Hjl : (j < length ps)%nat) by (eapply lookup_lt_Some; exact Hj).
  assert (Hil1 : (i < length ps1)%nat).
  { apply lookup_lt_is_Some. rewrite H1i, Hi. eauto. }
  assert (Hjl1 : (j < length ps1)%nat).
  { apply lookup_lt_is_Some. rewrite H1j, Hj. eauto. }
  unfold resolved. rewrite H1i, H1j, Hi, Hj, Hmi, Hmj.
  destruct (_ <? _)%Z.
  - rewrite !list_lookup_insert_ne by congruence.
    rewrite !list_lookup_insert_eq by assumption.
    rewrite H1i, Hi. auto.
  - rewrite !list_lookup_insert_eq by assumption.
    rewrite !list_lookup_insert_ne by congruence.
    rewrite H1j, Hj. auto.
Qed.

(** [check_tracking] on a coinciding pair that no third entry can meet:
    the entries of the pair end as [_correct_overlapping] leaves them. *)
Lemma check_tracking_isolated ms fl k n bl ps es i j pi pj mi mj :
  (i < j)%nat ->
  ps !! i = Some (Valid pi) -> ps !! j = Some (Valid pj) ->
  position pi = position pj ->
  markers ms !! i = Some mi -> markers ms !! j = Some mj ->
  (length ps <= length (markers ms))%nat ->
  isolated_pair ms ps i j = true ->
  returns Tracker.check_tracking (Tracker.mk ms fl k n bl ps es)
    (fun s' _ => exists ps',
       s' = Tracker.mk ms fl k n bl ps' es /\ length ps' = length ps /\
       ps' !! i = resolved ms ps i j !! i /\
       ps' !! j = resolved ms ps i j !! j /\
       forall a, kept_or_reverted (markers ms !! a) (ps !! a) (ps' !! a)).
Proof.
  intros Hij Hi Hj Heq Hmi Hmj Hlen Hiso.
  assert (Hjl : (j < length ps)%nat) by (eapply lookup_lt_Some; exact Hj).
  pose (J := fun (d : bool) (s : Tracker.t) => exists ps',
    s = Tracker.mk ms fl k n bl ps' es /\ length ps' = length ps /\
    ps' !! i = (if d then resolved ms ps i j else ps) !! i /\
    ps' !! j = (if d then resolved ms ps i j else ps) !! j /\
    forall a, kept_or_reverted (markers ms !! a) (ps !! a) (ps' !! a)).
  assert (Hloop :
    returns
      (for_each (range 0 (length ps)) (fun a =>
         for_each (range (a + 1) (length ps)) (check_pair a)))
      (Tracker.mk ms fl k n bl ps es)
      (fun s' _ => J (i <? length (range 0 (length ps)))%nat s')).
  { apply (returns_for_each _ _ (fun a => J (i <? a)%nat)).
    - exists ps. split; [reflexivity |]. split; [reflexivity |].
      split; [reflexivity |]. split; [reflexivity |].
      intros a. apply kept_or_reverted_refl.
    - intros a0 a s Ha HJ.
      apply lookup_range in Ha. destruct Ha as [-> Ha]. simpl in Ha.
      change (0 + a0)%nat with a0.
      eapply returns_mono.
      + apply (returns_for_each _ _
                 (fun b0 => J (examined i j a0 (a0 + 1 + b0)))).
        * rewrite Nat.add_0_r, examined_start by exact Hij. exact HJ.
        * intros b0 b s1 Hb (ps1 & -> & Hl1 & H1i & H1j & Hinv).
          apply lookup_range in Hb. destruct Hb as [-> Hb].
          set (b := (a0 + 1 + b0)%nat) in *.
          replace (a0 + 1 + Datatypes.S b0)%nat with (b + 1)%nat by lia.
          destruct (lookup_lt_is_Some_2 ps1 a0 ltac:(lia)) as [pa Hpa].
          destruct (lookup_lt_is_Some_2 ps1 b ltac:(lia)) as [pb Hpb].
          destruct (decide (a0 = i /\ b = j)) as [[-> Hbj]|Hother].
          -- (* the pair itself *)
             rewrite Hbj in *. clear Hbj.
             assert (Hbefore : examined i j i j = false).
             { unfold examined. rewrite Nat.ltb_irrefl, Nat.eqb_refl. simpl.
               apply Nat.ltb_irrefl. }
             assert (Hafter : examined i j i (j + 1) = true).
             { unfold examined. rewrite Nat.eqb_refl.
               rewrite (proj2 (Nat.ltb_lt j (j + 1))) by lia.
               apply orb_true_r. }
             rewrite Hbefore in H1i, H1j. rewrite Hafter.
             eapply returns_eq.
             { eapply check_pair_overlap;
                 [rewrite H1i; exact Hi | rewrite H1j; exact Hj | exact Heq
                 | exact Hmi | exact Hmj]. }
             destruct (resolved_pair_entries ms ps ps1 i j pi pj mi mj
                         ltac:(lia) Hi Hj H1i H1j Hmi Hmj) as [Hri Hrj].
             eexists. split; [reflexivity |].
             split; [rewrite length_resolved; exact Hl1 |].
             split; [exact Hri |]. split; [exact Hrj |].
             unfold resolved. rewrite H1i, H1j, Hi, Hj, Hmi, Hmj.
             destruct (_ <? _)%Z; eapply kept_or_reverted_step;
               try eassumption; congruence.
          -- (* another pair *)
             rewrite examined_next by exact Hother.
             destruct (overlapping pa pb) eqn:Hov.
             ++ assert (Hpair : forall x, x = i \/ x = j ->
                  ps1 !! x = ps !! i \/ ps1 !! x = ps !! j \/
                  ps1 !! x = resolved ms ps i j !! i \/
                  ps1 !! x = resolved ms ps i j !! j).
                { intros x [-> | ->]; destruct (examined i j a0 b); auto. }
                assert (Hai : a0 <> i /\ a0 <> j /\ b <> i /\ b <> j).
                { destruct (decide (a0 = i \/ a0 = j)) as [Hin|Hout].
                  - destruct (decide (b = i \/ b = j)) as [Hin'|Hout']; [lia |].
                    destruct (isolated_no_overlap ms ps i j b _ _ pa pb Hiso
                                ltac:(lia) ltac:(lia) ltac:(lia)
                                (Hpair a0 Hin) (Hinv b) Hpa Hpb) as [Hno _].
                    congruence.
                  - destruct (decide (b = i \/ b = j)) as [Hin'|Hout']; [| lia].
                    destruct (isolated_no_overlap ms ps i j a0 _ _ pb pa Hiso
                                ltac:(lia) ltac:(lia) ltac:(lia)
                                (Hpair b Hin') (Hinv a0) Hpb Hpa) as [_ Hno].
                    congruence. }
                destruct Hai as (Hai & Haj & Hbi & Hbj).
                apply overlapping_coords in Hov as (p & q & -> & -> & Hpq).
                destruct (lookup_lt_is_Some_2 (markers ms) a0 ltac:(lia))
                  as [ma Hma].
                destruct (lookup_lt_is_Some_2 (markers ms) b ltac:(lia))
                  as [mb Hmb].
                eapply returns_eq.
                { eapply check_pair_overlap; eassumption. }
                eexists. split; [reflexivity |].
                split; [rewrite length_resolved; exact Hl1 |].
                assert (Hr : resolved ms ps1 a0 b
                  = if (distance_from_marker p ma <? distance_from_marker q mb)%Z
                    then <[b := reverted mb q]> ps1
                    else <[a0 := reverted ma p]> ps1).
                { unfold resolved. rewrite Hpa, Hpb, Hma, Hmb. reflexivity. }
                rewrite Hr. clear Hr.
                destruct (_ <? _)%Z.
                ** rewrite !list_lookup_insert_ne by congruence.
                   split; [exact H1i |]. split; [exact H1j |].
                   eapply kept_or_reverted_step; eassumption.
                ** rewrite !list_lookup_insert_ne by congruence.
                   split; [exact H1i |]. split; [exact H1j |].
                   eapply kept_or_reverted_step; eassumption.
             ++ eapply returns_eq; [eapply check_pair_skip; eassumption |].
                exists ps1. auto.
      + intros s' u HJ'. cbv beta in HJ'.
        rewrite length_range in HJ'.
        replace (a0 + 1 + (length ps - (a0 + 1)))%nat with (length ps) in HJ'
          by lia.
        rewrite examined_end in HJ' by lia.
        replace (Datatypes.S a0) with (a0 + 1)%nat by lia. exact HJ'. }
  destruct Hloop as (s' & u & Hrun & HJ). exists s', u. split.
  { rewrite check_tracking_unfold. exact Hrun. }
  rewrite length_range, Nat.sub_0_r in HJ.
  rewrite (proj2 (Nat.ltb_lt i (length ps))) in HJ by lia.
  exact HJ.
Qed.

(** C2, as the code has it.  For a pair [i < j] of non-empty entries,
    [_correct_overlapping(i, j)] puts [j] back to the stored position of
    its marker when the displacement of [i] from its own stored position is
    strictly the smaller, and [i] keeps its position; otherwise, equal
    displacements included, it puts [i] back and [j] keeps its position: a
    tie is resolved in favour of the higher index.  [check_tracking] applies
    it to the pairs in sequence, on the positions as they then are.  Hence
    for a pair whose merged positions coincide: when no third entry can
    meet an entry of the pair ([isolated_pair]), [check_tracking] returns
    normally with the pair resolved by that rule, the other entries being
    each kept or put back to its own stored position by the pairs they make
    among themselves; and when the pair is the only one that coincides,
    before and after it is resolved, no other entry changes at all. *)
Theorem overlap_resolution ms fl k n bl ps es i j pi pj mi mj :
  (i < j)%nat ->
  ps !! i = Some (Valid pi) -> ps !! j = Some (Valid pj) ->
  markers ms !! i = Some mi -> markers ms !! j = Some mj ->
  Tracker._correct_overlapping i j (Tracker.mk ms fl k n bl ps es)
  = (Tracker.mk ms fl k n bl
       (if (distance_from_marker pi mi <? distance_from_marker pj mj)%Z
        then <[j := Valid (mkPosition (pos mj) (visibility pj))]> ps
        else <[i := Valid (mkPosition (pos mi) (visibility pi))]> ps)
       es, Ok tt) /\
  (position pi = position pj ->
   (length ps <= length (markers ms))%nat ->
   isolated_pair ms ps i j = true ->
   returns Tracker.check_tracking (Tracker.mk ms fl k n bl ps es) (fun self' _ =>
     let ps' := Tracker.positions self' in
     self' = Tracker.mk ms fl k n bl ps' es /\
     length ps' = length ps /\
     ((distance_from_marker pi mi < distance_from_marker pj mj)%Z ->
        ps' !! i = Some (Valid pi) /\
        ps' !! j = Some (Valid (mkPosition (pos mj) (visibility pj)))) /\
     ((distance_from_marker pj mj <= distance_from_marker pi mi)%Z ->
        ps' !! i = Some (Valid (mkPosition (pos mi) (visibility pi))) /\
        ps' !! j = Some (Valid pj)) /\
     (forall a, a <> i -> a <> j ->
        kept_or_reverted (markers ms !! a) (ps !! a) (ps' !! a)))) /\
  (position pi = position pj ->
   sole_overlap ps i j = true ->
   sole_overlap (resolved ms ps i j) i j = true ->
   returns Tracker.check_tracking (Tracker.mk ms fl k n bl ps es) (fun self' _ =>
     let ps' := Tracker.positions self' in
     self' = Tracker.mk ms fl k n bl ps' es /\
     ((distance_from_marker pi mi < distance_from_marker pj mj)%Z ->
        ps' !! i = Some (Valid pi) /\
        ps' !! j = Some (Valid (mkPosition (pos mj) (visibility pj)))) /\
     ((distance_from_marker pj mj <= distance_from_marker pi mi)%Z ->
        ps' !! i = Some (Valid (mkPosition (pos mi) (visibility pi))) /\
        ps' !! j = Some (Valid pj)) /\
     (forall a, a <> i -> a <> j -> ps' !! a = ps !! a))).
Proof.
  intros Hij Hi Hj Hmi Hmj.
  assert (Hilt : (i < length ps)%nat) by (eapply lookup_lt_Some; exact Hi).
  assert (Hjlt : (j < length ps)%nat) by (eapply lookup_lt_Some; exact Hj).
  assert (Hres : resolved ms ps i j
    = if (distance_from_marker pi mi <? distance_from_marker pj mj)%Z
      then <[j := Valid (mkPosition (pos mj) (visibility pj))]> ps
      else <[i := Valid (mkPosition (pos mi) (visibility pi))]> ps).
  { unfold resolved. rewrite Hi, Hj, Hmi, Hmj. reflexivity. }
  assert (Hrule :
    ((distance_from_marker pi mi < distance_from_marker pj mj)%Z ->
       resolved ms ps i j !! i = Some (Valid pi) /\
       resolved ms ps i j !! j
         = Some (Valid (mkPosition (pos mj) (visibility pj)))) /\
    ((distance_from_marker pj mj <= distance_from_marker pi mi)%Z ->
       resolved ms ps i j !! i
         = Some (Valid (mkPosition (pos mi) (visibility pi))) /\
       resolved ms ps i j !! j = Some (Valid pj)) /\
    (forall a, a <> i -> a <> j -> resolved ms ps i j !! a = ps !! a)).
  { rewrite Hres.
    destruct (Z.ltb_spec (distance_from_marker pi mi)
                         (distance_from_marker pj mj)) as [Hlt|Hge].
    - split; [intros _ | split; [intros Hle; lia |]].
      + rewrite list_lookup_insert_ne by lia.
        rewrite list_lookup_insert_eq by lia. auto.
      + intros a Hai Haj. apply list_lookup_insert_ne. congruence.
    - split; [intros Hlt; lia | split; [intros _ |]].
      + rewrite list_lookup_insert_eq by lia.
        rewrite list_lookup_insert_ne by lia. auto.
      + intros a Hai Haj. apply list_lookup_insert_ne. congruence. }
  destruct Hrule as (Hnear & Hfar & Hrest).
  split; [| split].
  - rewrite <- Hres. eapply _correct_overlapping_eq; eassumption.
  - intros Heq Hlen Hiso.
    eapply returns_mono.
    { apply (check_tracking_isolated ms fl k n bl ps es i j pi pj mi mj
               Hij Hi Hj Heq Hmi Hmj Hlen Hiso). }
    intros s' u (ps' & -> & Hl & Hpi & Hpj & Hinv). cbn [Tracker.positions].
    split; [reflexivity |]. split; [exact Hl |].
    rewrite Hpi, Hpj. split; [exact Hnear |]. split; [exact Hfar |].
    intros a _ _. apply Hinv.
  - intros Heq Hsole Hsole'.
    eapply returns_eq.
    { apply (check_tracking_sole ms fl k n bl ps es i j pi pj mi mj
               Hij Hi Hj Heq Hmi Hmj Hsole Hsole'). }
    cbn [Tracker.positions]. split; [reflexivity |].
    split; [exact Hnear |]. split; [exact Hfar | exact Hrest].
Qed.
End IsolatedPair.


(** ** More on one tick of the tracker *)

Section MoreTick.
Context `{C : Collaborators}.
Variable DELTA : Z.

(** [track] pass by pass, with what the overlap resolution and the bounds
    check did to the merged positions. *)
Lemma track_passes ms fl k n bl0 ps0 es frame bl :
  length es = length (markers ms) ->
  exists es' ps1,
    Tracker.track DELTA frame bl (Tracker.mk ms fl k n bl0 ps0 es)
    = (Tracker.mk
         (with_markers
            (zip_with (fun m p => corrected p m)
                      (predicted k <$> markers ms) (bounded frame <$> ps1)) ms)
         (flow_updated frame fl) k n (Some bl) (bounded frame <$> ps1) es',
       Ok (bounded frame <$> ps1, es')) /\
    length es' = length es /\
    length ps1 = length es /\
    (forall i m, markers ms !! i = Some m ->
       es' !! i = if is_static m then es !! i
                  else Some (Some (candidates DELTA n (flow_updated frame fl)
                                     k bl i m))) /\
    (forall i,
       kept_or_reverted (predicted k <$> markers ms !! i)
         (_merge_positions <$> es' !! i) (ps1 !! i)).
Proof.
  intros Hlen. unfold Tracker.track.
  erewrite bind_ok by reflexivity.
  erewrite bind_ok by reflexivity.
  unfold Tracker.with_blobs.
  cbn [Tracker.marker_set Tracker.optical_flow Tracker.kalman Tracker.naive
       Tracker.blobs Tracker.positions Tracker.estimated_positions].
  assert (Hflow :
    match fl with
    | Some flow =>
        modify (Tracker.with_optical_flow
                  (Some (Flow_get_optical_flow_pos flow (color frame))))
    | None => ret tt
    end (Tracker.mk ms fl k n (Some bl) ps0 es)
    = (Tracker.mk ms (flow_updated frame fl) k n (Some bl) ps0 es, Ok tt)).
  { destruct fl; reflexivity. }
  erewrite bind_ok by exact Hflow. clear Hflow.
  erewrite bind_ok by reflexivity.
  cbn [Tracker.marker_set].
  destruct (estimation_pass DELTA ms (flow_updated frame fl) k n bl ps0 es Hlen)
    as (s1 & [] & Hest & lm & es' & -> & Hlm & Hes' & Hmk & Hcand).
  erewrite bind_ok by exact Hest. clear Hest.
  erewrite bind_ok by apply merge_positions_eq.
  unfold Tracker.with_positions.
  cbn [Tracker.marker_set Tracker.optical_flow Tracker.kalman Tracker.naive
       Tracker.blobs Tracker.positions Tracker.estimated_positions].
  assert (Hlm_eq : lm = predicted k <$> markers ms).
  { apply list_eq. intros i. rewrite Hmk, list_lookup_fmap. reflexivity. }
  destruct (check_tracking_reverts (with_markers lm ms) (flow_updated frame fl)
              k n (Some bl) (_merge_positions <$> es') es')
    as (s2 & [] & Hchk & ps1 & -> & Hl1 & Hinv).
  { simpl. rewrite length_fmap. lia. }
  rewrite length_fmap in Hl1.
  erewrite bind_ok by exact Hchk. clear Hchk.
  erewrite bind_ok by apply check_bounds_eq.
  erewrite bind_ok.
  2:{ apply correction_pass. rewrite length_fmap. simpl. lia. }
  erewrite bind_ok by reflexivity.
  cbn [Tracker.marker_set Tracker.optical_flow Tracker.kalman Tracker.naive
       Tracker.blobs Tracker.positions Tracker.estimated_positions].
  exists es', ps1.
  split; [subst lm; reflexivity |]. split; [exact Hes' |].
  split; [lia |]. split; [exact Hcand |].
  intros i. specialize (Hinv i). simpl in Hinv.
  rewrite Hlm_eq, !list_lookup_fmap in Hinv. exact Hinv.
Qed.

Lemma clamp_range (hi v : Z) : (0 <= hi)%Z -> (0 <= clamp 0 hi v <= hi)%Z.
Proof. unfold clamp. lia. Qed.

(** X6.  On an aligned tracker and a frame of at least one pixel, every
    non-empty position that [track] returns lies in the frame: its
    coordinates are within [0, width - 1] and [0, height - 1], whatever the
    blobs, the flow and the stored positions are. *)
Theorem track_stays_in_frame (self : Tracker.t) (frame : Frames)
    (blobs : list coord) :
  aligned self ->
  (1 <= width frame)%Z -> (1 <= height frame)%Z ->
  returns (Tracker.track DELTA frame blobs) self (fun _ out =>
    forall i p, out.1 !! i = Some (Valid p) -> inside frame p).
Proof.
  destruct self as [ms fl k n bl0 ps0 es]. unfold aligned. simpl.
  intros Hlen Hw Hh.
  destruct (track_passes ms fl k n bl0 ps0 es frame blobs Hlen)
    as (es' & ps1 & Heq & _).
  eapply returns_eq; [exact Heq |]. cbn [fst].
  intros i p Hp. rewrite list_lookup_fmap in Hp.
  destruct (ps1 !! i) as [[|q]|]; try discriminate.
  simpl in Hp. injection Hp as <-. unfold inside, Position_check_bounds.
  cbn [position fst snd]. split; apply clamp_range; lia.
Qed.

Lemma corrected_fields p (m : Marker) :
  name (corrected p m) = name m /\ pos (corrected p m) = pos m /\
  is_static (corrected p m) = is_static m.
Proof. destruct p; repeat split. Qed.

Lemma predicted_fields k (m : Marker) :
  name (predicted k m) = name m /\ pos (predicted k m) = pos m /\
  is_static (predicted k m) = is_static m.
Proof.
  unfold predicted, predict_from_kalman.
  destruct (is_static m) eqn:Hs; [auto |]. destruct k; [| auto].
  destruct (kalman_predict (kalman_state m)). simpl. auto.
Qed.

(** X7.  A tick, as the driver and the handlers run it: on an aligned
    tracker [track] returns normally, and [set_marker_pos] called with the
    positions it returned never fails its assertion; afterwards the marker
    set has as many markers as before, every marker keeps its name and its
    static flag, and is stored at the position returned for it, or where it
    was stored when nothing was returned; the tracker is aligned again. *)
Theorem tick_stores_returned_positions (self : Tracker.t) (frame : Frames)
    (blobs : list coord) :
  aligned self ->
  returns (Tracker.track DELTA frame blobs) self (fun self' out =>
    returns (set_marker_pos out.1) (Tracker.marker_set self') (fun ms' _ =>
      length (markers ms') = length (markers (Tracker.marker_set self)) /\
      aligned (Tracker.with_marker_set ms' self') /\
      forall i m, markers (Tracker.marker_set self) !! i = Some m ->
        exists m', markers ms' !! i = Some m' /\
                   name m' = name m /\ is_static m' = is_static m /\
                   pos m' = stored_after m (out.1 !! i))).
Proof.
  destruct self as [ms fl k n bl0 ps0 es]. unfold aligned. simpl.
  intros Hlen.
  destruct (track_passes ms fl k n bl0 ps0 es frame blobs Hlen)
    as (es' & ps1 & Heq & Hes' & Hps1 & _).
  eapply returns_eq; [exact Heq |]. cbn [fst Tracker.marker_set].
  set (ps' := bounded frame <$> ps1).
  assert (Hps' : length ps' = length (markers ms)).
  { unfold ps'. rewrite length_fmap. lia. }
  set (after := zip_with (fun m p => corrected p m) (predicted k <$> markers ms) ps').
  assert (Hafter : length after = length (markers ms)).
  { unfold after. rewrite length_zip_with, length_fmap. lia. }
  eapply returns_eq.
  { apply set_marker_pos_agree. simpl. lia. }
  unfold write_back. simpl.
  split; [rewrite length_zip_with; lia |].
  split; [rewrite length_zip_with; lia |].
  intros i m Hm.
  destruct (lookup_lt_is_Some_2 ps' i) as [p Hp].
  { rewrite Hps'. eapply lookup_lt_Some. exact Hm. }
  exists (write_back_marker (corrected p (predicted k m)) p). split.
  { apply lookup_zip_with_Some. eexists _, p. split; [reflexivity |].
    split; [| exact Hp]. unfold after. apply lookup_zip_with_Some.
    exists (predicted k m), p. split; [reflexivity |]. split; [| exact Hp].
    rewrite list_lookup_fmap, Hm. reflexivity. }
  rewrite Hp.
  destruct (corrected_fields p (predicted k m)) as (Hn1 & Hp1 & Hs1).
  destruct (predicted_fields k m) as (Hn2 & Hp2 & Hs2).
  destruct p as [|q]; simpl in *.
  - repeat split; congruence.
  - repeat split; congruence.
Qed.

(** X8.  With no estimator enabled, [track] on an aligned tracker returns
    [Empty] and an empty diagnostics list for every non-static marker,
    whatever the blobs and the frame, and leaves that marker exactly as it
    was. *)
Theorem no_estimator_no_position (self : Tracker.t) (frame : Frames)
    (blobs : list coord) :
  aligned self ->
  Tracker.naive self = false ->
  Tracker.optical_flow self = None ->
  Tracker.kalman self = false ->
  returns (Tracker.track DELTA frame blobs) self (fun self' out =>
    forall i m, markers (Tracker.marker_set self) !! i = Some m ->
      is_static m = false ->
      out.1 !! i = Some Empty /\ out.2 !! i = Some (Some []) /\
      markers (Tracker.marker_set self') !! i = Some m).
Proof.
  destruct self as [ms fl k n bl0 ps0 es]. unfold aligned. simpl.
  intros Hlen -> -> ->.
  destruct (track_eq DELTA ms None false false bl0 ps0 es frame blobs Hlen)
    as (es' & ps' & Heq & Hes' & Hcand & [Hps' Hshape]).
  eapply returns_eq; [exact Heq |]. simpl.
  intros i m Hm Hs.
  assert (Hslot : es' !! i = Some (Some [])).
  { rewrite (Hcand i m Hm), Hs. reflexivity. }
  assert (Hempty : ps' !! i = Some Empty).
  { apply Hshape. rewrite list_lookup_fmap, Hslot. reflexivity. }
  split; [exact Hempty |]. split; [exact Hslot |].
  apply lookup_zip_with_Some. exists (predicted false m), Empty.
  split; [rewrite predicted_disabled; reflexivity |].
  split; [| exact Hempty]. rewrite list_lookup_fmap, Hm. reflexivity.
Qed.

(** X9.  The optical-flow estimator is consulted only for a marker whose
    flow status is 1: on an aligned tracker, a non-static marker whose
    status in the updated flow is not 1 gets exactly the diagnostics it would
    get with the optical-flow estimator disabled. *)
Theorem lost_flow_gives_no_candidate (self : Tracker.t) (frame : Frames)
    (blobs : list coord) (flow : Flow) (i : nat) (m : Marker) :
  aligned self ->
  Tracker.optical_flow self = Some flow ->
  markers (Tracker.marker_set self) !! i = Some m ->
  is_static m = false ->
  (Flow_getitem (Flow_get_optical_flow_pos flow (color frame)) i).2 <> 1%Z ->
  returns (Tracker.track DELTA frame blobs) self (fun _ out =>
    out.2 !! i =
      Some (Some (candidates DELTA (Tracker.naive self) None
                    (Tracker.kalman self) blobs i m))).
Proof.
  destruct self as [ms fl k n bl0 ps0 es]. unfold aligned. simpl.
  intros Hlen -> Hm Hs Hst.
  destruct (track_eq DELTA ms (Some flow) k n bl0 ps0 es frame blobs Hlen)
    as (es' & ps' & Heq & Hes' & Hcand & _).
  eapply returns_eq; [exact Heq |]. simpl.
  rewrite (Hcand i m Hm), Hs. unfold candidates. simpl.
  destruct (Z.eqb_spec
              (Flow_getitem (Flow_get_optical_flow_pos flow (color frame)) i).2 1)
    as [Heq1|_]; [contradiction | reflexivity].
Qed.
End MoreTick.


(** ** Static markers over a whole run *)

Section StaticMarkers.
Context `{C : Collaborators}.
Variable DELTA : Z.

Lemma write_back_marker_static (m : Marker) p :
  is_static (write_back_marker m p) = is_static m.
Proof. destruct p; reflexivity. Qed.

(** Every tracker a program can hold is aligned and has never written the
    diagnostics slot of a static marker. *)
Lemma reachable_static_slots (self : Tracker.t) :
  reachable DELTA self -> aligned self /\ static_slots_unset self.
Proof.
  induction 1 as [frame ms n o k | self frame blobs self' outcome _ IH Htrack
                 | self positions ms' outcome _ IH Hset].
  - split; [apply init_aligned |]. intros i m Hm Hs. simpl in *.
    apply lookup_replicate_2. eapply lookup_lt_Some. exact Hm.
  - destruct IH as [Hal Hst]. destruct self as [ms fl k n bl0 ps0 es].
    unfold aligned, static_slots_unset in *. simpl in *.
    destruct (track_eq DELTA ms fl k n bl0 ps0 es frame blobs Hal)
      as (es' & ps' & Heq & Hes' & Hcand & [Hps' _]).
    rewrite Heq in Htrack. injection Htrack as <- _. simpl.
    rewrite length_fmap in Hps'. split.
    { rewrite length_zip_with, length_fmap. lia. }
    intros i m' Hm' Hs'.
    apply lookup_zip_with_Some in Hm' as (m1 & p & -> & Hm1 & Hp).
    rewrite list_lookup_fmap in Hm1.
    destruct (markers ms !! i) as [m|] eqn:Hm; [| discriminate].
    simpl in Hm1. injection Hm1 as <-.
    destruct (corrected_fields p (predicted k m)) as (_ & _ & Hs1).
    destruct (predicted_fields k m) as (_ & _ & Hs2).
    assert (Hs : is_static m = true) by congruence.
    rewrite (Hcand i m Hm), Hs. apply (Hst i m Hm Hs).
  - destruct IH as [Hal Hst]. destruct self as [ms fl k n bl0 ps0 es].
    unfold aligned, static_slots_unset in *. simpl in *.
    destruct (decide (length (markers ms) = length positions)) as [Heq|Hne].
    + rewrite (set_marker_pos_agree positions ms Heq) in Hset.
      injection Hset as <- _. split.
      { rewrite length_write_back by exact Heq. exact Hal. }
      intros i m' Hm' Hs'. unfold write_back in Hm'. simpl in Hm'.
      apply lookup_zip_with_Some in Hm' as (m & p & -> & Hm & Hp).
      rewrite write_back_marker_static in Hs'. apply (Hst i m Hm Hs').
    + unfold set_marker_pos, bind, get in Hset.
      rewrite decide_False in Hset by exact Hne.
      injection Hset as <- _. split; [exact Hal | exact Hst].
Qed.

(** X10.  At no tick of a run does [track] report a static marker: on every
    tracker obtained from the constructor by calls of [track] and of
    [set_marker_pos], the position returned for a static marker is [Empty]
    and its diagnostics entry is [None], whatever the blobs and the frame. *)
Theorem static_markers_never_reported (self : Tracker.t) (frame : Frames)
    (blobs : list coord) :
  reachable DELTA self ->
  returns (Tracker.track DELTA frame blobs) self (fun _ out =>
    forall i m, markers (Tracker.marker_set self) !! i = Some m ->
      is_static m = true ->
      out.1 !! i = Some Empty /\ out.2 !! i = Some None).
Proof.
  intros Hreach. destruct (reachable_static_slots self Hreach) as [Hal Hst].
  destruct self as [ms fl k n bl0 ps0 es].
  unfold aligned, static_slots_unset in *. simpl in *.
  destruct (track_eq DELTA ms fl k n bl0 ps0 es frame blobs Hal)
    as (es' & ps' & Heq & Hes' & Hcand & [Hps' Hshape]).
  eapply returns_eq; [exact Heq |]. simpl.
  intros i m Hm Hs.
  assert (Hslot : es' !! i = Some None).
  { rewrite (Hcand i m Hm), Hs. apply (Hst i m Hm Hs). }
  split; [| exact Hslot].
  apply Hshape. rewrite list_lookup_fmap, Hslot. reflexivity.
Qed.
End StaticMarkers.

(** ** The loop of [process] *)

Section ProcessLoop.
Context `{C : Collaborators}.
Variable DELTA : Z.
Variable quit_pressed : Z -> bool.

(** One pass through the loop body, whatever its outcome: the index has
    advanced by one, the run parameters are kept, and the loop is left only
    when [q] was pressed on the image of the new index. *)
Lemma process_body_advances (self : ProcessImage.t) :
  ProcessImage.path (ProcessImage.process_body DELTA quit_pressed self).1
    = ProcessImage.path self /\
  ProcessImage.start_index (ProcessImage.process_body DELTA quit_pressed self).1
    = ProcessImage.start_index self /\
  ProcessImage.end_index (ProcessImage.process_body DELTA quit_pressed self).1
    = ProcessImage.end_index self /\
  ProcessImage.index (ProcessImage.process_body DELTA quit_pressed self).1
    = (ProcessImage.index self + 1)%Z /\
  ((ProcessImage.process_body DELTA quit_pressed self).2 = Ok false ->
   quit_pressed (ProcessImage.index self + 1)%Z = true).
Proof.
  destruct self as [p si ei ix fr h].
  unfold ProcessImage.process_body, ProcessImage._process_while_loading,
    ProcessImage._load_img, ProcessImage._update_img,
    ImageProcessingHandler.receive_process, bind, modify, get, ret, zoom.
  cbn -[ProcessImage.load_img ImageProcessingHandler.send_process].
  destruct (ImageProcessingHandler.send_process DELTA fr 1 h) as [h' [[]|e]];
    cbn -[ProcessImage.load_img].
  - destruct (ProcessImage.load_img p (ix + 1)) as [[c|] [d|]]; cbn;
      repeat apply conj; try reflexivity; try discriminate.
    intros [= Hq]. destruct (quit_pressed (ix + 1)); [reflexivity | discriminate].
  - repeat apply conj; try reflexivity; discriminate.
Qed.

Lemma process_loop_step fuel (self : ProcessImage.t) :
  ProcessImage.process_loop DELTA quit_pressed (S fuel) self
  = if (ProcessImage.index self =? ProcessImage.end_index self)%Z
    then (self, Ok true)
    else match ProcessImage.process_body DELTA quit_pressed self with
         | (s1, Ok true) => ProcessImage.process_loop DELTA quit_pressed fuel s1
         | (s1, Ok false) => (s1, Ok true)
         | (s1, Raise e) => (s1, Raise e)
         end.
Proof.
  cbn [ProcessImage.process_loop]. unfold bind at 1, get at 1.
  destruct (_ =? _)%Z; [reflexivity |].
  unfold bind.
  destruct (ProcessImage.process_body DELTA quit_pressed self) as [s1 [[]|e]];
    reflexivity.
Qed.

(** X11.  The loop of [process] ends: started at an index not past
    [end_index], it is left, or an exception is raised, within
    [end_index - index] passes.  The index never passes [end_index], the run
    parameters are kept, and when the loop is left the index is [end_index]
    or [q] was pressed on the image of the final index. *)
Theorem process_loop_reaches_end (fuel : nat) (self : ProcessImage.t) :
  (ProcessImage.index self <= ProcessImage.end_index self)%Z ->
  (Z.to_nat (ProcessImage.end_index self - ProcessImage.index self) < fuel)%nat ->
  (ProcessImage.process_loop DELTA quit_pressed fuel self).2 <> Ok false /\
  (ProcessImage.index self
   <= ProcessImage.index (ProcessImage.process_loop DELTA quit_pressed fuel self).1
   <= ProcessImage.end_index self)%Z /\
  ProcessImage.path (ProcessImage.process_loop DELTA quit_pressed fuel self).1
    = ProcessImage.path self /\
  ProcessImage.start_index (ProcessImage.process_loop DELTA quit_pressed fuel self).1
    = ProcessImage.start_index self /\
  ProcessImage.end_index (ProcessImage.process_loop DELTA quit_pressed fuel self).1
    = ProcessImage.end_index self /\
  ((ProcessImage.process_loop DELTA quit_pressed fuel self).2 = Ok true ->
   ProcessImage.index (ProcessImage.process_loop DELTA quit_pressed fuel self).1
     = ProcessImage.end_index self \/
   quit_pressed
     (ProcessImage.index (ProcessImage.process_loop DELTA quit_pressed fuel self).1)
     = true).
Proof.
  revert self. induction fuel as [|fuel IH]; intros self Hle Hfuel; [lia |].
  rewrite process_loop_step.
  destruct (Z.eqb_spec (ProcessImage.index self) (ProcessImage.end_index self))
    as [Heq|Hne].
  { cbn [fst snd]. repeat apply conj; try reflexivity; try discriminate; lia. }
  pose proof (process_body_advances self) as (Hp & Hs & He & Hi & Hq).
  destruct (ProcessImage.process_body DELTA quit_pressed self) as [s1 [[]|e]];
    cbn [fst snd] in *.
  - destruct (IH s1) as (H1 & H2 & H3 & H4 & H5 & H6); [lia | lia |].
    repeat apply conj; try congruence; try lia.
    intros Hok. destruct (H6 Hok) as [H|H]; [left; congruence | right; exact H].
  - repeat apply conj; try assumption; try discriminate; try lia.
    intros _. right. rewrite Hi. apply Hq. reflexivity.
  - repeat apply conj; try assumption; try discriminate; lia.
Qed.

(** X12.  The loop tests [index != end_index]: started at an index past
    [end_index], and with [q] never pressed, the loop of [process] is never
    left, however many passes it is given; it can only stop by an
    exception. *)
Theorem process_loop_past_end (fuel : nat) (self : ProcessImage.t) :
  (ProcessImage.end_index self < ProcessImage.index self)%Z ->
  (forall i, quit_pressed i = false) ->
  (ProcessImage.process_loop DELTA quit_pressed fuel self).2 <> Ok true.
Proof.
  intros Hlt Hq. revert self Hlt.
  induction fuel as [|fuel IH]; intros self Hlt; [discriminate |].
  rewrite process_loop_step.
  destruct (Z.eqb_spec (ProcessImage.index self) (ProcessImage.end_index self))
    as [Heq|Hne]; [lia |].
  pose proof (process_body_advances self) as (Hp & Hs & He & Hi & Hleft).
  destruct (ProcessImage.process_body DELTA quit_pressed self) as [s1 [[]|e]];
    cbn [fst snd] in *.
  - apply IH. lia.
  - rewrite Hq in Hleft. specialize (Hleft eq_refl). discriminate.
  - discriminate.
Qed.

(** X13.  Called when the index is already [end_index], [process] runs no
    pass and leaves the object as it is; it returns normally when the index
    differs from [start_index] and raises [ZeroDivisionError] when they are
    equal, that is when no image has been processed. *)
Theorem process_without_images (fuel : nat) (self : ProcessImage.t) :
  ProcessImage.index self = ProcessImage.end_index self ->
  ProcessImage.process DELTA quit_pressed (S fuel) self
  = (self,
     if (ProcessImage.index self =? ProcessImage.start_index self)%Z
     then Raise ZeroDivisionError else Ok (Some tt)).
Proof.
  intros Heq. unfold ProcessImage.process.
  erewrite bind_ok.
  2:{ rewrite process_loop_step. rewrite (proj2 (Z.eqb_eq _ _) Heq). reflexivity. }
  destruct self as [p si ei ix fr h].
  unfold ImageProcessingHandler.end_process, bind, zoom, ret, get, raise.
  cbn [ProcessImage.path ProcessImage.start_index ProcessImage.end_index
       ProcessImage.index ProcessImage.frames ProcessImage.process_handler
       ProcessImage.with_process_handler].
  replace (ix - si =? 0)%Z with (ix =? si)%Z.
  2:{ destruct (Z.eqb_spec ix si), (Z.eqb_spec (ix - si) 0); try reflexivity; lia. }
  destruct (ix =? si)%Z; reflexivity.
Qed.
End ProcessLoop.


(** ** The pass of the image handler *)

Section Handlers.
Context `{C : Collaborators}.
Variable DELTA : Z.

Lemma print_estimated_positions_ok {S : Type}
    (es : list (option (list Position))) (s : S) :
  Forall is_Some es -> print_estimated_positions es s = (s, Ok tt).
Proof.
  intros H. unfold print_estimated_positions. apply for_each_skip.
  intros x Hx. rewrite Forall_forall in H. destruct (H x Hx) as [l ->].
  reflexivity.
Qed.

Lemma print_estimated_positions_none {S : Type}
    (es : list (option (list Position))) (s : S) (i : nat) :
  es !! i = Some None ->
  print_estimated_positions es s = (s, Raise TypeError).
Proof.
  unfold print_estimated_positions. revert i.
  induction es as [|x es IH]; intros i Hi; [discriminate |].
  destruct x as [l|]; [| reflexivity].
  destruct i as [|i]; [discriminate |].
  simpl. unfold bind. simpl. apply (IH i). exact Hi.
Qed.

Lemma print_estimated_positions_state {S : Type}
    (es : list (option (list Position))) (s : S) :
  (print_estimated_positions es s).1 = s.
Proof.
  unfold print_estimated_positions.
  induction es as [|x es IH]; [reflexivity |].
  destruct x as [l|]; [| reflexivity].
  simpl. unfold bind. simpl. exact IH.
Qed.

(** What the handler does with one crop. *)
Lemma image_crop_body frames (crop : Crop.t) :
  aligned (Crop.tracker crop) ->
  exists r,
    (tracked <- Crop.track_markers DELTA frames ;;
     let '(blobs, positions, estimate_positions) := tracked in
     zoom Crop.marker_set Crop.with_marker_set (set_marker_pos positions) ;;
     print_estimated_positions estimate_positions) crop
    = (crop_pass DELTA frames crop, r) /\
    (Forall (fun m => is_static m = false) (markers (Crop.marker_set crop)) ->
     r = Ok tt) /\
    (static_slots_unset (Crop.tracker crop) ->
     Exists (fun m => is_static m = true) (markers (Crop.marker_set crop)) ->
     r = Raise TypeError).
Proof.
  destruct crop as [rg f [ms fl k n bl0 ps0 es]].
  unfold aligned, static_slots_unset, Crop.marker_set.
  cbn [Crop.tracker Tracker.marker_set Tracker.estimated_positions].
  intros Hal.
  destruct (track_eq DELTA ms fl k n bl0 ps0 es (Crop.crop_frames rg frames)
              (detect_blobs f (color (Crop.crop_frames rg frames))) Hal)
    as (es' & ps' & Heq & Hes' & Hcand & [Hps' Hshape]).
  rewrite length_fmap in Hps'.
  set (ms' := with_markers
                (zip_with (fun m p => corrected p m) (predicted k <$> markers ms) ps')
                ms) in *.
  assert (Hlen' : length (markers ms') = length ps').
  { unfold ms'. simpl. rewrite length_zip_with, length_fmap. lia. }
  assert (Hpass : crop_pass DELTA frames (Crop.mk rg f (Tracker.mk ms fl k n bl0 ps0 es))
    = Crop.mk rg f
        (Tracker.mk (write_back ps' ms') (flow_updated (Crop.crop_frames rg frames) fl)
           k n (Some (detect_blobs f (color (Crop.crop_frames rg frames)))) ps' es')).
  { unfold crop_pass. cbn [Crop.region Crop.filters Crop.tracker].
    rewrite Heq. reflexivity. }
  rewrite Hpass. clear Hpass.
  set (after := Crop.mk rg f
        (Tracker.mk (write_back ps' ms') (flow_updated (Crop.crop_frames rg frames) fl)
           k n (Some (detect_blobs f (color (Crop.crop_frames rg frames)))) ps' es')).
  assert (Hrun :
    (tracked <- Crop.track_markers DELTA frames ;;
     let '(blobs, positions, estimate_positions) := tracked in
     zoom Crop.marker_set Crop.with_marker_set (set_marker_pos positions) ;;
     print_estimated_positions estimate_positions)
      (Crop.mk rg f (Tracker.mk ms fl k n bl0 ps0 es))
    = print_estimated_positions es' after).
  { unfold Crop.track_markers.
    erewrite bind_ok.
    2:{ erewrite bind_ok by reflexivity.
        cbn [Crop.region Crop.filters Crop.tracker].
        erewrite bind_ok.
        2:{ unfold zoom. cbn [Crop.tracker]. rewrite Heq. reflexivity. }
        reflexivity. }
    cbv beta iota.
    erewrite bind_ok.
    2:{ unfold zoom, Crop.marker_set, Crop.with_marker_set, Crop.with_tracker.
        cbn [Crop.region Crop.filters Crop.tracker Tracker.marker_set].
        rewrite (set_marker_pos_agree ps' ms' Hlen'). reflexivity. }
    reflexivity. }
  pose proof (print_estimated_positions_state es' after) as Hstate.
  destruct (print_estimated_positions es' after) as [s1 r1] eqn:Hprint.
  cbn [fst] in Hstate. subst s1. exists r1.
  split; [exact Hrun |]. split.
  - intros Hns. rewrite print_estimated_positions_ok in Hprint.
    { injection Hprint as <-. reflexivity. }
    apply Forall_lookup. intros i x Hx.
    destruct (lookup_lt_is_Some_2 (markers ms) i) as [m Hm].
    { apply lookup_lt_Some in Hx. lia. }
    rewrite (Hcand i m Hm) in Hx.
    rewrite (proj1 (Forall_lookup _ _) Hns i m Hm) in Hx.
    injection Hx as <-. eexists. reflexivity.
  - intros Hst Hex. apply Exists_exists in Hex as (m & Hin & Hs).
    apply list_elem_of_lookup in Hin as [i Hm].
    erewrite print_estimated_positions_none in Hprint.
    { injection Hprint as <-. reflexivity. }
    rewrite (Hcand i m Hm), Hs. apply (Hst i m Hm Hs).
Qed.

(** One iteration of the loop of [_process_function], on the crop that
    follows the crops [pre] already done. *)
Lemma image_pass_step frames names (pre : list Crop.t) (c : Crop.t)
    (todo : list Crop.t) :
  aligned (Crop.tracker c) ->
  exists r,
    (let '(i, crop) := (length pre, c) in
     ImageProcessingHandler.on_crop i crop (
       tracked <- Crop.track_markers DELTA frames ;;
       let '(blobs, positions, estimate_positions) := tracked in
       zoom Crop.marker_set Crop.with_marker_set (set_marker_pos positions) ;;
       print_estimated_positions estimate_positions) ;;
     _ <- ImageProcessingHandler.crops_name_getitem i ;;
     ret tt)
      (ImageProcessingHandler.mk (pre ++ c :: todo) names)
    = (ImageProcessingHandler.mk ((pre ++ [crop_pass DELTA frames c]) ++ todo) names,
       r) /\
    (drawable c -> (length pre < length names)%nat -> r = Ok tt) /\
    (static_slots_unset (Crop.tracker c) ->
     Exists (fun m => is_static m = true) (markers (Crop.marker_set c)) ->
     r = Raise TypeError).
Proof.
  intros Hal.
  destruct (image_crop_body frames c Hal) as (r0 & Hbody & Hok & Hraise).
  assert (Hon :
    ImageProcessingHandler.on_crop (length pre) c (
       tracked <- Crop.track_markers DELTA frames ;;
       let '(blobs, positions, estimate_positions) := tracked in
       zoom Crop.marker_set Crop.with_marker_set (set_marker_pos positions) ;;
       print_estimated_positions estimate_positions)
      (ImageProcessingHandler.mk (pre ++ c :: todo) names)
    = (ImageProcessingHandler.mk ((pre ++ [crop_pass DELTA frames c]) ++ todo) names,
       r0)).
  { unfold ImageProcessingHandler.on_crop. rewrite Hbody.
    unfold ImageProcessingHandler.with_crops.
    cbn [ImageProcessingHandler.crops ImageProcessingHandler.crops_name].
    rewrite insert_app_r_alt by lia. rewrite Nat.sub_diag. simpl.
    rewrite <- app_assoc. reflexivity. }
  cbv beta iota.
  destruct r0 as [[]|e].
  - erewrite bind_ok by exact Hon.
    unfold ImageProcessingHandler.crops_name_getitem, bind, ret.
    cbn [ImageProcessingHandler.crops_name].
    destruct (names !! length pre) as [nm|] eqn:Hnm.
    + exists (Ok tt). split; [reflexivity |]. split; [reflexivity |].
      intros Hst Hex. discriminate (Hraise Hst Hex).
    + exists (Raise IndexError). split; [reflexivity |]. split.
      * intros _ Hlt. apply lookup_ge_None in Hnm. lia.
      * intros Hst Hex. discriminate (Hraise Hst Hex).
  - erewrite bind_raise by exact Hon.
    exists (Raise e). split; [reflexivity |]. split.
    + intros [_ Hns] _. discriminate (Hok Hns).
    + exact Hraise.
Qed.

Lemma image_pass_loop frames names (todo pre : list Crop.t) :
  Forall drawable todo ->
  (length pre + length todo <= length names)%nat ->
  for_each (zip (seq (length pre) (length todo)) todo) (fun '(i, crop) =>
    ImageProcessingHandler.on_crop i crop (
      tracked <- Crop.track_markers DELTA frames ;;
      let '(blobs, positions, estimate_positions) := tracked in
      zoom Crop.marker_set Crop.with_marker_set (set_marker_pos positions) ;;
      print_estimated_positions estimate_positions) ;;
    _ <- ImageProcessingHandler.crops_name_getitem i ;;
    ret tt)
    (ImageProcessingHandler.mk (pre ++ todo) names)
  = (ImageProcessingHandler.mk (pre ++ (crop_pass DELTA frames <$> todo)) names,
     Ok tt).
Proof.
  revert pre. induction todo as [|c todo IH]; intros pre Hall Hlen.
  - reflexivity.
  - apply Forall_cons in Hall as [Hc Hall]. simpl in Hlen.
    destruct (image_pass_step frames names pre c todo (proj1 Hc))
      as (r & Hstep & Hok & _).
    rewrite (Hok Hc ltac:(lia)) in Hstep.
    cbn [length seq zip zip_with for_each].
    erewrite bind_ok by exact Hstep.
    replace (Datatypes.S (length pre))
      with (length (pre ++ [crop_pass DELTA frames c]))
      by (rewrite length_app; simpl; lia).
    rewrite IH; [| exact Hall | rewrite length_app; simpl; lia].
    rewrite <- app_assoc. reflexivity.
Qed.

Lemma image_pass_raises frames names (good pre : list Crop.t) (c : Crop.t)
    (rest : list Crop.t) :
  Forall drawable good ->
  (length pre + length good <= length names)%nat ->
  aligned (Crop.tracker c) ->
  static_slots_unset (Crop.tracker c) ->
  Exists (fun m => is_static m = true) (markers (Crop.marker_set c)) ->
  for_each (zip (seq (length pre) (length (good ++ c :: rest))) (good ++ c :: rest))
    (fun '(i, crop) =>
    ImageProcessingHandler.on_crop i crop (
      tracked <- Crop.track_markers DELTA frames ;;
      let '(blobs, positions, estimate_positions) := tracked in
      zoom Crop.marker_set Crop.with_marker_set (set_marker_pos positions) ;;
      print_estimated_positions estimate_positions) ;;
    _ <- ImageProcessingHandler.crops_name_getitem i ;;
    ret tt)
    (ImageProcessingHandler.mk (pre ++ good ++ c :: rest) names)
  = (ImageProcessingHandler.mk
       (pre ++ (crop_pass DELTA frames <$> good)
            ++ crop_pass DELTA frames c :: rest) names,
     Raise TypeError).
Proof.
  intros Hall Hlen Hal Hst Hex. revert pre Hall Hlen.
  induction good as [|g good IH]; intros pre Hall Hlen.
  - destruct (image_pass_step frames names pre c rest Hal)
      as (r & Hstep & _ & Hraise).
    rewrite (Hraise Hst Hex) in Hstep.
    cbn [app length seq zip zip_with for_each fmap list_fmap].
    erewrite bind_raise by exact Hstep.
    rewrite <- app_assoc. reflexivity.
  - apply Forall_cons in Hall as [Hg Hall]. simpl in Hlen.
    destruct (image_pass_step frames names pre g (good ++ c :: rest) (proj1 Hg))
      as (r & Hstep & Hok & _).
    rewrite (Hok Hg ltac:(lia)) in Hstep.
    rewrite <- app_comm_cons.
    cbn [length seq zip zip_with for_each].
    erewrite bind_ok by exact Hstep.
    replace (Datatypes.S (length pre))
      with (length (pre ++ [crop_pass DELTA frames g]))
      by (rewrite length_app; simpl; lia).
    rewrite IH; [| exact Hall | rewrite length_app; simpl; lia].
    rewrite <- app_assoc. reflexivity.
Qed.

Lemma crop_pass_drawable frames (crop : Crop.t) :
  drawable crop -> drawable (crop_pass DELTA frames crop).
Proof.
  destruct crop as [rg f [ms fl k n bl0 ps0 es]].
  unfold drawable, aligned, Crop.marker_set, crop_pass.
  cbn [Crop.region Crop.filters Crop.tracker Tracker.marker_set
       Tracker.estimated_positions].
  intros [Hal Hns].
  destruct (track_eq DELTA ms fl k n bl0 ps0 es (Crop.crop_frames rg frames)
              (detect_blobs f (color (Crop.crop_frames rg frames))) Hal)
    as (es' & ps' & Heq & Hes' & Hcand & [Hps' Hshape]).
  rewrite length_fmap in Hps'. rewrite Heq.
  cbn [fst Crop.with_tracker Crop.tracker Tracker.with_marker_set
       Tracker.marker_set Tracker.estimated_positions Tracker.positions].
  unfold write_back. cbn [markers with_markers]. split.
  - rewrite !length_zip_with, length_fmap. lia.
  - apply Forall_lookup. intros i m' Hm'.
    apply lookup_zip_with_Some in Hm' as (m1 & p & -> & Hm1 & Hp).
    apply lookup_zip_with_Some in Hm1 as (m2 & p' & -> & Hm2 & Hp').
    rewrite list_lookup_fmap in Hm2.
    destruct (markers ms !! i) as [m|] eqn:Hm; [| discriminate].
    simpl in Hm2. injection Hm2 as <-.
    rewrite write_back_marker_static.
    destruct (corrected_fields p' (predicted k m)) as (_ & _ & ->).
    destruct (predicted_fields k m) as (_ & _ & ->).
    apply (proj1 (Forall_lookup _ _) Hns i m Hm).
Qed.

(** X14.  One pass of the image handler over crops that have one
    diagnostics slot per marker and no static marker, with a window title
    for each crop: the pass returns normally and is the crops' own passes
    one by one, each crop tracked on the blobs of its own region and its
    marker set updated with the positions returned, independently of the
    other crops; the crops it leaves satisfy the same conditions, so the
    next pass runs as well. *)
Theorem image_pass_is_crop_by_crop (frames : Frames)
    (self : ImageProcessingHandler.t) :
  Forall drawable (ImageProcessingHandler.crops self) ->
  (length (ImageProcessingHandler.crops self)
   <= length (ImageProcessingHandler.crops_name self))%nat ->
  ImageProcessingHandler._process_function DELTA frames self
  = (ImageProcessingHandler.with_crops
       (crop_pass DELTA frames <$> ImageProcessingHandler.crops self) self,
     Ok tt) /\
  Forall drawable (crop_pass DELTA frames <$> ImageProcessingHandler.crops self).
Proof.
  destruct self as [cs names].
  cbn [ImageProcessingHandler.crops ImageProcessingHandler.crops_name].
  intros Hall Hlen. split.
  - unfold ImageProcessingHandler._process_function.
    erewrite bind_ok by reflexivity.
    cbn [ImageProcessingHandler.crops]. unfold enumerate.
    apply (image_pass_loop frames names cs [] Hall). simpl. lia.
  - apply Forall_fmap. eapply Forall_impl; [exact Hall |].
    intros c Hc. apply crop_pass_drawable. exact Hc.
Qed.

(** X15.  A static marker stops the pass of the image handler: when the
    crops before it can be drawn, the first crop that holds a static marker
    is still tracked and its marker set updated, then drawing its
    diagnostics raises [TypeError]; the crops after it are not tracked in
    that pass. *)
Theorem static_marker_stops_the_pass (frames : Frames)
    (self : ImageProcessingHandler.t) (good : list Crop.t) (crop : Crop.t)
    (rest : list Crop.t) :
  ImageProcessingHandler.crops self = good ++ crop :: rest ->
  Forall drawable good ->
  (length good <= length (ImageProcessingHandler.crops_name self))%nat ->
  reachable DELTA (Crop.tracker crop) ->
  Exists (fun m => is_static m = true) (markers (Crop.marker_set crop)) ->
  ImageProcessingHandler._process_function DELTA frames self
  = (ImageProcessingHandler.with_crops
       ((crop_pass DELTA frames <$> good)
          ++ crop_pass DELTA frames crop :: rest) self,
     Raise TypeError).
Proof.
  destruct self as [cs names].
  cbn [ImageProcessingHandler.crops ImageProcessingHandler.crops_name].
  intros -> Hall Hlen Hreach Hex.
  destruct (reachable_static_slots DELTA _ Hreach) as [Hal Hst].
  unfold ImageProcessingHandler._process_function.
  erewrite bind_ok by reflexivity.
  cbn [ImageProcessingHandler.crops]. unfold enumerate.
  apply (image_pass_raises frames names good [] crop rest Hall); auto.
Qed.

(** The loop of the constructor, as far as there are options. *)
Lemma image_handler_init_loop (markers_sets : list MarkerSet) (frames : Frames)
    (options : list CropOption.t) (tracking_option : TrackingOption.t) (k : nat) :
  (k <= length markers_sets)%nat -> (k <= length options)%nat ->
  for_each (range 0 k) (fun i =>
    match markers_sets !! i, options !! i with
    | Some marker_set, Some option =>
        modify (fun self =>
          ImageProcessingHandler.with_crops
            (ImageProcessingHandler.crops self ++
             [Crop.__init__ (CropOption.area option) frames marker_set
                (CropOption.filters option)
                (TrackingOption.naive tracking_option)
                (TrackingOption.optical_flow tracking_option)
                (TrackingOption.kalman tracking_option)])
            self)
    | _, _ => raise IndexError
    end) (ImageProcessingHandler.mk [] (CropOption.name <$> options))
  = (ImageProcessingHandler.mk
       (zip_with (crop_of frames tracking_option) (take k markers_sets)
          (take k options))
       (CropOption.name <$> options), Ok tt).
Proof.
  induction k as [|k IH]; intros Hm Ho.
  - reflexivity.
  - replace (range 0 (Datatypes.S k)) with (range 0 k ++ [k]).
    2:{ unfold range. rewrite !Nat.sub_0_r. rewrite seq_S. reflexivity. }
    rewrite for_each_app. erewrite bind_ok by (apply IH; lia).
    destruct (lookup_lt_is_Some_2 markers_sets k ltac:(lia)) as [ms Hms].
    destruct (lookup_lt_is_Some_2 options k ltac:(lia)) as [o Hopt].
    cbn [for_each]. rewrite Hms, Hopt.
    rewrite bind_ret_tt. unfold modify, ImageProcessingHandler.with_crops.
    cbn [ImageProcessingHandler.crops ImageProcessingHandler.crops_name].
    rewrite (take_S_r _ _ _ Hms), (take_S_r _ _ _ Hopt).
    rewrite zip_with_app by (rewrite !length_take; lia).
    reflexivity.
Qed.

(** X16.  The constructor of the image handler pairs the marker sets with
    the crop options in order: with at least as many options as marker
    sets it builds one crop per marker set, from that marker set and the
    option of the same index, and keeps the names of all the options, also
    of those left without a crop; with fewer options than marker sets it
    raises [IndexError]. *)
Theorem image_handler_init (markers_sets : list MarkerSet) (frames : Frames)
    (options : list CropOption.t) (tracking_option : TrackingOption.t) :
  ImageProcessingHandler.__init__ markers_sets frames options tracking_option
  = if decide (length markers_sets <= length options)%nat
    then Ok (ImageProcessingHandler.mk
               (zip_with (crop_of frames tracking_option) markers_sets options)
               (CropOption.name <$> options))
    else Raise IndexError.
Proof.
  unfold ImageProcessingHandler.__init__.
  destruct (decide (length markers_sets <= length options)%nat) as [Hle|Hgt].
  - rewrite (image_handler_init_loop markers_sets frames options tracking_option
               (length markers_sets)) by lia.
    rewrite firstn_all, zip_with_take_r. reflexivity.
  - rewrite (range_split 0 (length options) (length markers_sets)) by lia.
    rewrite for_each_app.
    erewrite bind_ok
      by (apply (image_handler_init_loop markers_sets frames options
                   tracking_option (length options)); lia).
    cbn [for_each].
    rewrite (lookup_ge_None_2 options (length options)) by lia.
    destruct (markers_sets !! length options); reflexivity.
Qed.
End Handlers.


(** ** Dispatch and join of the handlers *)

Section Dispatch.
Context `{C : Collaborators}.
Variable DELTA : Z.

(** What [ProcessHandler] does with one crop. *)
Lemma handler_crop_body frames (crop : Crop.t) :
  aligned (Crop.tracker crop) ->
  (tracked <- Crop.track_markers DELTA frames ;;
   let '(blobs, positions, estimate_positions) := tracked in
   zoom Crop.marker_set Crop.with_marker_set (set_marker_pos positions)) crop
  = (crop_pass DELTA frames crop, Ok tt).
Proof.
  destruct crop as [rg f [ms fl k n bl0 ps0 es]].
  unfold aligned.
  cbn [Crop.tracker Tracker.marker_set Tracker.estimated_positions].
  intros Hal.
  destruct (track_eq DELTA ms fl k n bl0 ps0 es (Crop.crop_frames rg frames)
              (detect_blobs f (color (Crop.crop_frames rg frames))) Hal)
    as (es' & ps' & Heq & Hes' & Hcand & [Hps' Hshape]).
  rewrite length_fmap in Hps'.
  set (ms' := with_markers
                (zip_with (fun m p => corrected p m) (predicted k <$> markers ms) ps')
                ms) in *.
  assert (Hlen' : length (markers ms') = length ps').
  { unfold ms'. simpl. rewrite length_zip_with, length_fmap. lia. }
  assert (Hpass : crop_pass DELTA frames (Crop.mk rg f (Tracker.mk ms fl k n bl0 ps0 es))
    = Crop.mk rg f
        (Tracker.mk (write_back ps' ms') (flow_updated (Crop.crop_frames rg frames) fl)
           k n (Some (detect_blobs f (color (Crop.crop_frames rg frames)))) ps' es')).
  { unfold crop_pass. cbn [Crop.region Crop.filters Crop.tracker].
    rewrite Heq. reflexivity. }
  rewrite Hpass. clear Hpass.
  unfold Crop.track_markers.
  erewrite bind_ok.
  2:{ erewrite bind_ok by reflexivity.
      cbn [Crop.region Crop.filters Crop.tracker].
      erewrite bind_ok.
      2:{ unfold zoom. cbn [Crop.tracker]. rewrite Heq. reflexivity. }
      reflexivity. }
  cbv beta iota.
  unfold zoom, Crop.marker_set, Crop.with_marker_set, Crop.with_tracker.
  cbn [Crop.region Crop.filters Crop.tracker Tracker.marker_set].
  rewrite (set_marker_pos_agree ps' ms' Hlen'). reflexivity.
Qed.

Lemma handler_pass_loop frames names (todo pre : list Crop.t) :
  Forall (fun crop => aligned (Crop.tracker crop)) todo ->
  (length pre + length todo <= length names)%nat ->
  for_each (zip (seq (length pre) (length todo)) todo) (fun '(i, crop) =>
    ProcessHandler.on_crop i crop (
      tracked <- Crop.track_markers DELTA frames ;;
      let '(blobs, positions, estimate_positions) := tracked in
      zoom Crop.marker_set Crop.with_marker_set (set_marker_pos positions)) ;;
    _ <- ProcessHandler.crops_name_getitem i ;;
    ret tt)
    (ProcessHandler.mk (pre ++ todo) names)
  = (ProcessHandler.mk (pre ++ (crop_pass DELTA frames <$> todo)) names, Ok tt).
Proof.
  revert pre. induction todo as [|c todo IH]; intros pre Hall Hlen.
  - reflexivity.
  - apply Forall_cons in Hall as [Hc Hall]. simpl in Hlen.
    destruct (lookup_lt_is_Some_2 names (length pre) ltac:(lia)) as [nm Hnm].
    cbn [length seq zip zip_with for_each].
    erewrite bind_ok.
    2:{ erewrite bind_ok.
        2:{ unfold ProcessHandler.on_crop.
            rewrite (handler_crop_body frames c Hc).
            unfold ProcessHandler.with_crops.
            cbn [ProcessHandler.crops ProcessHandler.crops_name].
            rewrite insert_app_r_alt by lia. rewrite Nat.sub_diag. simpl.
            reflexivity. }
        unfold ProcessHandler.crops_name_getitem, bind, ret.
        cbn [ProcessHandler.crops_name]. rewrite Hnm. reflexivity. }
    rewrite (cons_middle (crop_pass DELTA frames c) pre todo), app_assoc.
    replace (Datatypes.S (length pre))
      with (length (pre ++ [crop_pass DELTA frames c]))
      by (rewrite length_app; simpl; lia).
    rewrite IH; [| exact Hall | rewrite length_app; simpl; lia].
    rewrite <- app_assoc. reflexivity.
Qed.

(** What [_process_while_loading] leaves, by the outcome of the pass. *)
Lemma _process_while_loading_eq (self : ProcessImage.t) :
  ProcessImage._process_while_loading DELTA self
  = (let '(handler, outcome) :=
       ImageProcessingHandler.send_process DELTA (ProcessImage.frames self) 1
         (ProcessImage.process_handler self) in
     match outcome with
     | Ok _ =>
         ProcessImage._update_img
           (ProcessImage.load_img (ProcessImage.path self)
              (ProcessImage.index self)).1
           (ProcessImage.load_img (ProcessImage.path self)
              (ProcessImage.index self)).2
           (ProcessImage.with_process_handler handler self)
     | Raise e => (ProcessImage.with_process_handler handler self, Raise e)
     end).
Proof.
  destruct self as [p si ei ix fr h].
  unfold ProcessImage._process_while_loading, bind at 1, get at 1.
  unfold bind at 1, zoom at 1.
  cbn [ProcessImage.frames ProcessImage.process_handler ProcessImage.path
       ProcessImage.index].
  destruct (ImageProcessingHandler.send_process DELTA fr 1 h) as [h' [[]|e]];
    [| reflexivity].
  unfold ProcessImage._load_img, ImageProcessingHandler.receive_process,
    bind, get, ret, zoom, ProcessImage.with_process_handler.
  cbn [ProcessImage.frames ProcessImage.process_handler ProcessImage.path
       ProcessImage.index ProcessImage.start_index ProcessImage.end_index].
  destruct (ProcessImage.load_img p ix) as [c d]. reflexivity.
Qed.

Lemma _update_img_handler (c d : option Image) (self : ProcessImage.t) :
  ProcessImage.process_handler (ProcessImage._update_img c d self).1
  = ProcessImage.process_handler self.
Proof. destruct c, d; reflexivity. Qed.

(** C9.  For every [order], [send_and_receive_process] of [ProcessHandler]
    and of [ImageProcessingHandler] is [send_process]: same final state and
    same outcome, exception included; [receive_process] and [end_process]
    of [ImageProcessingHandler] return with the state as it was.  The whole
    tracking pass runs inside [send_process]: when it returns, every crop
    has been tracked on the blobs of its region of the frames and its
    marker set holds the positions returned ([crop_pass]), for
    [ProcessHandler] over crops with one diagnostics slot per marker and
    for [ImageProcessingHandler] over crops it can draw.  Hence
    [_process_while_loading] is that pass, then the load, then the update
    of the frame: the handler it leaves is the one [send_process] left
    before the load started, whatever is loaded, so the crops are those of
    the completed pass over the frames held at the call, and nothing of the
    pass runs during or after the load. *)
Theorem send_and_receive_is_send :
  (forall frames order (self : ProcessHandler.t),
     ProcessHandler.send_and_receive_process DELTA frames order self
     = ProcessHandler.send_process DELTA frames order self) /\
  (forall frames order (self : ImageProcessingHandler.t),
     ImageProcessingHandler.send_and_receive_process DELTA frames order self
     = ImageProcessingHandler.send_process DELTA frames order self) /\
  (forall self : ImageProcessingHandler.t,
     ImageProcessingHandler.receive_process self = (self, Ok tt) /\
     ImageProcessingHandler.end_process self = (self, Ok tt)) /\
  (forall frames order (self : ProcessHandler.t),
     Forall (fun crop => aligned (Crop.tracker crop)) (ProcessHandler.crops self) ->
     (length (ProcessHandler.crops self)
      <= length (ProcessHandler.crops_name self))%nat ->
     ProcessHandler.send_process DELTA frames order self
     = (ProcessHandler.with_crops
          (crop_pass DELTA frames <$> ProcessHandler.crops self) self, Ok tt)) /\
  (forall frames order (self : ImageProcessingHandler.t),
     Forall drawable (ImageProcessingHandler.crops self) ->
     (length (ImageProcessingHandler.crops self)
      <= length (ImageProcessingHandler.crops_name self))%nat ->
     ImageProcessingHandler.send_process DELTA frames order self
     = (ImageProcessingHandler.with_crops
          (crop_pass DELTA frames <$> ImageProcessingHandler.crops self) self,
        Ok tt)) /\
  (forall self : ProcessImage.t,
     ProcessImage._process_while_loading DELTA self
     = (me <- get ;;
        zoom ProcessImage.process_handler ProcessImage.with_process_handler
          (ImageProcessingHandler.send_process DELTA (ProcessImage.frames me) 1) ;;
        loaded <- ProcessImage._load_img ;;
        ProcessImage._update_img loaded.1 loaded.2) self) /\
  (forall self : ProcessImage.t,
     ProcessImage.process_handler
       (ProcessImage._process_while_loading DELTA self).1
     = (ImageProcessingHandler.send_process DELTA (ProcessImage.frames self) 1
          (ProcessImage.process_handler self)).1) /\
  (forall self : ProcessImage.t,
     Forall drawable
       (ImageProcessingHandler.crops (ProcessImage.process_handler self)) ->
     (length (ImageProcessingHandler.crops (ProcessImage.process_handler self))
      <= length (ImageProcessingHandler.crops_name
                   (ProcessImage.process_handler self)))%nat ->
     ImageProcessingHandler.crops
       (ProcessImage.process_handler
          (ProcessImage._process_while_loading DELTA self).1)
     = crop_pass DELTA (ProcessImage.frames self)
         <$> ImageProcessingHandler.crops (ProcessImage.process_handler self)).
Proof.
  assert (Himage : forall frames order (self : ImageProcessingHandler.t),
    Forall drawable (ImageProcessingHandler.crops self) ->
    (length (ImageProcessingHandler.crops self)
     <= length (ImageProcessingHandler.crops_name self))%nat ->
    ImageProcessingHandler.send_process DELTA frames order self
    = (ImageProcessingHandler.with_crops
         (crop_pass DELTA frames <$> ImageProcessingHandler.crops self) self,
       Ok tt)).
  { intros frames order [cs names].
    cbn [ImageProcessingHandler.crops ImageProcessingHandler.crops_name].
    intros Hall Hlen.
    unfold ImageProcessingHandler.send_process,
      ImageProcessingHandler._process_function.
    erewrite bind_ok by reflexivity.
    cbn [ImageProcessingHandler.crops]. unfold enumerate.
    apply (image_pass_loop DELTA frames names cs [] Hall). simpl. lia. }
  assert (Hhandler : forall self : ProcessImage.t,
    ProcessImage.process_handler
      (ProcessImage._process_while_loading DELTA self).1
    = (ImageProcessingHandler.send_process DELTA (ProcessImage.frames self) 1
         (ProcessImage.process_handler self)).1).
  { intros self. rewrite _process_while_loading_eq.
    destruct (ImageProcessingHandler.send_process DELTA
                (ProcessImage.frames self) 1 (ProcessImage.process_handler self))
      as [h' [[]|e]]; cbn [fst].
    - rewrite _update_img_handler. destruct self; reflexivity.
    - destruct self; reflexivity. }
  split; [reflexivity |]. split.
  { intros frames order self.
    unfold ImageProcessingHandler.send_and_receive_process,
      ImageProcessingHandler.receive_process.
    apply bind_ret_tt. }
  split; [intros self; split; reflexivity |]. split.
  { intros frames order [cs names].
    cbn [ProcessHandler.crops ProcessHandler.crops_name].
    intros Hall Hlen.
    unfold ProcessHandler.send_process, ProcessHandler._process_function.
    erewrite bind_ok by reflexivity.
    cbn [ProcessHandler.crops]. unfold enumerate.
    apply (handler_pass_loop frames names cs [] Hall). simpl. lia. }
  split; [exact Himage |]. split.
  { intros self. unfold ProcessImage._process_while_loading, bind, get.
    destruct (zoom _ _ _ self) as [s1 [[]|e]]; [| reflexivity].
    unfold ProcessImage._load_img, bind, get, ret.
    destruct (ProcessImage.load_img _ _) as [c d]. simpl.
    unfold zoom, ImageProcessingHandler.receive_process, ret.
    destruct s1; reflexivity. }
  split; [exact Hhandler |].
  intros self Hall Hlen. rewrite Hhandler.
  rewrite (Himage _ 1%Z _ Hall Hlen). reflexivity.
Qed.
End Dispatch.


(** ** The camera intrinsics read from a configuration *)

Section Camera.
Variable Num : Type.
Variables zero one nan : Num.
Variable Distortion : Type.
Variable inverse_brown_conrady : Distortion.

Lemma set_intrinsics_from_file_ok (fx_fy ppx_ppy coeffs : list Num)
    (depth_frame : list nat) (w h : nat) (vfx vfy vpx vpy : Num)
    (self : CameraIntrinsics.t Num Distortion) :
  depth_frame !! 0%nat = Some w -> depth_frame !! 1%nat = Some h ->
  fx_fy !! 0%nat = Some vfx -> fx_fy !! 1%nat = Some vfy ->
  ppx_ppy !! 0%nat = Some vpx -> ppx_ppy !! 1%nat = Some vpy ->
  CameraIntrinsics.set_intrinsics_from_file Num zero one nan Distortion
    inverse_brown_conrady fx_fy ppx_ppy coeffs depth_frame self
  = (CameraIntrinsics.mk Num Distortion (Some w) (Some h) (Some vfx) (Some vfy)
       (Some vpx) (Some vpy)
       (Some [[vfx; zero; vpx]; [zero; vfy; vpx]; [zero; zero; one]])
       (Some inverse_brown_conrady) (Some coeffs),
     Ok tt).
Proof.
  intros Hw Hh Hfx Hfy Hpx Hpy.
  unfold CameraIntrinsics.set_intrinsics_from_file, CameraIntrinsics.getitem,
    CameraIntrinsics._set_intrinsics_mat.
  rewrite Hw, Hh, Hfx, Hfy, Hpx, Hpy. reflexivity.
Qed.

(** X17.  With a depth frame of at least two dimensions and two numbers
    under each of the four keys, [_set_intrinsics_from_file] returns
    normally and stores exactly this: in both intrinsics, the width is
    [depth_frame.shape[0]] and the height [depth_frame.shape[1]], the
    distortion coefficients are those under [dist_coeffs_color], also for
    the depth intrinsics, and the model is [inverse_brown_conrady]; the
    focal lengths and the principal point are those of the intrinsics' own
    keys, and the matrix has [ppx] in its first and in its second row, [ppy]
    in none.  The rest of the converter is unchanged. *)
Theorem intrinsics_from_file (conf : CameraConverter.conf_data Num)
    (depth_frame : list nat) (w h : nat)
    (dfx dfy dpx dpy cfx cfy cpx cpy : Num) (self : CameraConverter.t Num Distortion) :
  depth_frame !! 0%nat = Some w -> depth_frame !! 1%nat = Some h ->
  CameraConverter.depth_fx_fy Num conf !! 0%nat = Some dfx ->
  CameraConverter.depth_fx_fy Num conf !! 1%nat = Some dfy ->
  CameraConverter.depth_ppx_ppy Num conf !! 0%nat = Some dpx ->
  CameraConverter.depth_ppx_ppy Num conf !! 1%nat = Some dpy ->
  CameraConverter.color_fx_fy Num conf !! 0%nat = Some cfx ->
  CameraConverter.color_fx_fy Num conf !! 1%nat = Some cfy ->
  CameraConverter.color_ppx_ppy Num conf !! 0%nat = Some cpx ->
  CameraConverter.color_ppx_ppy Num conf !! 1%nat = Some cpy ->
  CameraConverter._set_intrinsics_from_file Num zero one nan Distortion
    inverse_brown_conrady conf depth_frame self
  = (CameraConverter.mk Num Distortion
       (CameraIntrinsics.mk Num Distortion (Some w) (Some h) (Some dfx) (Some dfy)
          (Some dpx) (Some dpy)
          (Some [[dfx; zero; dpx]; [zero; dfy; dpx]; [zero; zero; one]])
          (Some inverse_brown_conrady)
          (Some (CameraConverter.dist_coeffs_color Num conf)))
       (CameraIntrinsics.mk Num Distortion (Some w) (Some h) (Some cfx) (Some cfy)
          (Some cpx) (Some cpy)
          (Some [[cfx; zero; cpx]; [zero; cfy; cpx]; [zero; zero; one]])
          (Some inverse_brown_conrady)
          (Some (CameraConverter.dist_coeffs_color Num conf)))
       (CameraConverter.model Num Distortion self)
       (CameraConverter.set_intrinsics Num Distortion self)
       (CameraConverter.depth_to_color Num Distortion self),
     Ok tt).
Proof.
  intros Hw Hh Hdfx Hdfy Hdpx Hdpy Hcfx Hcfy Hcpx Hcpy.
  unfold CameraConverter._set_intrinsics_from_file.
  erewrite bind_ok.
  2:{ unfold zoom.
      rewrite (set_intrinsics_from_file_ok _ _ _ _ w h dfx dfy dpx dpy) by assumption.
      reflexivity. }
  unfold zoom.
  rewrite (set_intrinsics_from_file_ok _ _ _ _ w h cfx cfy cpx cpy) by assumption.
  reflexivity.
Qed.

(** X18.  A depth frame with fewer than two dimensions makes
    [_set_intrinsics_from_file] raise [IndexError] before anything is
    stored: the converter is left as it was, whatever the configuration. *)
Theorem intrinsics_from_flat_frame (conf : CameraConverter.conf_data Num)
    (depth_frame : list nat) (self : CameraConverter.t Num Distortion) :
  (length depth_frame < 2)%nat ->
  CameraConverter._set_intrinsics_from_file Num zero one nan Distortion
    inverse_brown_conrady conf depth_frame self = (self, Raise IndexError).
Proof.
  intros Hlen.
  assert (Hnone : depth_frame !! 1%nat = None) by (apply lookup_ge_None; lia).
  destruct self as [d c m s e].
  unfold CameraConverter._set_intrinsics_from_file.
  erewrite bind_raise; [reflexivity |].
  unfold zoom, CameraIntrinsics.set_intrinsics_from_file, CameraIntrinsics.getitem.
  cbn [CameraConverter.depth]. rewrite Hnone. reflexivity.
Qed.

(** X19.  The two intrinsics are stored one after the other and a failure
    is not undone: when the numbers for the depth intrinsics are there but
    [color_fx_fy] holds fewer than two numbers, [_set_intrinsics_from_file]
    raises [IndexError] with the depth intrinsics already replaced and the
    size of the color intrinsics already set, while the matrix, the model
    and the distortion coefficients of the color intrinsics are the old
    ones. *)
Theorem intrinsics_from_file_not_atomic (conf : CameraConverter.conf_data Num)
    (depth_frame : list nat) (w h : nat) (dfx dfy dpx dpy : Num)
    (self : CameraConverter.t Num Distortion) :
  depth_frame !! 0%nat = Some w -> depth_frame !! 1%nat = Some h ->
  CameraConverter.depth_fx_fy Num conf !! 0%nat = Some dfx ->
  CameraConverter.depth_fx_fy Num conf !! 1%nat = Some dfy ->
  CameraConverter.depth_ppx_ppy Num conf !! 0%nat = Some dpx ->
  CameraConverter.depth_ppx_ppy Num conf !! 1%nat = Some dpy ->
  (length (CameraConverter.color_fx_fy Num conf) < 2)%nat ->
  (CameraConverter._set_intrinsics_from_file Num zero one nan Distortion
       inverse_brown_conrady conf depth_frame self).2 = Raise IndexError /\
  CameraConverter.depth Num Distortion (CameraConverter._set_intrinsics_from_file Num zero one nan Distortion
       inverse_brown_conrady conf depth_frame self).1
    = CameraIntrinsics.mk Num Distortion (Some w) (Some h) (Some dfx) (Some dfy)
        (Some dpx) (Some dpy)
        (Some [[dfx; zero; dpx]; [zero; dfy; dpx]; [zero; zero; one]])
        (Some inverse_brown_conrady)
        (Some (CameraConverter.dist_coeffs_color Num conf)) /\
  CameraIntrinsics.width Num Distortion
    (CameraConverter.color Num Distortion (CameraConverter._set_intrinsics_from_file Num zero one nan Distortion
       inverse_brown_conrady conf depth_frame self).1)
    = Some w /\
  CameraIntrinsics.height Num Distortion
    (CameraConverter.color Num Distortion (CameraConverter._set_intrinsics_from_file Num zero one nan Distortion
       inverse_brown_conrady conf depth_frame self).1)
    = Some h /\
  CameraIntrinsics.intrinsics_mat Num Distortion
    (CameraConverter.color Num Distortion (CameraConverter._set_intrinsics_from_file Num zero one nan Distortion
       inverse_brown_conrady conf depth_frame self).1)
    = CameraIntrinsics.intrinsics_mat Num Distortion
        (CameraConverter.color Num Distortion self) /\
  CameraIntrinsics.model Num Distortion
    (CameraConverter.color Num Distortion (CameraConverter._set_intrinsics_from_file Num zero one nan Distortion
       inverse_brown_conrady conf depth_frame self).1)
    = CameraIntrinsics.model Num Distortion
        (CameraConverter.color Num Distortion self) /\
  CameraIntrinsics.dist_coefficients Num Distortion
    (CameraConverter.color Num Distortion (CameraConverter._set_intrinsics_from_file Num zero one nan Distortion
       inverse_brown_conrady conf depth_frame self).1)
    = CameraIntrinsics.dist_coefficients Num Distortion
        (CameraConverter.color Num Distortion self).
Proof.
  intros Hw Hh Hdfx Hdfy Hdpx Hdpy Hshort.
  unfold CameraConverter._set_intrinsics_from_file.
  erewrite bind_ok.
  2:{ unfold zoom.
      rewrite (set_intrinsics_from_file_ok _ _ _ _ w h dfx dfy dpx dpy) by assumption.
      reflexivity. }
  destruct self as [d c m s e].
  unfold zoom, CameraIntrinsics.set_intrinsics_from_file, CameraIntrinsics.getitem.
  cbn [CameraConverter.depth CameraConverter.color CameraConverter.with_depth
       CameraConverter.model CameraConverter.set_intrinsics
       CameraConverter.depth_to_color].
  rewrite Hw, Hh.
  destruct (CameraConverter.color_fx_fy Num conf) as [|x [|y l]];
    [| | simpl in Hshort; lia]; cbn; repeat apply conj; reflexivity.
Qed.
End Camera.


(** ** What a tick keeps of the previous one *)

Section StaleState.
Context `{C : Collaborators}.
Variable DELTA : Z.

(** [track] up to the merge of the candidates. *)
Lemma track_from_merge ms fl k n bl0 ps0 es frame bl :
  length es = length (markers ms) ->
  exists es',
    length es' = length es /\
    (forall i m, markers ms !! i = Some m ->
       es' !! i = if is_static m then es !! i
                  else Some (Some (candidates DELTA n (flow_updated frame fl)
                                     k bl i m))) /\
    Tracker.track DELTA frame bl (Tracker.mk ms fl k n bl0 ps0 es)
    = (Tracker.check_tracking ;;
       Tracker.check_bounds frame ;;
       Tracker.correct_markers ;;
       self <- get ;;
       ret (Tracker.positions self, Tracker.estimated_positions self))
        (Tracker.mk (with_markers (predicted k <$> markers ms) ms)
           (flow_updated frame fl) k n (Some bl) (_merge_positions <$> es') es').
Proof.
  intros Hlen. unfold Tracker.track.
  erewrite bind_ok by reflexivity.
  erewrite bind_ok by reflexivity.
  unfold Tracker.with_blobs.
  cbn [Tracker.marker_set Tracker.optical_flow Tracker.kalman Tracker.naive
       Tracker.blobs Tracker.positions Tracker.estimated_positions].
  assert (Hflow :
    match fl with
    | Some flow =>
        modify (Tracker.with_optical_flow
                  (Some (Flow_get_optical_flow_pos flow (color frame))))
    | None => ret tt
    end (Tracker.mk ms fl k n (Some bl) ps0 es)
    = (Tracker.mk ms (flow_updated frame fl) k n (Some bl) ps0 es, Ok tt)).
  { destruct fl; reflexivity. }
  erewrite bind_ok by exact Hflow. clear Hflow.
  erewrite bind_ok by reflexivity.
  cbn [Tracker.marker_set].
  destruct (estimation_pass DELTA ms (flow_updated frame fl) k n bl ps0 es Hlen)
    as (s1 & [] & Hest & lm & es' & -> & Hlm & Hes' & Hmk & Hcand).
  erewrite bind_ok by exact Hest. clear Hest.
  erewrite bind_ok by apply merge_positions_eq.
  unfold Tracker.with_positions.
  cbn [Tracker.marker_set Tracker.optical_flow Tracker.kalman Tracker.naive
       Tracker.blobs Tracker.positions Tracker.estimated_positions].
  assert (Hlm_eq : lm = predicted k <$> markers ms).
  { apply list_eq. intros i. rewrite Hmk, list_lookup_fmap. reflexivity. }
  subst lm. exists es'. split; [exact Hes' |]. split; [exact Hcand |].
  reflexivity.
Qed.

(** X20.  A tick starts afresh: on an aligned tracker the outcome of [track]
    and the tracker it leaves do not depend on the [positions] and the
    [blobs] left by the previous tick; only the marker set, the estimators
    and the diagnostics slots are carried over. *)
Theorem track_forgets_previous_tick (self other : Tracker.t) (frame : Frames)
    (blobs : list coord) :
  aligned self ->
  Tracker.marker_set other = Tracker.marker_set self ->
  Tracker.optical_flow other = Tracker.optical_flow self ->
  Tracker.kalman other = Tracker.kalman self ->
  Tracker.naive other = Tracker.naive self ->
  Tracker.estimated_positions other = Tracker.estimated_positions self ->
  Tracker.track DELTA frame blobs other = Tracker.track DELTA frame blobs self.
Proof.
  destruct self as [ms fl k n bl0 ps0 es], other as [ms' fl' k' n' bl1 ps1 es1].
  unfold aligned. simpl. intros Hlen -> -> -> -> ->.
  destruct (track_from_merge ms fl k n bl0 ps0 es frame blobs Hlen)
    as (e0 & Hl0 & Hc0 & ->).
  destruct (track_from_merge ms fl k n bl1 ps1 es frame blobs Hlen)
    as (e1 & Hl1 & Hc1 & ->).
  assert (He : e1 = e0).
  { apply list_eq. intros i.
    destruct (markers ms !! i) as [m|] eqn:Hm.
    - rewrite (Hc0 i m Hm), (Hc1 i m Hm). reflexivity.
    - apply lookup_ge_None in Hm.
      rewrite (lookup_ge_None_2 e0), (lookup_ge_None_2 e1) by lia.
      reflexivity. }
  rewrite He. reflexivity.
Qed.
End StaleState.


(** ** The further properties on concrete inputs *)

Section MoreRuns.

Lemma check_tracking_without_overlap_witness :
  no_overlap (Tracker.positions apart) = true /\
  Tracker.check_tracking apart = (apart, Ok tt).
Proof.
  split; [reflexivity |].
  apply (check_tracking_without_overlap apart). reflexivity.
Defined.

Lemma check_tracking_keeps_or_reverts_witness :
  (length (Tracker.positions contested)
   <= length (markers (Tracker.marker_set contested)))%nat /\
  returns Tracker.check_tracking contested (fun self' _ =>
    self' = Tracker.with_positions (Tracker.positions self') contested /\
    length (Tracker.positions self') = length (Tracker.positions contested) /\
    (forall i,
       kept_or_reverted (markers (Tracker.marker_set contested) !! i)
         (Tracker.positions contested !! i) (Tracker.positions self' !! i)) /\
    (forall i, Tracker.positions contested !! i = Some Empty ->
               Tracker.positions self' !! i = Some Empty)).
Proof.
  split; [simpl; lia |].
  apply (check_tracking_keeps_or_reverts contested). simpl. lia.
Defined.

Lemma track_stays_in_frame_witness :
  aligned naive_tracker /\
  (1 <= width (frame_of [(12, 11)%Z]))%Z /\
  (1 <= height (frame_of [(12, 11)%Z]))%Z /\
  returns (Tracker.track 8 (frame_of [(12, 11)%Z]) [(12, 11)%Z]) naive_tracker
    (fun _ out =>
       forall i p, out.1 !! i = Some (Valid p) ->
                   inside (frame_of [(12, 11)%Z]) p).
Proof.
  split; [reflexivity |]. split; [simpl; lia |]. split; [simpl; lia |].
  apply (track_stays_in_frame 8 naive_tracker (frame_of [(12, 11)%Z]) [(12, 11)%Z]).
  - reflexivity.
  - simpl. lia.
  - simpl. lia.
Defined.

Lemma tick_stores_returned_positions_witness :
  aligned naive_tracker /\
  returns (Tracker.track 8 (frame_of [(12, 11)%Z]) [(12, 11)%Z]) naive_tracker
    (fun self' out =>
       returns (set_marker_pos out.1) (Tracker.marker_set self') (fun ms' _ =>
         length (markers ms') = length (markers (Tracker.marker_set naive_tracker)) /\
         aligned (Tracker.with_marker_set ms' self') /\
         forall i m, markers (Tracker.marker_set naive_tracker) !! i = Some m ->
           exists m', markers ms' !! i = Some m' /\
                      name m' = name m /\ is_static m' = is_static m /\
                      pos m' = stored_after m (out.1 !! i))).
Proof.
  split; [reflexivity |].
  apply (tick_stores_returned_positions 8 naive_tracker (frame_of [(12, 11)%Z])
           [(12, 11)%Z]).
  reflexivity.
Defined.

Lemma no_estimator_no_position_witness :
  aligned blind_tracker /\
  Tracker.naive blind_tracker = false /\
  Tracker.optical_flow blind_tracker = None /\
  Tracker.kalman blind_tracker = false /\
  returns (Tracker.track 8 (frame_of [(12, 11)%Z]) [(12, 11)%Z]) blind_tracker
    (fun self' out =>
       forall i m, markers (Tracker.marker_set blind_tracker) !! i = Some m ->
         is_static m = false ->
         out.1 !! i = Some Empty /\ out.2 !! i = Some (Some []) /\
         markers (Tracker.marker_set self') !! i = Some m).
Proof.
  split; [reflexivity |]. split; [reflexivity |]. split; [reflexivity |].
  split; [reflexivity |].
  apply (no_estimator_no_position 8 blind_tracker (frame_of [(12, 11)%Z])
           [(12, 11)%Z]); reflexivity.
Defined.

Lemma lost_flow_gives_no_candidate_witness :
  returns
    (@Tracker.track lost_flow 8 (@mkFrames lost_flow [(12, 11)%Z] [] 100%Z 100%Z)
       [(12, 11)%Z])
    lost_flow_tracker
    (fun _ out =>
       out.2 !! 0%nat =
         Some (Some (@candidates lost_flow 8 true None false [(12, 11)%Z] 0%nat
                       (@mkMarker lost_flow "a" (10, 10)%Z false [])))).
Proof.
  apply (@lost_flow_gives_no_candidate lost_flow 8 lost_flow_tracker
           (@mkFrames lost_flow [(12, 11)%Z] [] 100%Z 100%Z) [(12, 11)%Z]
           [(10, 10)%Z] 0%nat (@mkMarker lost_flow "a" (10, 10)%Z false [])).
  - reflexivity.
  - reflexivity.
  - reflexivity.
  - reflexivity.
  - simpl. lia.
Defined.

Lemma static_markers_never_reported_witness :
  reachable 8 static_tracker_later /\
  returns (Tracker.track 8 (frame_of [(10, 10)%Z]) [(10, 10)%Z])
    static_tracker_later
    (fun _ out =>
       forall i m,
         markers (Tracker.marker_set static_tracker_later) !! i = Some m ->
         is_static m = true ->
         out.1 !! i = Some Empty /\ out.2 !! i = Some None).
Proof.
  assert (Hreach : reachable 8 static_tracker_later).
  { unfold static_tracker_later.
    eapply reachable_set_marker_pos; [| apply surjective_pairing].
    eapply reachable_track; [apply reachable_init | apply surjective_pairing]. }
  split; [exact Hreach |].
  apply (static_markers_never_reported 8 static_tracker_later
           (frame_of [(10, 10)%Z]) [(10, 10)%Z] Hreach).
Defined.

Lemma process_loop_reaches_end_witness :
  (ProcessImage.process_loop 8 (fun _ => false) 5 stalled).2 <> Ok false /\
  (ProcessImage.index stalled
   <= ProcessImage.index (ProcessImage.process_loop 8 (fun _ => false) 5 stalled).1
   <= ProcessImage.end_index stalled)%Z.
Proof.
  destruct (process_loop_reaches_end 8 (fun _ => false) 5 stalled)
    as (Hleft & Hindex & _).
  - simpl. lia.
  - simpl. lia.
  - split; [exact Hleft | exact Hindex].
Defined.

Lemma process_loop_past_end_witness :
  (ProcessImage.end_index overrun < ProcessImage.index overrun)%Z /\
  (ProcessImage.process_loop 8 (fun _ => false) 3 overrun).2 <> Ok true.
Proof.
  split; [simpl; lia |].
  apply (process_loop_past_end 8 (fun _ => false) 3 overrun).
  - simpl. lia.
  - intros i. reflexivity.
Defined.

Lemma process_without_images_witness :
  ProcessImage.process 8 (fun _ => false) 1 empty_run
  = (empty_run, Raise ZeroDivisionError).
Proof.
  apply (process_without_images 8 (fun _ => false) 0 empty_run). reflexivity.
Defined.

Lemma image_pass_is_crop_by_crop_witness :
  ImageProcessingHandler._process_function 8 (frame_of [(12, 11)%Z])
    (ProcessImage.process_handler stalled)
  = (ImageProcessingHandler.with_crops
       (crop_pass 8 (frame_of [(12, 11)%Z])
          <$> ImageProcessingHandler.crops (ProcessImage.process_handler stalled))
       (ProcessImage.process_handler stalled),
     Ok tt) /\
  Forall drawable
    (crop_pass 8 (frame_of [(12, 11)%Z])
       <$> ImageProcessingHandler.crops (ProcessImage.process_handler stalled)).
Proof.
  apply (image_pass_is_crop_by_crop 8 (frame_of [(12, 11)%Z])
           (ProcessImage.process_handler stalled)).
  - repeat constructor.
  - simpl. lia.
Defined.

Lemma static_marker_stops_the_pass_witness :
  ImageProcessingHandler._process_function 8 (frame_of [(12, 11)%Z]) static_first
  = (ImageProcessingHandler.with_crops
       [crop_pass 8 (frame_of [(12, 11)%Z])
          (Crop.__init__ (0, 0, 100, 100)%Z (frame_of [(12, 11)%Z])
             (one_marker_set (10, 10)%Z true) tt true false false);
        Crop.__init__ (0, 0, 100, 100)%Z (frame_of [(12, 11)%Z])
          (one_marker_set (10, 10)%Z false) tt true false false]
       static_first,
     Raise TypeError).
Proof.
  apply (static_marker_stops_the_pass 8 (frame_of [(12, 11)%Z]) static_first []
           (Crop.__init__ (0, 0, 100, 100)%Z (frame_of [(12, 11)%Z])
              (one_marker_set (10, 10)%Z true) tt true false false)
           [Crop.__init__ (0, 0, 100, 100)%Z (frame_of [(12, 11)%Z])
              (one_marker_set (10, 10)%Z false) tt true false false]).
  - reflexivity.
  - constructor.
  - simpl. lia.
  - apply reachable_init.
  - repeat constructor.
Defined.

Lemma intrinsics_from_file_witness :
  CameraIntrinsics.dist_coefficients (option Z) string
    (CameraConverter.depth (option Z) string
       (CameraConverter._set_intrinsics_from_file (option Z) (Some 0%Z)
          (Some 1%Z) None string "inverse_brown_conrady" sample_conf
          [640%nat; 480%nat] fresh_converter).1)
  = Some [Some 1; Some 2; Some 3; Some 4; Some 5]%Z.
Proof.
  rewrite (intrinsics_from_file (option Z) (Some 0%Z) (Some 1%Z) None string
             "inverse_brown_conrady" sample_conf [640%nat; 480%nat] 640%nat 480%nat
             (Some 420%Z) (Some 421%Z) (Some 320%Z) (Some 240%Z)
             (Some 610%Z) (Some 611%Z) (Some 322%Z) (Some 242%Z) fresh_converter);
    reflexivity.
Defined.

Lemma intrinsics_from_flat_frame_witness :
  CameraConverter._set_intrinsics_from_file (option Z) (Some 0%Z) (Some 1%Z) None
    string "inverse_brown_conrady" sample_conf [640%nat] fresh_converter
  = (fresh_converter, Raise IndexError).
Proof.
  apply (intrinsics_from_flat_frame (option Z) (Some 0%Z) (Some 1%Z) None string
           "inverse_brown_conrady" sample_conf [640%nat] fresh_converter).
  simpl. lia.
Defined.

Lemma intrinsics_from_file_not_atomic_witness :
  (CameraConverter._set_intrinsics_from_file (option Z) (Some 0%Z) (Some 1%Z) None
     string "inverse_brown_conrady" short_conf [640%nat; 480%nat]
     fresh_converter).2 = Raise IndexError /\
  CameraIntrinsics.width (option Z) string
    (CameraConverter.depth (option Z) string
       (CameraConverter._set_intrinsics_from_file (option Z) (Some 0%Z)
          (Some 1%Z) None string "inverse_brown_conrady" short_conf
          [640%nat; 480%nat] fresh_converter).1)
  = Some 640%nat.
Proof.
  destruct (intrinsics_from_file_not_atomic (option Z) (Some 0%Z) (Some 1%Z) None
              string "inverse_brown_conrady" short_conf [640%nat; 480%nat]
              640%nat 480%nat (Some 420%Z) (Some 421%Z) (Some 320%Z) (Some 240%Z)
              fresh_converter)
    as (Hraise & Hdepth & _); try reflexivity.
  - simpl. lia.
  - split; [exact Hraise |]. rewrite Hdepth. reflexivity.
Defined.
Lemma track_forgets_previous_tick_witness :
  Tracker.track 8 (frame_of [(50, 50)%Z]) [(50, 50)%Z] apart
  = Tracker.track 8 (frame_of [(50, 50)%Z]) [(50, 50)%Z] contested.
Proof.
  apply (track_forgets_previous_tick 8 contested apart (frame_of [(50, 50)%Z])
           [(50, 50)%Z]); reflexivity.
Defined.

Lemma overlap_resolution_witness :
  isolated_pair (Tracker.marker_set two_pairs) (Tracker.positions two_pairs)
    0 1 = true /\
  isolated_pair (Tracker.marker_set two_pairs) (Tracker.positions two_pairs)
    2 3 = true /\
  sole_overlap (Tracker.positions two_pairs) 0 1 = false /\
  returns Tracker.check_tracking two_pairs (fun self' _ =>
    Tracker.positions self' !! 0%nat = Some (Valid (mkPosition (50, 50)%Z true)) /\
    Tracker.positions self' !! 1%nat = Some (Valid (mkPosition (10, 10)%Z true))) /\
  returns Tracker.check_tracking two_pairs (fun self' _ =>
    Tracker.positions self' !! 2%nat = Some (Valid (mkPosition (80, 80)%Z true)) /\
    Tracker.positions self' !! 3%nat = Some (Valid (mkPosition (20, 20)%Z true))).
Proof.
  split; [reflexivity |]. split; [reflexivity |]. split; [reflexivity |].
  split.
  - destruct (overlap_resolution (Tracker.marker_set two_pairs) None false true
                (Some [(50, 50)%Z; (80, 80)%Z]) (Tracker.positions two_pairs)
                [Some []; Some []; Some []; Some []] 0%nat 1%nat
                (mkPosition (50, 50)%Z true) (mkPosition (50, 50)%Z true)
                (marker_at "A" (48, 49)%Z false) (marker_at "B" (10, 10)%Z false))
      as (_ & Hpair & _); try reflexivity; [lia |].
    eapply returns_mono.
    { apply Hpair; [reflexivity | simpl; lia | reflexivity]. }
    intros s' u (_ & _ & Hnear & _). apply Hnear. reflexivity.
  - destruct (overlap_resolution (Tracker.marker_set two_pairs) None false true
                (Some [(50, 50)%Z; (80, 80)%Z]) (Tracker.positions two_pairs)
                [Some []; Some []; Some []; Some []] 2%nat 3%nat
                (mkPosition (80, 80)%Z true) (mkPosition (80, 80)%Z true)
                (marker_at "C" (79, 80)%Z false) (marker_at "D" (20, 20)%Z false))
      as (_ & Hpair & _); try reflexivity; [lia |].
    eapply returns_mono.
    { apply Hpair; [reflexivity | simpl; lia | reflexivity]. }
    intros s' u (_ & _ & Hnear & _). apply Hnear. reflexivity.
Defined.


Lemma send_and_receive_is_send_witness :
  ProcessHandler.send_and_receive_process 8 (frame_of [(12, 11)%Z]) 1 plain_handler
  = (ProcessHandler.with_crops
       (crop_pass 8 (frame_of [(12, 11)%Z]) <$> ProcessHandler.crops plain_handler)
       plain_handler, Ok tt) /\
  (get_markers_pos_2d <$>
     (Crop.marker_set <$>
        ProcessHandler.crops
          (ProcessHandler.send_process 8 (frame_of [(12, 11)%Z]) 1 plain_handler).1))
  = [[(12, 11)%Z]; [(14, 14)%Z]] /\
  ImageProcessingHandler.crops
    (ProcessImage.process_handler (ProcessImage._process_while_loading 8 stalled).1)
  = crop_pass 8 (ProcessImage.frames stalled)
      <$> ImageProcessingHandler.crops (ProcessImage.process_handler stalled) /\
  (get_markers_pos_2d <$>
     ProcessImage.marker_sets (ProcessImage._process_while_loading 8 stalled).1)
  = [[(12, 11)%Z]].
Proof.
  destruct (send_and_receive_is_send 8)
    as (Hsame & _ & _ & Hpass & _ & _ & _ & Hcrops).
  split.
  { rewrite Hsame. apply Hpass; [repeat constructor | simpl; lia]. }
  split; [vm_compute; reflexivity |]. split.
  { apply Hcrops; [repeat constructor | simpl; lia]. }
  vm_compute. reflexivity.
Defined.


End MoreRuns.
